(** * Document processing for the banking RAG system

    A shallow embedding of [src/rag/document_processor.py]:
    [ProcessingStats], [DocumentProcessor.load_document],
    [chunk_documents], [enrich_metadata], [_infer_document_type] and
    [process_directory], together with the properties the specification
    states about them.

    Besides, [process_banking_documents] of the same file, the API key
    validator of [src/utils/config.py], the client of
    [src/llm/gemini_client.py] and the agents of
    [src/agents/base_agent.py] and [src/agents/customer_support_agent.py],
    with properties read off their code.

    Conventions.
    - A Python [str] is a [string]; [len] is [String.length].  Characters
      are [ascii] codes; [str.lower] is modelled on the letters A-Z, which
      is what Python does on every string that contains neither U+0130 nor
      U+212A (the only code points whose lower-casing yields an ASCII
      letter).
    - A Python [int] is a [Z].
    - A [dict] with string keys is a [gmap string _]; [d.update(e)] is the
      left-biased union [e ∪ d].
    - [logger] calls append a structured record to a log.
    - The document loaders, the text splitter and the file system are
      collaborators outside the module; the class [Externals] collects
      what the module calls in them.  Likewise the class [GenAI] collects
      what the client calls in [google.generativeai].
    - A Python [float] that the program computes ([avg_chunk_size]) is
      an IEEE 754 binary64 number, [PyFloat.float]; one that is only
      passed on and tested for truth is a [Q]. *)

From Stdlib Require Import ZArith QArith String Ascii List Lia.
From Stdlib Require SpecFloat.
From stdpp Require Import gmap strings list fin_maps pretty.

Local Open Scope string_scope.
Local Open Scope Z_scope.

(** ** Python strings *)

Module PyStr.

Definition is_upper (c : ascii) : bool :=
  let n := nat_of_ascii c in (65 <=? n)%nat && (n <=? 90)%nat.

Definition lower_char (c : ascii) : ascii :=
  if is_upper c then ascii_of_nat (nat_of_ascii c + 32) else c.

(** [s.lower()] *)
Fixpoint lower (s : string) : string :=
  match s with
  | EmptyString => EmptyString
  | String c s' => String (lower_char c) (lower s')
  end.

(** [s.startswith(p)] *)
Fixpoint startswith (p s : string) : bool :=
  match p, s with
  | EmptyString, _ => true
  | String _ _, EmptyString => false
  | String a p', String b s' => Ascii.eqb a b && startswith p' s'
  end.

(** [needle in hay] *)
Fixpoint contains (needle hay : string) : bool :=
  startswith needle hay ||
  match hay with
  | EmptyString => false
  | String _ hay' => contains needle hay'
  end.

(** [s.endswith(p)]: [s] is [p], or what follows its first character
    ends with [p] *)
Fixpoint endswith (p s : string) : bool :=
  String.eqb p s ||
  match s with
  | EmptyString => false
  | String _ s' => endswith p s'
  end.

(** [s.rfind(".")], [None] standing for [-1]. *)
Fixpoint rfind_dot (s : string) : option nat :=
  match s with
  | EmptyString => None
  | String c s' =>
      match rfind_dot s' with
      | Some i => Some (S i)
      | None => if Ascii.eqb c "." then Some 0%nat else None
      end
  end.

(** [sep.join(parts)] *)
Fixpoint join (sep : string) (parts : list string) : string :=
  match parts with
  | [] => ""
  | [p] => p
  | p :: rest => p +:+ sep +:+ join sep rest
  end.

End PyStr.

(** ** Values stored in chunk metadata *)

Inductive value : Type :=
| VStr (s : string)
| VInt (n : Z).

#[global] Instance value_eq_dec : EqDecision value.
Proof. solve_decision. Defined.

(** ** pathlib.Path (POSIX flavour)

    A path is its anchor and its normalised components. *)

Record Path : Type := mkPath {
  absolute : bool;
  parts : list string
}.

#[global] Instance Path_eq_dec : EqDecision Path.
Proof. solve_decision. Defined.

Module PyPath.

(** [str(p)] *)
Definition str (p : Path) : string :=
  match parts p with
  | [] => if absolute p then "/" else "."
  | _ => (if absolute p then "/" else "") +:+ PyStr.join "/" (parts p)
  end.

(** [p.name]: the final component, or the empty string. *)
Definition name (p : Path) : string := List.last (parts p) "".

(** [p.suffix]:
    [i = name.rfind('.'); name[i:] if 0 < i < len(name) - 1 else ''] *)
Definition suffix (p : Path) : string :=
  let n := name p in
  match PyStr.rfind_dot n with
  | Some i =>
      if (0 <? i)%nat && (i <? String.length n - 1)%nat
      then substring i (String.length n - i) n
      else ""
  | None => ""
  end.

(** [p / entry] *)
Definition child (p : Path) (entry : string) : Path :=
  mkPath (absolute p) (parts p ++ [entry]).

End PyPath.

(** ** Category inference: [DocumentProcessor._infer_document_type] *)

Definition _infer_document_type (filename : string) : string :=
  let filename_lower := PyStr.lower filename in
  if PyStr.contains "account" filename_lower || PyStr.contains "product" filename_lower
  then "account_info"
  else if PyStr.contains "fee" filename_lower || PyStr.contains "charge" filename_lower
  then "fees"
  else if PyStr.contains "loan" filename_lower || PyStr.contains "mortgage" filename_lower
  then "loans"
  else if PyStr.contains "security" filename_lower || PyStr.contains "fraud" filename_lower
  then "security"
  else if PyStr.contains "service" filename_lower || PyStr.contains "support" filename_lower
  then "customer_service"
  else "general".

(** The classification policy in the words of the specification: a table
    of keyword groups in priority order, a case-insensitive substring
    test, and "first match wins". *)

Module CategorySpec.

(** [kw] occurs in [s] up to letter case. *)
Definition ci_substring (kw s : string) : Prop :=
  ∃ pre mid post : string,
    s = pre +:+ mid +:+ post ∧ PyStr.lower mid = PyStr.lower kw.

Definition rule : Type := (list string * string)%type.

Definition doc_type_table : list rule :=
  [ (["account"; "product"], "account_info");
    (["fee"; "charge"], "fees");
    (["loan"; "mortgage"], "loans");
    (["security"; "fraud"], "security");
    (["service"; "support"], "customer_service") ].

Definition hits (r : rule) (s : string) : Prop :=
  ∃ kw, kw ∈ r.1 ∧ ci_substring kw s.

Inductive first_match_wins : list rule → string → string → Prop :=
| fm_default s :
    first_match_wins [] s "general"
| fm_hit r rest s :
    hits r s → first_match_wins (r :: rest) s r.2
| fm_miss r rest s cat :
    ¬ hits r s → first_match_wins rest s cat →
    first_match_wins (r :: rest) s cat.

(** the keywords of the table are written in lower case *)
Definition lower_case (kw : string) : Prop := PyStr.lower kw = kw.

(** the table, run as the chain of conditionals does *)
Fixpoint classify (table : list rule) (s : string) : string :=
  match table with
  | [] => "general"
  | r :: rest =>
      if existsb (λ kw, PyStr.contains kw (PyStr.lower s)) r.1
      then r.2 else classify rest s
  end.

End CategorySpec.

(** ** Documents, statistics, exceptions, log *)

(** [langchain.schema.Document] as a value: its text and its metadata
    dictionary. *)
Record Document : Type := mkDocument {
  page_content : string;
  metadata : gmap string value
}.

(** [len(chunk.page_content)] *)
Definition content_len (d : Document) : Z := Z.of_nat (String.length (page_content d)).

#[global] Instance value_countable : Countable value.
Proof.
  refine (inj_countable'
            (λ v, match v with VStr s => inl s | VInt n => inr n end)
            (λ x, match x with inl s => VStr s | inr n => VInt n end) _).
  by intros [].
Defined.

(** Python's [float]: an IEEE 754 binary64 number, with the operations
    of the Standard Library's specification of floating-point
    arithmetic (precision 53, infinities at exponent 1024). *)
Module PyFloat.

Definition float : Type := SpecFloat.spec_float.

(** [0.0] *)
Definition zero : float := SpecFloat.S754_zero false.

(** an int as the numerator or denominator of a division, exact *)
Definition of_int (n : Z) : float :=
  match n with
  | Z0 => SpecFloat.S754_zero false
  | Zpos p => SpecFloat.S754_finite false p 0
  | Zneg p => SpecFloat.S754_finite true p 0
  end.

(** [a / b] on two ints: the exact quotient rounded once to the nearest
    float, ties to even.  Python raises ZeroDivisionError for [b = 0] and
    OverflowError for a quotient of 2^1024 or more; the one division of
    the program is guarded against the first, and the second needs a
    string of more than 2^1023 characters, which Python has not. *)
Definition truediv (a b : Z) : float :=
  SpecFloat.SFdiv 53 1024 (of_int a) (of_int b).

End PyFloat.

(** [ProcessingStats].  The keys of [document_types] are whatever was
    read from a chunk's metadata. *)
Record ProcessingStats : Type := mkStats {
  total_documents : Z;
  total_chunks : Z;
  avg_chunk_size : PyFloat.float;
  document_types : gmap value Z
}.

(** [ProcessingStats()] *)
Definition ProcessingStats_new : ProcessingStats := mkStats 0 0 PyFloat.zero ∅.

Inductive exn : Type :=
| FileNotFoundError (directory : Path)
| IndexError
| KeyError (key : string)
| ValueError (msg : string)
| LibraryError (msg : string).

Inductive level : Type := INFO | WARNING | ERROR.

(** One record per [logger] call of the module; the payload is what the
    f-string interpolates. *)
Inductive event : Type :=
| Initialized (chunk_size chunk_overlap : Z)
| UnsupportedFileType (extension : string)
| Loaded (pages : nat) (name : string)
| ErrorLoading (name : string) (e : exn)
| SplitInto (documents chunks : nat)
| Found (files : nat)
| Processed (name : string) (chunks : nat)
| FailedToProcess (name : string) (e : exn)
| ProcessingComplete (chunks documents : Z).

Definition level_of (ev : event) : level :=
  match ev with
  | UnsupportedFileType _ => WARNING
  | ErrorLoading _ _ | FailedToProcess _ _ => ERROR
  | _ => INFO
  end.

(** ** Metadata enrichment *)

(** the dictionary literal passed to [chunk.metadata.update]; [size] is
    [len(chunk.page_content)] *)
Definition enrichment (source_file : Path) (doc_type : string)
    (i total : nat) (size : Z) : gmap string value :=
  <["source" := VStr (PyPath.str source_file)]>
  (<["filename" := VStr (PyPath.name source_file)]>
  (<["doc_type" := VStr doc_type]>
  (<["chunk_index" := VInt (Z.of_nat i)]>
  (<["total_chunks" := VInt (Z.of_nat total)]>
  (<["chunk_size" := VInt size]> ∅))))).

Definition enrichment_keys : list string :=
  ["source"; "filename"; "doc_type"; "chunk_index"; "total_chunks"; "chunk_size"].

(** [DocumentProcessor.enrich_metadata] ([self] is not used by the
    method) on chunks that share nothing: every chunk gets the update of
    its own position. *)
Definition enrich_metadata (chunks : list Document) (source_file : Path)
  : list Document :=
  let doc_type := _infer_document_type (PyPath.name source_file) in
  imap (λ i chunk,
          mkDocument (page_content chunk)
            (enrichment source_file doc_type i (length chunks) (content_len chunk)
               ∪ metadata chunk))
       chunks.

(** The same method on a store.  A [Document] object holds its text and
    the address of its metadata dictionary; the loop updates the
    dictionaries in place, so two chunks that share a dictionary see each
    other's update. *)
Module Heap.

Definition loc : Type := positive.

Record DocumentRef : Type := mkRef {
  ref_content : string;
  ref_metadata : loc
}.

Abbreviation store := (gmap loc (gmap string value)).

(** [d.update(new)] for the dictionary at address [l] *)
Definition dict_update (l : loc) (new : gmap string value) (σ : store) : store :=
  <[l := new ∪ default ∅ (σ !! l)]> σ.

(** the literal written for [chunk] at position [i] *)
Definition fields (source_file : Path) (doc_type : string) (total i : nat)
    (chunk : DocumentRef) : gmap string value :=
  enrichment source_file doc_type i total
    (Z.of_nat (String.length (ref_content chunk))).

(** [for i, chunk in enumerate(chunks): chunk.metadata.update({...})],
    from index [i] on *)
Fixpoint enrich_loop (source_file : Path) (doc_type : string) (total i : nat)
    (chunks : list DocumentRef) (σ : store) : store :=
  match chunks with
  | [] => σ
  | chunk :: rest =>
      enrich_loop source_file doc_type total (S i) rest
        (dict_update (ref_metadata chunk)
           (fields source_file doc_type total i chunk) σ)
  end.

(** what the loop writes last at an address: the literal of the last
    chunk of the list whose dictionary lives there *)
Fixpoint last_write (source_file : Path) (doc_type : string) (total i : nat)
    (chunks : list DocumentRef) (l : loc) : option (gmap string value) :=
  match chunks with
  | [] => None
  | chunk :: rest =>
      match last_write source_file doc_type total (S i) rest l with
      | Some e => Some e
      | None =>
          if decide (ref_metadata chunk = l)
          then Some (fields source_file doc_type total i chunk)
          else None
      end
  end.

(** [enrich_metadata]: returns the list it was given, and the store
    after the loop *)
Definition enrich_metadata (chunks : list DocumentRef) (source_file : Path)
    (σ : store) : list DocumentRef * store :=
  let doc_type := _infer_document_type (PyPath.name source_file) in
  (chunks, enrich_loop source_file doc_type (length chunks) 0 chunks σ).

(** the chunk as a value, read from the store *)
Definition deref (σ : store) (r : DocumentRef) : Document :=
  mkDocument (ref_content r) (default ∅ (σ !! ref_metadata r)).

End Heap.

(** ** Collaborators

    The loaders ([Docx2txtLoader], [PyPDFLoader], [TextLoader]), the text
    splitter ([RecursiveCharacterTextSplitter]) and the file system are
    not part of the module.  A call into any of them either returns or
    raises.  The splitter hands back fresh [Document] objects, one per
    chunk, so chunks are values here; the in-place update of their
    metadata is studied on a store in [Module Heap]. *)

Inductive loader_kind : Type := Docx2txtLoader | PyPDFLoader | TextLoader.

Class Externals : Type := {
  (** the splitter object *)
  TextSplitter : Type;
  (** [RecursiveCharacterTextSplitter(chunk_size=, chunk_overlap=,
      length_function=len, separators=)] *)
  new_splitter : Z → Z → list string → exn + TextSplitter;
  (** [splitter.split_documents(documents)] *)
  split_documents : TextSplitter → list Document → exn + list Document;
  (** [Loader(str(file_path)).load()] *)
  loader_load : loader_kind → string → exn + list Document;
  (** [directory.exists()] *)
  path_exists : Path → bool;
  (** the entry names of a directory, in scan order *)
  scandir : Path → list string
}.

(** ** State and exceptions

    The state a run of [process_directory] works on: the log and the two
    mutable locals [all_chunks] and [stats].  A computation returns a
    value or raises, and in both cases leaves a state behind. *)

Record state : Type := mkState {
  log : list event;
  all_chunks : list Document;
  stats : ProcessingStats
}.

Definition M (A : Type) : Type := state → (exn + A) * state.

#[global] Instance M_ret : MRet M := λ A a st, (inr a, st).
#[global] Instance M_bind : MBind M := λ A B f m st,
  match m st with
  | (inl e, st') => (inl e, st')
  | (inr a, st') => f a st'
  end.

Definition raise {A : Type} (e : exn) : M A := λ st, (inl e, st).

(** [try: body  except Exception as e: handler(e)] *)
Definition try_except {A : Type} (body : M A) (handler : exn → M A) : M A :=
  λ st, match body st with
        | (inl e, st') => handler e st'
        | (inr a, st') => (inr a, st')
        end.

(** a call into a collaborator *)
Definition call {A : Type} (r : exn + A) : M A :=
  match r with inl e => raise e | inr a => mret a end.

Definition logger (ev : event) : M unit :=
  λ st, (inr tt, mkState (log st ++ [ev]) (all_chunks st) (stats st)).

Definition get_all_chunks : M (list Document) := λ st, (inr (all_chunks st), st).
Definition get_stats : M ProcessingStats := λ st, (inr (stats st), st).
Definition set_all_chunks (cs : list Document) : M unit :=
  λ st, (inr tt, mkState (log st) cs (stats st)).
Definition set_stats (s : ProcessingStats) : M unit :=
  λ st, (inr tt, mkState (log st) (all_chunks st) s).

(** [for x in xs: body(x)] *)
Fixpoint for_each {A : Type} (xs : list A) (body : A → M unit) : M unit :=
  match xs with
  | [] => mret tt
  | x :: rest => body x ;; for_each rest body
  end.

(** ** [DocumentProcessor] *)

Record DocumentProcessor {Ext : Externals} : Type := mkProcessor {
  chunk_size : Z;
  chunk_overlap : Z;
  text_splitter : TextSplitter
}.

Definition separators : list string :=
  [String "010" (String "010" ""); String "010" ""; ". "; " "; ""].

Section Processor.
Context {Ext : Externals}.

(** [DocumentProcessor.__init__] *)
Definition __init__ (chunk_size chunk_overlap : Z) : M DocumentProcessor :=
  text_splitter ← call (new_splitter chunk_size chunk_overlap separators);
  logger (Initialized chunk_size chunk_overlap);;
  mret (mkProcessor _ chunk_size chunk_overlap text_splitter).

Definition choose_loader (extension : string) : option loader_kind :=
  if String.eqb extension ".docx" then Some Docx2txtLoader
  else if String.eqb extension ".pdf" then Some PyPDFLoader
  else if String.eqb extension ".txt" then Some TextLoader
  else None.

(** [DocumentProcessor.load_document] *)
Definition load_document (self : DocumentProcessor) (file_path : Path)
  : M (list Document) :=
  let extension := PyStr.lower (PyPath.suffix file_path) in
  try_except
    (match choose_loader extension with
     | None =>
         logger (UnsupportedFileType extension);;
         mret []
     | Some loader =>
         documents ← call (loader_load loader (PyPath.str file_path));
         logger (Loaded (length documents) (PyPath.name file_path));;
         mret documents
     end)
    (λ e,
       logger (ErrorLoading (PyPath.name file_path) e);;
       mret []).

(** [DocumentProcessor.chunk_documents] *)
Definition chunk_documents (self : DocumentProcessor) (documents : list Document)
  : M (list Document) :=
  chunks ← call (split_documents (text_splitter self) documents);
  logger (SplitInto (length documents) (length chunks));;
  mret chunks.

(** [directory.glob('*' + ext)]: the entries whose name ends in [ext]
    (letter case matters on the POSIX flavour), as paths below the
    directory. *)
Definition glob_suffix (directory : Path) (ext : string) : list Path :=
  PyPath.child directory <$> filter (λ n, PyStr.endswith ext n = true) (scandir directory).

Definition supported_extensions : list string := [".docx"; ".pdf"; ".txt"].

Definition scan (directory : Path) : list Path :=
  supported_extensions ≫= glob_suffix directory.

(** the statements of the loop body between the two [logger] calls *)
Definition process_file (self : DocumentProcessor) (file_path : Path) : M unit :=
  try_except
    (documents ← load_document self file_path;
     match documents with
     | [] => mret tt
     | _ :: _ =>
         chunks ← chunk_documents self documents;
         let chunks := enrich_metadata chunks file_path in
         acc ← get_all_chunks;
         set_all_chunks (acc ++ chunks);;
         s ← get_stats;
         set_stats (mkStats (total_documents s + 1) (total_chunks s)
                      (avg_chunk_size s) (document_types s));;
         s ← get_stats;
         set_stats (mkStats (total_documents s)
                      (total_chunks s + Z.of_nat (length chunks))
                      (avg_chunk_size s) (document_types s));;
         first ← match chunks with
                 | [] => raise IndexError
                 | c :: _ => mret c
                 end;
         doc_type ← match metadata first !! "doc_type" with
                    | None => raise (KeyError "doc_type")
                    | Some v => mret v
                    end;
         s ← get_stats;
         set_stats (mkStats (total_documents s) (total_chunks s)
                      (avg_chunk_size s)
                      (<[doc_type := default 0 (document_types s !! doc_type) + 1]>
                         (document_types s)));;
         logger (Processed (PyPath.name file_path) (length chunks))
     end)
    (λ e, logger (FailedToProcess (PyPath.name file_path) e)).

(** [sum(len(chunk.page_content) for chunk in all_chunks) / len(all_chunks)] *)
Definition total_len (chunks : list Document) : Z :=
  foldr (λ c acc, content_len c + acc) 0 chunks.

Definition average (chunks : list Document) : PyFloat.float :=
  PyFloat.truediv (total_len chunks) (Z.of_nat (length chunks)).

(** the body of [process_directory] once the files are listed *)
Definition process_files (self : DocumentProcessor) (files : list Path)
  : M (list Document * ProcessingStats) :=
  set_all_chunks [];;
  set_stats ProcessingStats_new;;
  logger (Found (length files));;
  for_each files (process_file self);;
  acc ← get_all_chunks;
  (match acc with
   | [] => mret tt
   | _ :: _ =>
       s ← get_stats;
       set_stats (mkStats (total_documents s) (total_chunks s)
                    (average acc) (document_types s))
   end);;
  s ← get_stats;
  logger (ProcessingComplete (total_chunks s) (total_documents s));;
  acc ← get_all_chunks;
  s ← get_stats;
  mret (acc, s).

(** [DocumentProcessor.process_directory] *)
Definition process_directory (self : DocumentProcessor) (directory : Path)
  : M (list Document * ProcessingStats) :=
  if negb (path_exists directory)
  then raise (FileNotFoundError directory)
  else process_files self (scan directory).

(** *** The loop body as a function

    What one iteration does to the log, to [all_chunks] and to [stats],
    written without the monad; [process_file_run] below shows it is what
    [process_file] computes. *)

Definition add_log (evs : list event) (st : state) : state :=
  mkState (log st ++ evs) (all_chunks st) (stats st).

(** the documents [load_document] returns and the record it logs *)
Definition load_outcome (file_path : Path) : list Document * list event :=
  let extension := PyStr.lower (PyPath.suffix file_path) in
  match choose_loader extension with
  | None => ([], [UnsupportedFileType extension])
  | Some loader =>
      match loader_load loader (PyPath.str file_path) with
      | inr documents =>
          (documents, [Loaded (length documents) (PyPath.name file_path)])
      | inl e => ([], [ErrorLoading (PyPath.name file_path) e])
      end
  end.

Definition count_file (chunks : list Document) (s : ProcessingStats)
  : ProcessingStats :=
  mkStats (total_documents s + 1) (total_chunks s + Z.of_nat (length chunks))
    (avg_chunk_size s) (document_types s).

Definition count_type (doc_type : value) (s : ProcessingStats) : ProcessingStats :=
  mkStats (total_documents s) (total_chunks s) (avg_chunk_size s)
    (<[doc_type := default 0 (document_types s !! doc_type) + 1]> (document_types s)).

Definition file_step (self : DocumentProcessor) (file_path : Path)
    (acc : list Document) (s : ProcessingStats)
  : list event * list Document * ProcessingStats :=
  let name := PyPath.name file_path in
  let (documents, evs) := load_outcome file_path in
  match documents with
  | [] => (evs, acc, s)
  | _ :: _ =>
      match split_documents (text_splitter self) documents with
      | inl e => ((evs ++ [FailedToProcess name e])%list, acc, s)
      | inr raw =>
          let chunks := enrich_metadata raw file_path in
          let split := SplitInto (length documents) (length raw) in
          match chunks with
          | [] =>
              ((evs ++ [split; FailedToProcess name IndexError])%list,
               (acc ++ chunks)%list, count_file chunks s)
          | first :: _ =>
              match metadata first !! "doc_type" with
              | None =>
                  ((evs ++ [split; FailedToProcess name (KeyError "doc_type")])%list,
                   (acc ++ chunks)%list, count_file chunks s)
              | Some doc_type =>
                  ((evs ++ [split; Processed name (length chunks)])%list,
                   (acc ++ chunks)%list, count_type doc_type (count_file chunks s))
              end
          end
      end
  end.

(** one more document counted, nothing else *)
Definition bump (s : ProcessingStats) : ProcessingStats :=
  mkStats (total_documents s + 1) (total_chunks s) (avg_chunk_size s)
    (document_types s).

(** the loop over the files *)
Fixpoint batch (self : DocumentProcessor) (files : list Path)
    (acc : list Document) (s : ProcessingStats)
  : list event * list Document * ProcessingStats :=
  match files with
  | [] => ([], acc, s)
  | file_path :: rest =>
      let '(evs1, acc1, s1) := file_step self file_path acc s in
      let '(evs2, acc2, s2) := batch self rest acc1 s1 in
      ((evs1 ++ evs2)%list, acc2, s2)
  end.

(** the average is set when there is a chunk to average over *)
Definition finalize (acc : list Document) (s : ProcessingStats) : ProcessingStats :=
  match acc with
  | [] => s
  | _ :: _ => mkStats (total_documents s) (total_chunks s) (average acc)
                (document_types s)
  end.

(** the ways a document fails in the sense of the batch: its loader
    raises, or the splitter raises on what was loaded *)
Definition fails_to_load (file_path : Path) : Prop :=
  ∃ loader e,
    choose_loader (PyStr.lower (PyPath.suffix file_path)) = Some loader
    ∧ loader_load loader (PyPath.str file_path) = inl e.

Definition fails_to_segment (self : DocumentProcessor) (file_path : Path) : Prop :=
  ∃ loader documents e,
    choose_loader (PyStr.lower (PyPath.suffix file_path)) = Some loader
    ∧ loader_load loader (PyPath.str file_path) = inr documents
    ∧ documents ≠ []
    ∧ split_documents (text_splitter self) documents = inl e.

(** the load gives documents and the splitter gives no chunk for them *)
Definition chunks_to_nothing (self : DocumentProcessor) (file_path : Path) : Prop :=
  ∃ loader documents,
    choose_loader (PyStr.lower (PyPath.suffix file_path)) = Some loader
    ∧ loader_load loader (PyPath.str file_path) = inr documents
    ∧ documents ≠ []
    ∧ split_documents (text_splitter self) documents = inr [].

End Processor.

(** ** The segmentation step

    [chunk_documents] hands the documents to the text splitter, whose code
    is a dependency of the repository and not among its sources.  This
    module follows sections 4.1 to 4.3 of the specification. *)

Module SpecSplitter.

(** [s[n:]] *)
Fixpoint str_drop (n : nat) (s : string) : string :=
  match n, s with
  | O, _ => s
  | S _, EmptyString => EmptyString
  | S n', String _ s' => str_drop n' s'
  end.

(** the last [k] characters of [s] (all of [s] when it is shorter) *)
Definition tail_chars (k : nat) (s : string) : string :=
  str_drop (String.length s - k) s.

(** the characters of [s], each as a string *)
Fixpoint chars (s : string) : list string :=
  match s with
  | EmptyString => []
  | String c s' => String c EmptyString :: chars s'
  end.

(** splitting by a non-empty separator, the separator staying at the
    end of the segment it closes; [cur] is the segment being read *)
Fixpoint split_keep_go (fuel : nat) (sep cur text : string) : list string :=
  match fuel with
  | O => [cur +:+ text]
  | S fuel' =>
      match text with
      | EmptyString => [cur]
      | String c text' =>
          if PyStr.startswith sep text
          then (cur +:+ sep) :: split_keep_go fuel' sep "" (str_drop (String.length sep) text)
          else split_keep_go fuel' sep (cur +:+ String c "") text'
      end
  end.

(** Modelled from the spec: step 1 of the Recursive Segmenter (4.2),
    missing with the splitter: "If [s] is non-empty, split [text] into
    raw segments by [s], re-attaching [s] to the end of each segment
    except the last.  If [s] is empty, segments are individual
    characters." *)
Definition raw_segments (sep text : string) : list string :=
  if String.eqb sep "" then chars text
  else split_keep_go (String.length text) sep "" text.

Definition fits (bound : Z) (s : string) : bool :=
  Z.of_nat (String.length s) <=? bound.

(** the closed chunks, in order, and the growing buffer *)
Definition packing : Type := (list string * string)%type.

(** closing the buffer; an empty buffer is no chunk *)
Definition flush (out : list string) (buf : string) : list string :=
  if String.eqb buf "" then out else out ++ [buf].

(** Modelled from the spec: how a sub-chunk of 4.2 step 2 joins the
    buffer, missing with the splitter: "each resulting sub-chunk is
    appended individually (they may join with surrounding buffered
    content per the same packing rule)".  A sub-chunk is appended while
    "appending [...] would keep the buffer length ≤ bound"; otherwise
    "the buffer is closed as one output chunk and a new buffer starts
    with" it.  It is a product of separators[1:] already and is not
    segmented a second time. *)
Definition place (bound : Z) (st : packing) (piece : string) : packing :=
  let (out, buf) := st in
  if fits bound (buf +:+ piece) then (out, buf +:+ piece)
  else (flush out buf, piece).

(** Modelled from the spec: 4.2 step 2 for a raw segment, missing with
    the splitter, in the words of the step: "while appending the next
    segment would keep the buffer length ≤ bound, append it; if
    appending would overflow and the buffer already contains content,
    the buffer is closed as one output chunk and a new buffer starts
    with the pending segment, else (buffer empty, i.e. a single segment
    alone exceeds bound) the oversized segment is recursively segmented
    using separators[1:]" ([sub]) "and each resulting sub-chunk is
    appended individually".  A pending segment that starts a new buffer
    is not looked at again, whatever its length. *)
Definition pack_step (bound : Z) (sub : string → list string)
    (st : packing) (seg : string) : packing :=
  let (out, buf) := st in
  if fits bound (buf +:+ seg) then (out, buf +:+ seg)
  else if String.eqb buf "" then foldl (place bound) (out, "") (sub seg)
  else ((out ++ [buf])%list, seg).

Definition pack (bound : Z) (sub : string → list string)
    (segments : list string) : list string :=
  let (out, buf) := foldl (pack_step bound sub) ([], "") segments in
  flush out buf.

(** Modelled from the spec: [segment(text, bound, separators)] of 4.2,
    missing with the splitter.  With the hierarchy exhausted the text is
    an atomic unit and "is always emitted as-is"; "empty input text →
    empty output sequence". *)
Fixpoint segment (bound : Z) (separators : list string) (text : string)
  : list string :=
  match separators with
  | [] => if String.eqb text "" then [] else [text]
  | s :: rest => pack bound (segment bound rest) (raw_segments s text)
  end.

(** Modelled from the spec: the Overlap Window Manager (4.3), missing
    with the splitter: chunk i+1 "is prefixed with up to [overlap]
    characters taken from the tail of chunk i's original (pre-overlap)
    content, without re-growing chunk i+1 past [bound]; if adding the
    full overlap would exceed [bound], truncate the overlap from the
    front". *)
Definition overlap_prefix (bound overlap : Z) (prev cur : string) : string :=
  tail_chars (Z.to_nat (Z.min overlap (bound - Z.of_nat (String.length cur)))) prev.

Fixpoint overlap_from (bound overlap : Z) (prev : string) (rest : list string)
  : list string :=
  match rest with
  | [] => []
  | cur :: rest' =>
      (overlap_prefix bound overlap prev cur +:+ cur)
        :: overlap_from bound overlap cur rest'
  end.

(** "The first chunk of a document receives no leading overlap." *)
Definition apply_overlap (bound overlap : Z) (chunks : list string) : list string :=
  match chunks with
  | [] => []
  | first :: rest => first :: overlap_from bound overlap first rest
  end.

(** Modelled from the spec: 4.5, "for each document: run 4.2 → 4.3",
    with the separator hierarchy of 4.1; every chunk carries a copy of
    its document's metadata. *)
Definition split_text (bound overlap : Z) (text : string) : list string :=
  apply_overlap bound overlap (segment bound separators text).

Definition split_document (bound overlap : Z) (d : Document) : list Document :=
  (λ t, mkDocument t (metadata d)) <$> split_text bound overlap (page_content d).

Definition split_all (bound overlap : Z) (documents : list Document)
  : list Document :=
  documents ≫= split_document bound overlap.

(** the chunks read one after the other *)
Definition cat (l : list string) : string := foldr String.append "" l.




(** the length of the longest text that both ends [a] and starts [b] *)
Fixpoint shared_span (a b : string) : nat :=
  if PyStr.startswith a b then String.length a
  else match a with
       | EmptyString => O
       | String _ a' => shared_span a' b
       end.


(** what has been read so far *)
Definition read (st : packing) : string := cat st.1 +:+ st.2.


(** The argument check of the splitter's constructor as the library
    that the module imports ships it: a ValueError for a chunk_size of 0
    or less, for a negative chunk_overlap and for a chunk_overlap above
    chunk_size.  It is the dependency's check, written from the library:
    the module has none of its own. *)
Definition argument_check (size overlap : Z) : option exn :=
  if size <=? 0 then Some (ValueError "chunk_size must be > 0")
  else if overlap <? 0 then Some (ValueError "chunk_overlap must be >= 0")
  else if overlap >? size then Some (ValueError "larger chunk overlap than chunk size")
  else None.

(** The collaborators with this splitter.  [check] is the argument
    check of the splitter's constructor, [load] the loaders, and the
    directory listing is [ls]. *)
Definition externals (check : Z → Z → option exn)
    (load : loader_kind → string → exn + list Document)
    (exists_ : Path → bool) (ls : Path → list string) : Externals :=
  {| TextSplitter := (Z * Z)%type;
     new_splitter := λ size overlap _,
       match check size overlap with
       | Some e => inl e
       | None => inr (size, overlap)
       end;
     split_documents := λ sp documents, inr (split_all sp.1 sp.2 documents);
     loader_load := load;
     path_exists := exists_;
     scandir := ls |}.

End SpecSplitter.

(** ** Sample inputs *)

Module Sample.

Definition two_chunks : list Heap.DocumentRef :=
  [Heap.mkRef "Premium Savings" 1%positive; Heap.mkRef "3.2% APY" 2%positive].

Definition fees_txt : Path := mkPath false ["docs"; "fees.txt"].

(** A file system with three directories, loaders that fail on one file
    and read another as empty text, and the splitter of [SpecSplitter]
    behind a constructor that checks its arguments as the library's does:
    a positive chunk_size, and a chunk_overlap between 0 and chunk_size. *)

Definition docs_dir : Path := mkPath false ["data"; "sample_banking_docs"].
Definition drafts_dir : Path := mkPath false ["data"; "drafts"].
Definition inbox_dir : Path := mkPath false ["data"; "inbox"].

Definition ls (p : Path) : list string :=
  if decide (p = docs_dir)
  then ["account_types.txt"; "fee_schedule.txt"; "security_policy.txt"]
  else if decide (p = drafts_dir) then ["notes.txt"; "empty.txt"]
  else if decide (p = inbox_dir) then ["NOTES.TXT"; "readme.md"]
  else [].

Definition exists_ (p : Path) : bool :=
  bool_decide (p ∈ [docs_dir; drafts_dir; inbox_dir]).

Definition load (kind : loader_kind) (path : string) : exn + list Document :=
  if String.eqb path "data/sample_banking_docs/fee_schedule.txt"
  then inl (LibraryError "cannot decode")
  else if String.eqb path "data/drafts/empty.txt"
  then inr [mkDocument "" {["source" := VStr path]}]
  else inr [mkDocument "Premium Savings offers 3.2% APY on balances over $10,000."
              {["source" := VStr path]}].

(** the argument check of the splitter's constructor, as the library the
    module imports ships it; it is the dependency's, not the module's *)
Definition splitter_check (size overlap : Z) : option exn :=
  SpecSplitter.argument_check size overlap.

Definition env : Externals := SpecSplitter.externals splitter_check load exists_ ls.

Definition processor : @DocumentProcessor env := @mkProcessor env 1000 200 (1000, 200).

Definition st0 : state := mkState [] [] ProcessingStats_new.

Definition small_processor : @DocumentProcessor env := @mkProcessor env 10 3 (10, 3).

Definition greeting : Document := mkDocument "hello world. this is a test" ∅.

Definition account_types : Path := PyPath.child docs_dir "account_types.txt".
Definition fee_schedule : Path := PyPath.child docs_dir "fee_schedule.txt".
Definition security_policy : Path := PyPath.child docs_dir "security_policy.txt".
Definition notes_file : Path := PyPath.child drafts_dir "notes.txt".
Definition empty_file : Path := PyPath.child drafts_dir "empty.txt".

End Sample.

(** ** What a batch adds, file by file *)

Section ProcessorMore.
Context {Ext : Externals}.

(** [process_banking_documents], on the directory as a path *)
Definition process_banking_documents (docs_dir : Path)
  : M (list Document * ProcessingStats) :=
  processor ← __init__ 1000 200;
  process_directory processor docs_dir.

(** the chunks one file adds to [all_chunks] *)
Definition file_chunks (self : DocumentProcessor) (file_path : Path) : list Document :=
  match (load_outcome file_path).1 with
  | [] => []
  | d :: documents =>
      match split_documents (text_splitter self) (d :: documents) with
      | inl _ => []
      | inr raw => enrich_metadata raw file_path
      end
  end.

(** the file reaches [stats.total_documents += 1] *)
Definition counted (self : DocumentProcessor) (file_path : Path) : bool :=
  match (load_outcome file_path).1 with
  | [] => false
  | d :: documents =>
      match split_documents (text_splitter self) (d :: documents) with
      | inl _ => false
      | inr _ => true
      end
  end.

(** the files of a list that add one to [document_types[k]] *)
Definition typed (self : DocumentProcessor) (k : value) (files : list Path) : list Path :=
  filter (λ f, file_chunks self f ≠ [] ∧ VStr (_infer_document_type (PyPath.name f)) = k)
    files.

Definition categories : list string :=
  ["account_info"; "fees"; "loans"; "security"; "customer_service"; "general"].

End ProcessorMore.

(** ** More of Python's strings *)

Module PyText.

Definition nl : string := String "010" "".

Definition is_lower (c : ascii) : bool :=
  let n := nat_of_ascii c in (97 <=? n)%nat && (n <=? 122)%nat.

Definition upper_char (c : ascii) : ascii :=
  if is_lower c then ascii_of_nat (nat_of_ascii c - 32) else c.

(** [s.upper()], on the letters a-z *)
Fixpoint upper (s : string) : string :=
  match s with
  | EmptyString => EmptyString
  | String c s' => String (upper_char c) (upper s')
  end.

(** [s.capitalize()]: the first character in upper case, the rest in
    lower case *)
Definition capitalize (s : string) : string :=
  match s with
  | EmptyString => EmptyString
  | String c s' => String (upper_char c) (PyStr.lower s')
  end.

(** [c.isspace()] on the characters of code 0 to 255: tab to carriage
    return, the four separators 28 to 31, the space, the next-line
    control 133 and the no-break space 160 *)
Definition is_space (c : ascii) : bool :=
  let n := nat_of_ascii c in
  ((9 <=? n)%nat && (n <=? 13)%nat) || ((28 <=? n)%nat && (n <=? 32)%nat)
  || (n =? 133)%nat || (n =? 160)%nat.

(** [s.lstrip()] *)
Fixpoint lstrip (s : string) : string :=
  match s with
  | EmptyString => EmptyString
  | String c s' => if is_space c then lstrip s' else s
  end.

(** [s.rstrip()] *)
Fixpoint rstrip (s : string) : string :=
  match s with
  | EmptyString => EmptyString
  | String c s' =>
      match rstrip s' with
      | EmptyString => if is_space c then EmptyString else String c EmptyString
      | String c' r => String c (String c' r)
      end
  end.

(** [s.strip()] *)
Definition strip (s : string) : string := rstrip (lstrip s).

(** [s[:n]] *)
Definition take (n : nat) (s : string) : string := substring 0 n s.

(** nothing but white space *)
Definition blank (s : string) : Prop := lstrip s = "".

End PyText.

(** [str(e)] *)
Definition exn_str (e : exn) : string :=
  match e with
  | FileNotFoundError directory => "Directory not found: " +:+ PyPath.str directory
  | IndexError => "list index out of range"
  | KeyError key => "'" +:+ key +:+ "'"
  | ValueError msg => msg
  | LibraryError msg => msg
  end.

(** ** Configuration: [src/utils/config.py] *)

Module ModelConfig.
Record t : Type := mk {
  max_tokens : Z;
  temperature : Q;
  top_p : Q
}.
End ModelConfig.

Module GeminiConfig.
Record t : Type := mk {
  api_key : string;
  model : string
}.

Definition placeholder : string := "your_gemini_api_key_here".

(** [GeminiConfig.validate_api_key] *)
Definition validate_api_key (v : string) : exn + string :=
  if String.eqb v placeholder
  then inl (ValueError
              ("Please set your real Gemini API key in .env file!" +:+ PyText.nl
               +:+ "Get it from: https://makersuite.google.com/app/apikey"))
  else if String.eqb (PyText.strip v) ""
  then inl (ValueError "API key cannot be empty")
  else inr (PyText.strip v).
End GeminiConfig.

Module AppConfig.
Record t : Type := mk {
  environment : string;
  bank_name : string;
  gemini : GeminiConfig.t;
  model : ModelConfig.t
}.

(** [AppConfig.is_development], [AppConfig.is_production] *)
Definition is_development (self : t) : bool := String.eqb (environment self) "development".
Definition is_production (self : t) : bool := String.eqb (environment self) "production".
End AppConfig.

(** ** The Gemini client: [src/llm/gemini_client.py] *)

Module GeminiClient.

(** What the module calls in [google.generativeai].  The service has a
    state of its own, which also holds the chat sessions; every call
    may raise. *)
Class GenAI : Type := {
  service : Type;
  GenerativeModel : Type;
  GenerationConfig : Type;
  ChatSession : Type;
  Response : Type;
  (** [genai.configure(api_key=...)] *)
  configure : string → service → (exn + unit) * service;
  (** [genai.GenerativeModel(model_name=...)] *)
  new_model : string → service → (exn + GenerativeModel) * service;
  (** [genai.GenerationConfig(temperature, max_output_tokens, top_p)] *)
  new_generation_config : Q → Z → Q → exn + GenerationConfig;
  (** [model.generate_content(prompt, generation_config=...)] *)
  generate_content :
    GenerativeModel → string → GenerationConfig → service → (exn + Response) * service;
  (** [model.start_chat(history=[])] *)
  start_chat : GenerativeModel → service → (exn + ChatSession) * service;
  (** [chat.send_message(content)], with or without a generation_config *)
  send_message :
    ChatSession → string → option GenerationConfig → service → (exn + Response) * service;
  (** [response.text] *)
  text : Response → exn + string
}.

Inductive level : Type := DEBUG | INFO | WARNING | ERROR.

(** One record per [logger] call of [gemini_client.py], [base_agent.py]
    and [customer_support_agent.py]. *)
Inductive event : Type :=
| ClientInitialized (model : string)
| SendingRequest (prompt_length : nat)
| ReceivedResponse (length : nat)
| ErrorGenerating (e : string)
| ErrorInChat (e : string)
| ConnectionTestSuccess
| ConnectionTestUnexpected (response : string)
| ConnectionTestFailed (e : string)
| CreatedClient
| AgentInitialized (agent_name : string)
| ProcessingMessage (agent_name start : string)
| GeneratedResponse (agent_name : string) (chars : nat)
| ErrorProcessing (agent_name e : string)
| ClearedHistory (agent_name : string)
| SupportAgentInitialized (bank_name : string).

Definition level_of (ev : event) : level :=
  match ev with
  | SendingRequest _ => DEBUG
  | ConnectionTestUnexpected _ => WARNING
  | ErrorGenerating _ | ErrorInChat _ | ConnectionTestFailed _
  | ErrorProcessing _ _ => ERROR
  | _ => INFO
  end.

Record t {G : GenAI} : Type := mk {
  config : AppConfig.t;
  model : GenerativeModel
}.

(** A message of a conversation: a [dict] from strings to strings. *)
Definition message : Type := gmap string string.

(** The state the three modules work on: the log, the remote service,
    the module globals [config] (of [config.py], never assigned after
    import) and [_gemini_client], and the [conversation_history] of the
    agent. *)
Record world {G : GenAI} : Type := mkWorld {
  log : list event;
  remote : service;
  global_config : AppConfig.t;
  _gemini_client : option t;
  conversation_history : list message
}.

Section Client.
Context {G : GenAI}.

Definition W (A : Type) : Type := world → (exn + A) * world.

#[global] Instance W_ret : MRet W := λ A a w, (inr a, w).
#[global] Instance W_bind : MBind W := λ A B f m w,
  match m w with
  | (inl e, w') => (inl e, w')
  | (inr a, w') => f a w'
  end.

Definition raise {A : Type} (e : exn) : W A := λ w, (inl e, w).

(** [try: body  except Exception as e: handler(e)] *)
Definition try_except {A : Type} (body : W A) (handler : exn → W A) : W A :=
  λ w, match body w with
       | (inl e, w') => handler e w'
       | (inr a, w') => (inr a, w')
       end.

(** a call that does not touch the service *)
Definition call {A : Type} (r : exn + A) : W A :=
  match r with inl e => raise e | inr a => mret a end.

Definition set_remote (r : service) (w : world) : world :=
  mkWorld _ (log w) r (global_config w) (_gemini_client w) (conversation_history w).

(** a call into the service *)
Definition request {A : Type} (f : service → (exn + A) * service) : W A :=
  λ w, let '(r, s) := f (remote w) in (r, set_remote s w).

Definition add_log (evs : list event) (w : world) : world :=
  mkWorld _ (log w ++ evs)%list (remote w) (global_config w) (_gemini_client w)
    (conversation_history w).

Definition logger (ev : event) : W unit := λ w, (inr tt, add_log [ev] w).

(** [get_config()] of [config.py] *)
Definition get_config : W AppConfig.t := λ w, (inr (global_config w), w).

Definition set_client (c : option t) (w : world) : world :=
  mkWorld _ (log w) (remote w) (global_config w) c (conversation_history w).

Definition set_history (h : list message) (w : world) : world :=
  mkWorld _ (log w) (remote w) (global_config w) (_gemini_client w) h.

Definition get_history : W (list message) := λ w, (inr (conversation_history w), w).

(** [for x in xs: body(x)] *)
Fixpoint for_each {A : Type} (xs : list A) (body : A → W unit) : W unit :=
  match xs with
  | [] => mret tt
  | x :: rest => body x ;; for_each rest body
  end.

(** [d[key]] *)
Definition getitem (d : message) (key : string) : exn + string :=
  match d !! key with
  | Some v => inr v
  | None => inl (KeyError key)
  end.

(** [xs[-1]] *)
Definition last_item {A : Type} (xs : list A) : exn + A :=
  match last xs with
  | Some x => inr x
  | None => inl IndexError
  end.

(** [x or default] on a float and on an int: zero counts as absent *)
Definition or_float (x : option Q) (default : Q) : Q :=
  match x with
  | Some v => if (Qnum v =? 0)%Z then default else v
  | None => default
  end.

Definition or_int (x : option Z) (default : Z) : Z :=
  match x with
  | Some v => if (v =? 0)%Z then default else v
  | None => default
  end.

(** [GeminiClient.__init__] *)
Definition __init__ : W t :=
  config ← get_config;
  request (configure (GeminiConfig.api_key (AppConfig.gemini config)));;
  model ← request (new_model (GeminiConfig.model (AppConfig.gemini config)));
  logger (ClientInitialized (GeminiConfig.model (AppConfig.gemini config)));;
  mret (mk _ config model).

Definition apology : string :=
  "I apologize, but I'm experiencing technical difficulties. Please try again.".

Definition apology_with (e : exn) : string :=
  apology +:+ " (Error: " +:+ exn_str e +:+ ")".

Definition with_system_instruction (system_instruction : option string)
    (prompt : string) : string :=
  match system_instruction with
  | None | Some EmptyString => prompt
  | Some instruction =>
      instruction +:+ PyText.nl +:+ PyText.nl +:+ "User: " +:+ prompt
      +:+ PyText.nl +:+ PyText.nl +:+ "Assistant:"
  end.

(** [GeminiClient.generate_response] *)
Definition generate_response (self : t) (prompt : string)
    (temperature : option Q) (max_tokens : option Z)
    (system_instruction : option string) : W string :=
  let temperature :=
    or_float temperature (ModelConfig.temperature (AppConfig.model (config self))) in
  let max_tokens :=
    or_int max_tokens (ModelConfig.max_tokens (AppConfig.model (config self))) in
  try_except
    (generation_config ←
       call (new_generation_config temperature max_tokens
               (ModelConfig.top_p (AppConfig.model (config self))));
     let full_prompt := with_system_instruction system_instruction prompt in
     logger (SendingRequest (String.length prompt));;
     response ← request (generate_content (model self) full_prompt generation_config);
     response_text ← call (text response);
     logger (ReceivedResponse (String.length response_text));;
     mret response_text)
    (λ e,
      logger (ErrorGenerating (exn_str e));;
      mret (apology_with e)).

(** the body of the loop of [generate_with_history] *)
Definition replay (chat : ChatSession) (msg : message) : W unit :=
  role ← call (getitem msg "role");
  if String.eqb role "user"
  then content ← call (getitem msg "content");
       request (send_message chat content None);;
       mret tt
  else mret tt.

(** [GeminiClient.generate_with_history] *)
Definition generate_with_history (self : t) (messages : list message)
    (temperature : option Q) (max_tokens : option Z) : W string :=
  let temperature :=
    or_float temperature (ModelConfig.temperature (AppConfig.model (config self))) in
  let max_tokens :=
    or_int max_tokens (ModelConfig.max_tokens (AppConfig.model (config self))) in
  try_except
    (chat ← request (start_chat (model self));
     for_each (removelast messages) (replay chat);;
     generation_config ←
       call (new_generation_config temperature max_tokens
               (ModelConfig.top_p (AppConfig.model (config self))));
     final ← call (last_item messages);
     content ← call (getitem final "content");
     response ← request (send_message chat content (Some generation_config));
     call (text response))
    (λ e,
      logger (ErrorInChat (exn_str e));;
      mret apology).

(** what the loop of [generate_with_history] asks of the service: the
    content of each message of role user is sent, in order, with no
    generation config, and the loop stops at the first message without
    a role, message of role user without a content, or request that
    raises *)
Fixpoint replay_all (chat : ChatSession) (messages : list message) (r : service)
  : (exn + unit) * service :=
  match messages with
  | [] => (inr tt, r)
  | msg :: rest =>
      match getitem msg "role" with
      | inl e => (inl e, r)
      | inr role =>
          if String.eqb role "user"
          then match getitem msg "content" with
               | inl e => (inl e, r)
               | inr content =>
                   match send_message chat content None r with
                   | (inl e, r') => (inl e, r')
                   | (inr _, r') => replay_all chat rest r'
                   end
               end
          else replay_all chat rest r
      end
  end.

(** the [try] block of [generate_with_history] as an exchange with the
    service: the text of the response to the last message, or the
    exception raised on the way *)
Definition chat_outcome (self : t) (messages : list message)
    (temperature : option Q) (max_tokens : option Z) (r : service)
  : (exn + string) * service :=
  match start_chat (model self) r with
  | (inl e, r0) => (inl e, r0)
  | (inr chat, r0) =>
      match replay_all chat (removelast messages) r0 with
      | (inl e, r1) => (inl e, r1)
      | (inr _, r1) =>
          match new_generation_config
                  (or_float temperature
                     (ModelConfig.temperature (AppConfig.model (config self))))
                  (or_int max_tokens
                     (ModelConfig.max_tokens (AppConfig.model (config self))))
                  (ModelConfig.top_p (AppConfig.model (config self))) with
          | inl e => (inl e, r1)
          | inr generation_config =>
              match last_item messages with
              | inl e => (inl e, r1)
              | inr final =>
                  match getitem final "content" with
                  | inl e => (inl e, r1)
                  | inr content =>
                      match send_message chat content (Some generation_config) r1 with
                      | (inl e, r2) => (inl e, r2)
                      | (inr response, r2) => (text response, r2)
                      end
                  end
              end
          end
      end
  end.

Definition test_prompt : string := "Respond with OK if you can read this.".

(** [GeminiClient.test_connection] *)
Definition test_connection (self : t) : W bool :=
  try_except
    (response ← generate_response self test_prompt None (Some 10) None;
     let success :=
       PyStr.contains "OK" response || PyStr.contains "ok" (PyStr.lower response) in
     (if success
      then logger ConnectionTestSuccess
      else logger (ConnectionTestUnexpected response));;
     mret success)
    (λ e,
      logger (ConnectionTestFailed (exn_str e));;
      mret false).

(** [get_gemini_client] *)
Definition get_gemini_client : W t :=
  λ w, match _gemini_client w with
       | None =>
           (client ← __init__;
            (λ w', (inr tt, set_client (Some client) w'));;
            logger CreatedClient;;
            mret client) w
       | Some client => (inr client, w)
       end.

End Client.
End GeminiClient.

(** ** Agents: [src/agents/base_agent.py] *)

Module BaseAgent.
Import GeminiClient.

Record t {G : GenAI} : Type := mk {
  agent_name : string;
  agent_role : string;
  config : AppConfig.t;
  llm_client : GeminiClient.t;
  temperature : Q;
  max_tokens : Z
}.

(** The abstract class: a subclass has the fields of [BaseAgent] and its
    own [get_system_prompt], which computes a string from the agent's
    fields, or raises. *)
Class Agent {G : GenAI} (A : Type) : Type := {
  base : A → t;
  get_system_prompt : A → exn + string
}.

Section Base.
Context {G : GenAI}.

(** [BaseAgent.__init__] *)
Definition __init__ (agent_name agent_role : string)
    (temperature : option Q) (max_tokens : option Z) : W t :=
  config ← get_config;
  llm_client ← get_gemini_client;
  let temperature :=
    or_float temperature (ModelConfig.temperature (AppConfig.model config)) in
  let max_tokens :=
    or_int max_tokens (ModelConfig.max_tokens (AppConfig.model config)) in
  (λ w, (inr tt, set_history [] w));;
  logger (AgentInitialized agent_name);;
  mret (mk _ agent_name agent_role config llm_client temperature max_tokens).

(** one turn of the loop of [_build_full_prompt] *)
Definition history_line (full_prompt : string) (msg : message) : exn + string :=
  match getitem msg "role" with
  | inl e => inl e
  | inr role =>
      match getitem msg "content" with
      | inl e => inl e
      | inr content =>
          inr (full_prompt +:+ PyText.capitalize role +:+ ": " +:+ content +:+ PyText.nl)
      end
  end.

Fixpoint history_lines (full_prompt : string) (history : list message) : exn + string :=
  match history with
  | [] => inr full_prompt
  | msg :: rest =>
      match history_line full_prompt msg with
      | inl e => inl e
      | inr full_prompt => history_lines full_prompt rest
      end
  end.

Context {A : Type} `{!Agent A}.

(** [BaseAgent._build_full_prompt] *)
Definition _build_full_prompt (self : A) (user_message : string) : W string :=
  system_prompt ← call (get_system_prompt self);
  let full_prompt := system_prompt +:+ PyText.nl +:+ PyText.nl in
  history ← get_history;
  full_prompt ←
    match history with
    | [] => mret full_prompt
    | _ =>
        full_prompt ←
          call (history_lines (full_prompt +:+ "Previous conversation:" +:+ PyText.nl)
                  history);
        mret (full_prompt +:+ PyText.nl)
    end;
  mret (full_prompt +:+ "User: " +:+ user_message +:+ PyText.nl +:+ PyText.nl
        +:+ "Assistant:").

Definition user_turn (content : string) : message :=
  <["role" := "user"]> (<["content" := content]> ∅).

Definition assistant_turn (content : string) : message :=
  <["role" := "assistant"]> (<["content" := content]> ∅).

Definition fallback : string :=
  "I apologize, but I'm having trouble processing your request right now. "
  +:+ "Please try again in a moment.".

(** [BaseAgent.process_message] *)
Definition process_message (self : A) (user_message : string)
    (add_to_history : bool) : W string :=
  logger (ProcessingMessage (agent_name (base self)) (PyText.take 50 user_message));;
  try_except
    (full_prompt ← _build_full_prompt self user_message;
     response ←
       generate_response (llm_client (base self)) full_prompt
         (Some (temperature (base self))) (Some (max_tokens (base self))) None;
     (if add_to_history
      then λ w, (inr tt,
                 set_history
                   (conversation_history w
                    ++ [user_turn user_message; assistant_turn response])%list w)
      else mret tt);;
     logger (GeneratedResponse (agent_name (base self)) (String.length response));;
     mret response)
    (λ e,
      logger (ErrorProcessing (agent_name (base self)) (exn_str e));;
      mret fallback).

(** A history of complete exchanges: what [process_message] builds. *)
Definition turns (exchanges : list (string * string)) : list message :=
  exchanges ≫= λ x, [user_turn x.1; assistant_turn x.2].

Fixpoint transcript (exchanges : list (string * string)) : string :=
  match exchanges with
  | [] => ""
  | x :: rest =>
      "User: " +:+ x.1 +:+ PyText.nl +:+ "Assistant: " +:+ x.2 +:+ PyText.nl
      +:+ transcript rest
  end.

(** the prompt for a system prompt, the exchanges so far and a message *)
Definition prompt_of (system_prompt : string) (exchanges : list (string * string))
    (user_message : string) : string :=
  system_prompt +:+ PyText.nl +:+ PyText.nl
  +:+ match exchanges with
      | [] => ""
      | _ => "Previous conversation:" +:+ PyText.nl +:+ transcript exchanges +:+ PyText.nl
      end
  +:+ "User: " +:+ user_message +:+ PyText.nl +:+ PyText.nl +:+ "Assistant:".

(** [for question in questions: agent.process_message(question)], the
    replies collected *)
Fixpoint converse (self : A) (questions : list string) : W (list string) :=
  match questions with
  | [] => mret []
  | question :: rest =>
      response ← process_message self question true;
      responses ← converse self rest;
      mret (response :: responses)
  end.

(** [BaseAgent.clear_history] *)
Definition clear_history (self : A) : W unit :=
  (λ w, (inr tt, set_history [] w));;
  logger (ClearedHistory (agent_name (base self))).

(** [msg['content'][:100] + "..." if len(msg['content']) > 100 else msg['content']] *)
Definition shorten (content : string) : string :=
  if (100 <? String.length content)%nat
  then PyText.take 100 content +:+ "..."
  else content.

(** one turn of the loop of [get_conversation_summary] *)
Definition summary_line (summary : string) (i : nat) (msg : message) : exn + string :=
  match getitem msg "role" with
  | inl e => inl e
  | inr role =>
      match getitem msg "content" with
      | inl e => inl e
      | inr content =>
          inr (summary +:+ pretty i +:+ ". " +:+ PyText.upper role +:+ ": "
               +:+ shorten content +:+ PyText.nl)
      end
  end.

Fixpoint summary_lines (summary : string) (i : nat) (history : list message)
  : exn + string :=
  match history with
  | [] => inr summary
  | msg :: rest =>
      match summary_line summary i msg with
      | inl e => inl e
      | inr summary => summary_lines summary (S i) rest
      end
  end.

(** the lines of the summary of complete exchanges, numbered from [i] *)
Fixpoint summary_text (i : nat) (exchanges : list (string * string)) : string :=
  match exchanges with
  | [] => ""
  | x :: rest =>
      pretty i +:+ ". USER: " +:+ shorten x.1 +:+ PyText.nl
      +:+ pretty (S i) +:+ ". ASSISTANT: " +:+ shorten x.2 +:+ PyText.nl
      +:+ summary_text (S (S i)) rest
  end.

(** [BaseAgent.get_conversation_summary] *)
Definition get_conversation_summary (self : A) : W string :=
  history ← get_history;
  match history with
  | [] => mret "No conversation history"
  | _ =>
      call (summary_lines
              ("Conversation with " +:+ agent_name (base self) +:+ ":" +:+ PyText.nl
               +:+ "Total messages: " +:+ pretty (length history)
               +:+ PyText.nl +:+ PyText.nl)
              1 history)
  end.

End Base.
End BaseAgent.

(** ** The customer support agent: [src/agents/customer_support_agent.py] *)

Module CustomerSupportAgent.
Import GeminiClient.

Record t {G : GenAI} : Type := mk {
  bank_name : string;
  super : BaseAgent.t
}.

Definition system_prompt (bank_name : string) : string :=
  "You are a helpful and friendly customer support representative for "
  +:+ bank_name +:+ ".

Your role and responsibilities:
- Answer customer questions about banking products and services
- Provide information about accounts (checking, savings, business accounts)
- Explain fees, interest rates, and account features
- Help customers understand banking terms and processes
- Provide branch locations and contact information
- Assist with common issues like card locks, password resets, etc.

Guidelines for responses:
1. Be friendly, professional, and empathetic
2. Use simple language - avoid jargon when possible
3. If you don't know something specific, acknowledge it and offer to help find the information
4. Never make up specific numbers or details - only provide information you're confident about
5. For complex issues (fraud, disputes, technical problems), recommend contacting a specialist
6. Always prioritize customer security and privacy
7. Keep responses concise but complete (2-4 paragraphs maximum)

Banking products you support:
- Savings Accounts (Standard and Premium)
- Checking Accounts (Essential and Business)
- Personal Loans, Home Loans, Auto Loans, Student Loans
- Credit Cards
- Online and Mobile Banking

Remember: You represent " +:+ bank_name
  +:+ ". Be helpful, accurate, and customer-focused.".

#[global] Instance agent {G : GenAI} : BaseAgent.Agent t := {|
  BaseAgent.base := super;
  BaseAgent.get_system_prompt := λ self, inr (system_prompt (bank_name self))
|}.

Section Support.
Context {G : GenAI}.

(** [CustomerSupportAgent.__init__]; [temperature] is 0.7 when the
    caller gives none *)
Definition __init__ (bank_name : option string) (temperature : Q) : W t :=
  bank_name ←
    match bank_name with
    | None => config ← get_config; mret (AppConfig.bank_name config)
    | Some bank_name => mret bank_name
    end;
  super ←
    BaseAgent.__init__ "customer_support"
      (bank_name +:+ " Customer Support Representative")
      (Some temperature) (Some 1500);
  logger (SupportAgentInitialized bank_name);;
  mret (mk _ bank_name super).

(** [CustomerSupportAgent.handle_greeting] *)
Definition handle_greeting (self : t) : W string :=
  BaseAgent.process_message self
    "Greet the customer warmly and ask how you can help them today." false.

(** [CustomerSupportAgent.handle_farewell] *)
Definition handle_farewell (self : t) : W string :=
  BaseAgent.process_message self "Thank the customer and wish them well." false.

(** [create_customer_support_agent] *)
Definition create_customer_support_agent : W t := __init__ None (7 # 10).

End Support.
End CustomerSupportAgent.

(** A service that counts the requests it receives and answers each with
    the same text, except that the model named offline is refused with
    the message Invalid token. *)

Module SampleAgent.
Import GeminiClient.

Definition answer : string := "Hello! How can I help you today?".

Definition respond (model : string) (n : nat) : (exn + string) * nat :=
  if String.eqb model "offline"
  then (inl (LibraryError "Invalid token"), S n)
  else (inr answer, S n).

Definition genai : GenAI := {|
  service := nat;
  GenerativeModel := string;
  GenerationConfig := Q * Z * Q;
  ChatSession := string;
  Response := string;
  configure := λ _ n, (inr tt, n);
  new_model := λ model_name n, (inr model_name, n);
  new_generation_config := λ temperature max_tokens top_p,
    inr (temperature, max_tokens, top_p);
  generate_content := λ model _ _ n, respond model n;
  start_chat := λ model n, (inr model, n);
  send_message := λ chat _ _ n, respond chat n;
  text := λ response, inr response
|}.

Definition demo_config (model : string) : AppConfig.t :=
  AppConfig.mk "development" "DemoBank" (GeminiConfig.mk "key" model)
    (ModelConfig.mk 2048 (7 # 10) (9 # 10)).

Definition online : @GeminiClient.t genai :=
  @GeminiClient.mk genai (demo_config "gemini-1.5-flash") "gemini-1.5-flash".

Definition offline : @GeminiClient.t genai :=
  @GeminiClient.mk genai (demo_config "offline") "offline".

(** the state at import time *)
Definition w0 (model : string) : @world genai :=
  @mkWorld genai [] 0%nat (demo_config model) None [].

Definition support (client : @GeminiClient.t genai) : @CustomerSupportAgent.t genai :=
  @CustomerSupportAgent.mk genai "DemoBank"
    (@BaseAgent.mk genai "customer_support" "DemoBank Customer Support Representative"
       (GeminiClient.config client) client (7 # 10) 1500).

End SampleAgent.

(** * Properties *)

(** ** Strings *)

Lemma append_nil_l (s : string) : "" +:+ s = s.
Proof. reflexivity. Qed.

Lemma append_cons (c : ascii) (a b : string) :
  String c a +:+ b = String c (a +:+ b).
Proof. reflexivity. Qed.

Lemma append_nil_r (s : string) : s +:+ "" = s.
Proof. induction s as [|c s IH]; [done | by rewrite append_cons, IH]. Qed.

Lemma append_assoc (a b c : string) : (a +:+ b) +:+ c = a +:+ (b +:+ c).
Proof. induction a as [|x a IH]; [done | by rewrite !append_cons, IH]. Qed.

Lemma length_append (a b : string) :
  String.length (a +:+ b) = (String.length a + String.length b)%nat.
Proof.
  induction a as [|x a IH]; [done|].
  rewrite append_cons. simpl. by rewrite IH.
Qed.

Lemma lower_append (a b : string) :
  PyStr.lower (a +:+ b) = PyStr.lower a +:+ PyStr.lower b.
Proof.
  induction a as [|x a IH]; [done|].
  rewrite append_cons. simpl. by rewrite IH, append_cons.
Qed.

Lemma lower_split (s a b : string) :
  PyStr.lower s = a +:+ b →
  ∃ s1 s2, s = s1 +:+ s2 ∧ PyStr.lower s1 = a ∧ PyStr.lower s2 = b.
Proof.
  revert s. induction a as [|x a IH]; intros s Hs.
  - by exists "", s.
  - destruct s as [|c s]; [discriminate|].
    rewrite append_cons in Hs. simpl in Hs. injection Hs as Hc Hs.
    destruct (IH _ Hs) as (s1 & s2 & -> & H1 & H2).
    exists (String c s1), s2. rewrite append_cons. simpl. by rewrite Hc, H1.
Qed.

Lemma startswith_spec (p s : string) :
  PyStr.startswith p s = true ↔ ∃ post, s = p +:+ post.
Proof.
  revert s. induction p as [|a p IH]; intros s; simpl.
  - split; [by exists s | done].
  - destruct s as [|b s].
    + split; [done | by intros [post ?]].
    + rewrite andb_true_iff, Ascii.eqb_eq, IH. split.
      * intros [-> [post ->]]. by exists post.
      * intros [post Hs]. rewrite append_cons in Hs. injection Hs as -> ->. eauto.
Qed.

Lemma contains_spec (needle hay : string) :
  PyStr.contains needle hay = true ↔ ∃ pre post, hay = pre +:+ needle +:+ post.
Proof.
  induction hay as [|c hay IH]; simpl; rewrite orb_true_iff, startswith_spec.
  - split.
    + intros [[post H] | ?]; [|done]. by exists "", post.
    + intros (pre & post & H). left. destruct pre; [by exists post | done].
  - rewrite IH. split.
    + intros [[post H] | (pre & post & ->)].
      * by exists "", post.
      * by exists (String c pre), post.
    + intros (pre & post & H). destruct pre as [|x pre].
      * left. by exists post.
      * right. rewrite append_cons in H. injection H as -> ->. by exists pre, post.
Qed.

(** ** Category inference *)

Section Category.
Import CategorySpec.

Lemma ci_substring_contains (kw s : string) :
  lower_case kw →
  ci_substring kw s ↔ PyStr.contains kw (PyStr.lower s) = true.
Proof.
  intros Hkw. rewrite contains_spec. split.
  - intros (pre & mid & post & -> & Hmid).
    exists (PyStr.lower pre), (PyStr.lower post).
    by rewrite !lower_append, Hmid, Hkw.
  - intros (pre & post & Hs).
    destruct (lower_split _ _ _ Hs) as (s1 & s23 & -> & _ & H23).
    destruct (lower_split _ _ _ H23) as (s2 & s3 & -> & H2 & _).
    exists s1, s2, s3. by rewrite H2, Hkw.
Qed.

Lemma hits_existsb (r : rule) (s : string) :
  Forall lower_case r.1 →
  hits r s ↔ existsb (λ kw, PyStr.contains kw (PyStr.lower s)) r.1 = true.
Proof.
  intros Hr. rewrite existsb_exists. unfold hits.
  rewrite Forall_forall in Hr.
  split; intros (kw & Hin & H); exists kw.
  - apply list_elem_of_In in Hin as Hin'. split; [done|].
    by apply ci_substring_contains; [apply Hr|].
  - apply list_elem_of_In in Hin as Hin'. split; [done|].
    by apply ci_substring_contains; [apply Hr|].
Qed.

Lemma first_match_wins_classify (table : list rule) (s cat : string) :
  Forall (λ r, Forall lower_case r.1) table →
  first_match_wins table s cat ↔ classify table s = cat.
Proof.
  intros Htable. split.
  - induction 1 as [s | r rest s Hhit | r rest s cat Hmiss _ IH]; simpl.
    + done.
    + apply Forall_cons in Htable as [Hr _].
      apply hits_existsb in Hhit; [|done]. by rewrite Hhit.
    + apply Forall_cons in Htable as [Hr Hrest].
      destruct (existsb _ _) eqn:E.
      * exfalso. apply Hmiss. by apply hits_existsb.
      * by apply IH.
  - intros <-. induction table as [|r rest IH]; simpl.
    + constructor.
    + apply Forall_cons in Htable as [Hr Hrest].
      destruct (existsb _ _) eqn:E.
      * apply fm_hit. by apply hits_existsb.
      * apply fm_miss; [|by apply IH].
        intros Hhit. apply hits_existsb in Hhit; [congruence | done].
Qed.

Lemma doc_type_table_lower_case :
  Forall (λ r : rule, Forall lower_case r.1) doc_type_table.
Proof. repeat constructor. Qed.

Lemma infer_classify (filename : string) :
  _infer_document_type filename = classify doc_type_table filename.
Proof.
  unfold _infer_document_type, classify, doc_type_table, existsb; simpl.
  by rewrite !orb_false_r.
Qed.

End Category.

(** C5 (as amended).  [_infer_document_type] is the case-insensitive,
    first-match-wins reading of the keyword table: a category is the
    table's answer for a file name exactly when the function returns it.
    On the sample names: account_types.docx is account_info,
    fee_schedule.docx is fees, security_policy.docx is security,
    customer_service.docx is customer_service, random_notes.docx is
    general, and loan_products.docx is account_info, since "product"
    belongs to the first group. *)
Theorem infer_document_type_first_match_wins :
  (∀ filename cat,
     CategorySpec.first_match_wins CategorySpec.doc_type_table filename cat
     ↔ _infer_document_type filename = cat)
  ∧ _infer_document_type "account_types.docx" = "account_info"
  ∧ _infer_document_type "fee_schedule.docx" = "fees"
  ∧ _infer_document_type "loan_products.docx" = "account_info"
  ∧ _infer_document_type "security_policy.docx" = "security"
  ∧ _infer_document_type "customer_service.docx" = "customer_service"
  ∧ _infer_document_type "random_notes.docx" = "general".
Proof.
  split; [|by repeat split].
  intros filename cat. rewrite infer_classify.
  apply first_match_wins_classify, doc_type_table_lower_case.
Qed.

(** C5, the sample name the claim gets wrong: loan_products.docx is not
    classified as loans. *)
Lemma loan_products_is_not_loans :
  _infer_document_type "loan_products.docx" ≠ "loans".
Proof. by vm_compute. Qed.

(** Letter case does not matter, and the first group wins over a later
    one. *)
Example infer_upper_case :
  _infer_document_type "FEE_Schedule.DOCX" = "fees"
  ∧ _infer_document_type "Fraud_Support.txt" = "security".
Proof. by split. Qed.

(** ** Metadata enrichment *)

Lemma enrichment_lookup_None source_file doc_type i total size (k : string) :
  enrichment source_file doc_type i total size !! k = None ↔ k ∉ enrichment_keys.
Proof.
  unfold enrichment, enrichment_keys.
  rewrite !lookup_insert, lookup_empty.
  unfold not. rewrite !elem_of_cons, elem_of_nil.
  repeat (case_decide; [subst; split; [done | intros []; tauto] |]).
  split; [|done]. intros _ Hk. intuition congruence.
Qed.

(** a second update overwrites all of the first *)
Lemma enrichment_absorb source_file doc_type i j total size size'
    (m : gmap string value) :
  enrichment source_file doc_type i total size
    ∪ (enrichment source_file doc_type j total size' ∪ m)
  = enrichment source_file doc_type i total size ∪ m.
Proof.
  apply map_eq; intros k. rewrite !lookup_union.
  destruct (enrichment source_file doc_type i total size !! k) as [v|] eqn:E.
  - by destruct (enrichment _ _ j _ _ !! k), (m !! k).
  - apply enrichment_lookup_None in E.
    apply (enrichment_lookup_None source_file doc_type j total size') in E.
    rewrite E. by destruct (m !! k).
Qed.

Section HeapProps.
Import Heap.
Context (source_file : Path) (doc_type : string) (total : nat).

Abbreviation loop := (enrich_loop source_file doc_type total).
Abbreviation written := (last_write source_file doc_type total).

Lemma last_write_fields i chunks l e :
  written i chunks l = Some e →
  ∃ j c, e = fields source_file doc_type total j c.
Proof.
  revert i. induction chunks as [|c chunks IH]; intros i; simpl; [done|].
  destruct (written (S i) chunks l) eqn:E.
  - intros [= <-]. eauto.
  - case_decide; [|done]. intros [= <-]. eauto.
Qed.

Lemma loop_lookup i chunks (σ : store) l :
  loop i chunks σ !! l =
    match written i chunks l with
    | Some e => Some (e ∪ default ∅ (σ !! l))
    | None => σ !! l
    end.
Proof.
  revert i σ. induction chunks as [|c chunks IH]; intros i σ; simpl; [done|].
  rewrite IH. unfold dict_update.
  destruct (written (S i) chunks l) as [e|] eqn:E.
  - destruct (decide (ref_metadata c = l)) as [->|Hne].
    + rewrite lookup_insert_eq. simpl.
      destruct (last_write_fields _ _ _ _ E) as (j & c' & ->).
      unfold fields. by rewrite enrichment_absorb.
    + by rewrite lookup_insert_ne.
  - case_decide as Hl.
    + subst l. by rewrite lookup_insert_eq.
    + by rewrite lookup_insert_ne.
Qed.

Lemma loop_idempotent chunks (σ : store) :
  loop 0 chunks (loop 0 chunks σ) = loop 0 chunks σ.
Proof.
  apply map_eq; intros l. rewrite !loop_lookup.
  destruct (written 0 chunks l) as [e|] eqn:E; [|done].
  simpl. destruct (last_write_fields _ _ _ _ E) as (j & c' & ->).
  unfold fields. by rewrite enrichment_absorb.
Qed.

Lemma last_write_not_in i chunks l :
  l ∉ ref_metadata <$> chunks → written i chunks l = None.
Proof.
  revert i. induction chunks as [|c chunks IH]; intros i; simpl; [done|].
  rewrite not_elem_of_cons. intros [Hne Hnin].
  rewrite IH by done. by case_decide.
Qed.

Lemma last_write_NoDup i j chunks c :
  NoDup (ref_metadata <$> chunks) → chunks !! j = Some c →
  written i chunks (ref_metadata c)
  = Some (fields source_file doc_type total (i + j) c).
Proof.
  revert i j. induction chunks as [|c0 chunks IH]; intros i j; simpl; [done|].
  rewrite NoDup_cons. intros [Hnin Hnd]. destruct j as [|j]; simpl.
  - intros [= ->]. rewrite last_write_not_in by done.
    rewrite decide_True by done. by rewrite Nat.add_0_r.
  - intros Hj. rewrite (IH (S i) j) by done.
    by replace (S i + j)%nat with (i + S j)%nat by lia.
Qed.

End HeapProps.

Lemma enrich_metadata_lookup (values : list Document) (source_file : Path)
    (i : nat) (c : Document) :
  enrich_metadata values source_file !! i = Some c →
  ∃ c0, values !! i = Some c0
        ∧ page_content c = page_content c0
        ∧ metadata c !! "chunk_index" = Some (VInt (Z.of_nat i))
        ∧ metadata c !! "total_chunks" = Some (VInt (Z.of_nat (length values)))
        ∧ metadata c !! "chunk_size" = Some (VInt (content_len c)).
Proof.
  unfold enrich_metadata. rewrite list_lookup_imap.
  destruct (values !! i) as [c0|]; simpl; [|done].
  intros [= <-]. exists c0. split; [done|]. split; [done|]. simpl.
  repeat split; by apply lookup_union_Some_l.
Qed.

(** C4.  On chunks that do not share a metadata dictionary, as the
    splitter produces them, [enrich_metadata] returns the chunks in their
    order, and for a list of N chunks the i-th one carries chunk_index i,
    total_chunks N and chunk_size the length of its own content; the same
    holds of the chunks as values, as [process_directory] collects
    them. *)
Theorem enrich_metadata_index_contiguity
    (chunks : list Heap.DocumentRef) (values : list Document)
    (source_file : Path) (σ : gmap Heap.loc (gmap string value)) :
  NoDup (Heap.ref_metadata <$> chunks) →
  (Heap.enrich_metadata chunks source_file σ).1 = chunks
  ∧ (∀ (i : nat) (chunk : Heap.DocumentRef),
       chunks !! i = Some chunk →
       ∃ m : gmap string value,
         (Heap.enrich_metadata chunks source_file σ).2 !! Heap.ref_metadata chunk
         = Some m
         ∧ m !! "chunk_index" = Some (VInt (Z.of_nat i))
         ∧ m !! "total_chunks" = Some (VInt (Z.of_nat (length chunks)))
         ∧ m !! "chunk_size"
           = Some (VInt (Z.of_nat (String.length (Heap.ref_content chunk)))))
  ∧ length (enrich_metadata values source_file) = length values
  ∧ (∀ (i : nat) (c : Document),
       enrich_metadata values source_file !! i = Some c →
       ∃ c0, values !! i = Some c0
             ∧ page_content c = page_content c0
             ∧ metadata c !! "chunk_index" = Some (VInt (Z.of_nat i))
             ∧ metadata c !! "total_chunks"
               = Some (VInt (Z.of_nat (length values)))
             ∧ metadata c !! "chunk_size" = Some (VInt (content_len c))).
Proof.
  intros Hnd. split; [done|]. split.
  - intros i chunk Hi. unfold Heap.enrich_metadata. simpl.
    rewrite loop_lookup, (last_write_NoDup _ _ _ 0 i chunks chunk) by done.
    eexists. split; [done|]. simpl.
    repeat split; by apply lookup_union_Some_l.
  - split; [|apply enrich_metadata_lookup].
    unfold enrich_metadata. by rewrite length_imap.
Qed.

Lemma enrich_metadata_index_contiguity_witness :
  NoDup (Heap.ref_metadata <$> Sample.two_chunks)
  ∧ ∃ m : gmap string value,
      (Heap.enrich_metadata Sample.two_chunks Sample.fees_txt ∅).2 !! 2%positive = Some m
      ∧ m !! "chunk_index" = Some (VInt 1)
      ∧ m !! "total_chunks" = Some (VInt 2)
      ∧ m !! "chunk_size" = Some (VInt 8).
Proof.
  assert (Hnd : NoDup (Heap.ref_metadata <$> Sample.two_chunks)).
  { apply (bool_decide_unpack _). by vm_compute. }
  split; [exact Hnd|].
  exact (proj1 (proj2 (enrich_metadata_index_contiguity
                         Sample.two_chunks [] Sample.fees_txt ∅ Hnd))
           1%nat (Heap.mkRef "3.2% APY" 2%positive) eq_refl).
Defined.

(** Two chunks that share one dictionary both end with the index written
    last. *)
Example enrich_metadata_shared_dictionary :
  let chunks := [Heap.mkRef "a" 1%positive; Heap.mkRef "b" 1%positive] in
  (Heap.enrich_metadata chunks Sample.fees_txt ∅).2 !! 1%positive
    ≫= (λ m : gmap string value, m !! "chunk_index")
  = Some (VInt 1).
Proof. vm_compute. reflexivity. Qed.

(** On chunks that share nothing, the loop on the store and the map over
    values agree. *)
Lemma enrich_metadata_deref (chunks : list Heap.DocumentRef) (source_file : Path)
    (σ : gmap Heap.loc (gmap string value)) :
  NoDup (Heap.ref_metadata <$> chunks) →
  Heap.deref (Heap.enrich_metadata chunks source_file σ).2 <$> chunks
  = enrich_metadata (Heap.deref σ <$> chunks) source_file.
Proof.
  intros Hnd. unfold enrich_metadata, Heap.enrich_metadata. simpl.
  apply list_eq; intros i.
  rewrite list_lookup_fmap, list_lookup_imap, list_lookup_fmap.
  destruct (chunks !! i) as [c|] eqn:Hi; simpl; [|done].
  unfold Heap.deref at 1. f_equal.
  rewrite loop_lookup, (last_write_NoDup _ _ _ 0 i chunks c) by done.
  simpl. by rewrite length_fmap.
Qed.

Lemma enrich_metadata_length (chunks : list Document) (source_file : Path) :
  length (enrich_metadata chunks source_file) = length chunks.
Proof. unfold enrich_metadata. by rewrite length_imap. Qed.

Lemma enrich_metadata_twice (chunks : list Document) (source_file : Path) :
  enrich_metadata (enrich_metadata chunks source_file) source_file
  = enrich_metadata chunks source_file.
Proof.
  apply list_eq; intros i. unfold enrich_metadata at 1.
  rewrite list_lookup_imap, enrich_metadata_length.
  unfold enrich_metadata. rewrite list_lookup_imap.
  destruct (chunks !! i) as [c|]; simpl; [|done].
  unfold content_len. simpl. by rewrite enrichment_absorb.
Qed.

(** The category written by [enrich_metadata] is inferred from the file
    name, the last component of the path. *)
Lemma enrich_metadata_doc_type (chunks : list Document) (source_file : Path)
    (i : nat) (c : Document) :
  enrich_metadata chunks source_file !! i = Some c →
  metadata c !! "doc_type"
  = Some (VStr (_infer_document_type (PyPath.name source_file))).
Proof.
  unfold enrich_metadata. rewrite list_lookup_imap.
  destruct (chunks !! i) as [c0|]; simpl; [|done].
  intros [= <-]. simpl. by apply lookup_union_Some_l.
Qed.

Example doc_type_ignores_directories :
  let source_file := mkPath false ["accounts"; "notes.txt"] in
  PyStr.contains "account" (PyStr.lower (PyPath.str source_file)) = true
  ∧ (λ c, metadata c !! "doc_type")
      <$> enrich_metadata [mkDocument "text" ∅] source_file
    = [Some (VStr "general")].
Proof. split; by vm_compute. Qed.

(** C9.  Running [enrich_metadata] again on its own result, with the same
    source file, changes nothing: on the store it returns the same list
    and leaves every dictionary as the first run left it, and on chunk
    values it returns the same chunks.  A dictionary holds one value per
    key, so no field is doubled. *)
Theorem enrich_metadata_idempotent
    (chunks : list Heap.DocumentRef) (values : list Document)
    (source_file : Path) (σ : gmap Heap.loc (gmap string value)) :
  Heap.enrich_metadata (Heap.enrich_metadata chunks source_file σ).1 source_file
    (Heap.enrich_metadata chunks source_file σ).2
  = Heap.enrich_metadata chunks source_file σ
  ∧ enrich_metadata (enrich_metadata values source_file) source_file
    = enrich_metadata values source_file.
Proof.
  split; [|apply enrich_metadata_twice].
  unfold Heap.enrich_metadata. simpl. by rewrite loop_idempotent.
Qed.

(** ** File names and extensions *)

Lemma endswith_spec (p s : string) :
  PyStr.endswith p s = true ↔ ∃ pre, s = pre +:+ p.
Proof.
  induction s as [|c s IH]; simpl; rewrite orb_true_iff, String.eqb_eq.
  - split.
    + intros [-> | ?]; [by exists "" | done].
    + intros [pre Hs]. left. destruct pre; [done | discriminate].
  - rewrite IH. split.
    + intros [-> | [pre ->]]; [by exists "" | by exists (String c pre)].
    + intros [pre Hs]. destruct pre as [|x pre].
      * by left.
      * right. rewrite append_cons in Hs. injection Hs as -> ->. by exists pre.
Qed.

Lemma substring_whole (p : string) : substring 0 (String.length p) p = p.
Proof. induction p as [|x p IH]; simpl; [done | by rewrite IH]. Qed.

Lemma substring_append (pre p : string) :
  substring (String.length pre) (String.length p) (pre +:+ p) = p.
Proof.
  induction pre as [|c pre IH].
  - rewrite append_nil_l. apply substring_whole.
  - rewrite append_cons. simpl. apply IH.
Qed.

Lemma rfind_dot_append (pre rest : string) :
  PyStr.rfind_dot rest = None →
  PyStr.rfind_dot (pre +:+ String "." rest) = Some (String.length pre).
Proof.
  intros Hrest. induction pre as [|c pre IH].
  - rewrite append_nil_l. simpl. by rewrite Hrest.
  - rewrite append_cons. simpl. by rewrite IH.
Qed.

Lemma name_child (directory : Path) (n : string) :
  PyPath.name (PyPath.child directory n) = n.
Proof. unfold PyPath.name, PyPath.child. simpl. apply last_last. Qed.

(** an entry that ends in a dot and a dot-free tail: its suffix is that
    ending, unless the entry is nothing but the ending *)
Lemma suffix_child (directory : Path) (pre rest : string) :
  PyStr.rfind_dot rest = None → rest ≠ "" →
  PyPath.suffix (PyPath.child directory (pre +:+ String "." rest))
  = if String.eqb pre "" then "" else String "." rest.
Proof.
  intros Hrest Hne. unfold PyPath.suffix. rewrite name_child.
  rewrite rfind_dot_append by done.
  rewrite length_append.
  destruct pre as [|c pre]; [done|].
  assert (String.length rest ≠ 0)%nat by (by destruct rest).
  set (n := String.length (String c pre)).
  assert (0 < n)%nat as H0 by (subst n; simpl; lia).
  change (String.length (String "." rest)) with (S (String.length rest)).
  rewrite (proj2 (Nat.ltb_lt _ _) H0).
  rewrite (proj2 (Nat.ltb_lt n (n + S (String.length rest) - 1))) by lia.
  replace (n + S (String.length rest) - n)%nat
    with (String.length (String "." rest)) by (simpl; lia).
  apply substring_append.
Qed.

(** ** Running the processor *)

Section Runs.
Context {Ext : Externals}.
Implicit Types (self : DocumentProcessor) (st : state) (f : Path).

Ltac log_cases :=
  repeat (rewrite ?elem_of_app, ?elem_of_cons, ?elem_of_nil);
  intuition (try discriminate; try congruence).

Ltac run := unfold mbind, mret, M_bind, M_ret, try_except, call, raise, logger,
  get_all_chunks, get_stats, set_all_chunks, set_stats, add_log; simpl.

Lemma load_document_run self f st :
  load_document self f st
  = (inr (load_outcome f).1, add_log (load_outcome f).2 st).
Proof.
  unfold load_document, load_outcome.
  destruct (choose_loader _) as [loader|]; run; [|done].
  destruct (loader_load _ _) as [e|documents]; run; done.
Qed.

Lemma process_file_run self f st :
  process_file self f st
  = (inr tt,
     let '(evs, acc, s) := file_step self f (all_chunks st) (stats st) in
     mkState (log st ++ evs) acc s).
Proof.
  unfold process_file, file_step.
  unfold try_except at 1. unfold mbind at 1, M_bind at 1.
  rewrite load_document_run.
  destruct (load_outcome f) as [documents evs]. simpl.
  destruct documents as [|d documents].
  { run. by destruct st. }
  unfold chunk_documents.
  destruct (split_documents _ _) as [e|raw]; run.
  { by rewrite <- app_assoc. }
  destruct (enrich_metadata raw f) as [|first chunks] eqn:E; run.
  { by rewrite <- !app_assoc. }
  destruct (metadata first !! "doc_type") as [doc_type|]; run.
  - by rewrite <- !app_assoc.
  - by rewrite <- !app_assoc.
Qed.

Lemma for_each_run self files st :
  for_each files (process_file self) st
  = (inr tt,
     let '(evs, acc, s) := batch self files (all_chunks st) (stats st) in
     mkState (log st ++ evs) acc s).
Proof.
  revert st. induction files as [|f files IH]; intros st; simpl.
  - run. rewrite app_nil_r. by destruct st.
  - unfold mbind, M_bind. rewrite process_file_run.
    destruct (file_step self f _ _) as [[evs1 acc1] s1]. rewrite IH. simpl.
    destruct (batch self files acc1 s1) as [[evs2 acc2] s2].
    by rewrite app_assoc.
Qed.

Lemma process_files_run self files st :
  process_files self files st
  = let '(evs, acc, s) := batch self files [] ProcessingStats_new in
    let s' := finalize acc s in
    (inr (acc, s'),
     mkState (log st ++ [Found (length files)] ++ evs
                ++ [ProcessingComplete (total_chunks s') (total_documents s')])
       acc s').
Proof.
  unfold process_files.
  unfold mbind, M_bind. simpl. rewrite for_each_run. simpl.
  destruct (batch self files [] ProcessingStats_new) as [[evs acc] s]. simpl.
  destruct acc as [|c acc]; run; by rewrite <- !app_assoc.
Qed.


Lemma batch_app self files1 files2 acc s :
  batch self (files1 ++ files2) acc s
  = let '(evs1, acc1, s1) := batch self files1 acc s in
    let '(evs2, acc2, s2) := batch self files2 acc1 s1 in
    ((evs1 ++ evs2)%list, acc2, s2).
Proof.
  revert acc s. induction files1 as [|f files1 IH]; intros acc s; simpl.
  - by destruct (batch self files2 acc s) as [[??]?].
  - destruct (file_step self f acc s) as [[evs0 acc0] s0]. rewrite IH.
    destruct (batch self files1 acc0 s0) as [[evs1 acc1] s1].
    destruct (batch self files2 acc1 s1) as [[evs2 acc2] s2].
    by rewrite app_assoc.
Qed.

(** a document that fails to load or to segment leaves the chunks and the
    statistics as they were, and an ERROR record in the log *)
Lemma file_step_failure self f acc s :
  fails_to_load f ∨ fails_to_segment self f →
  ∃ evs e,
    file_step self f acc s = (evs, acc, s)
    ∧ (ErrorLoading (PyPath.name f) e ∈ evs
       ∨ FailedToProcess (PyPath.name f) e ∈ evs).
Proof.
  unfold file_step, load_outcome.
  intros [(loader & e & -> & ->) | (loader & documents & e & -> & -> & Hne & Hsplit)].
  - exists [ErrorLoading (PyPath.name f) e], e. split; [done|]. left. set_solver.
  - destruct documents as [|d documents]; [done|]. rewrite Hsplit.
    eexists _, e. split; [done|]. right. set_solver.
Qed.

Lemma file_step_nothing self f acc s :
  chunks_to_nothing self f →
  ∃ evs,
    file_step self f acc s = (evs, acc, bump s)
    ∧ FailedToProcess (PyPath.name f) IndexError ∈ evs.
Proof.
  unfold file_step, load_outcome.
  intros (loader & documents & -> & -> & Hne & Hsplit).
  destruct documents as [|d documents]; [done|]. rewrite Hsplit. simpl.
  eexists. split.
  { unfold count_file, bump. simpl. by rewrite app_nil_r, Z.add_0_r. }
  set_solver.
Qed.

Lemma file_step_bump self f acc s :
  file_step self f acc (bump s)
  = let '(evs, acc', s') := file_step self f acc s in (evs, acc', bump s').
Proof.
  unfold file_step. destruct (load_outcome f) as [documents evs].
  destruct documents as [|d documents]; [done|].
  destruct (split_documents _ _) as [e|raw]; [done|].
  destruct (enrich_metadata raw f) as [|first chunks]; [done|].
  by destruct (metadata first !! "doc_type").
Qed.

Lemma batch_bump self files acc s :
  batch self files acc (bump s)
  = let '(evs, acc', s') := batch self files acc s in (evs, acc', bump s').
Proof.
  revert acc s. induction files as [|f files IH]; intros acc s; simpl; [done|].
  rewrite file_step_bump.
  destruct (file_step self f acc s) as [[evs1 acc1] s1]. rewrite IH.
  by destruct (batch self files acc1 s1) as [[evs2 acc2] s2].
Qed.

Lemma finalize_bump acc s : finalize acc (bump s) = bump (finalize acc s).
Proof. by destruct acc. Qed.

(** C7.  [process_directory] on a directory that does not exist raises
    FileNotFoundError at once, with nothing logged and nothing processed;
    on a directory that exists it returns the pair of the chunk list and
    the statistics. *)
Theorem process_directory_result self (directory : Path) st :
  (path_exists directory = false
   ∧ process_directory self directory st = (inl (FileNotFoundError directory), st))
  ∨ (path_exists directory = true
     ∧ ∃ chunks s st',
         process_directory self directory st = (inr (chunks, s), st')
         ∧ chunks = all_chunks st' ∧ s = stats st').
Proof.
  unfold process_directory. destruct (path_exists directory); simpl.
  - right. split; [done|]. rewrite process_files_run.
    destruct (batch self (scan directory) [] ProcessingStats_new) as [[evs acc] s].
    by eexists _, _, _.
  - by left.
Qed.

(** C10.  When a file loads to a non-empty list of documents and the
    splitter returns no chunk for them, [process_directory] counts the
    file: against the batch without it, total_documents is one more while
    the chunks, total_chunks, document_types and the average are the
    same, and the file is logged as failed, with the IndexError of
    [chunks[0]]. *)
Theorem empty_chunking_is_counted self (directory : Path)
    (before after : list Path) f st :
  path_exists directory = true →
  scan directory = (before ++ f :: after)%list →
  chunks_to_nothing self f →
  ∃ chunks s s0 st' st'',
    process_directory self directory st = (inr (chunks, s), st')
    ∧ process_files self (before ++ after) st = (inr (chunks, s0), st'')
    ∧ total_documents s = total_documents s0 + 1
    ∧ total_chunks s = total_chunks s0
    ∧ document_types s = document_types s0
    ∧ avg_chunk_size s = avg_chunk_size s0
    ∧ FailedToProcess (PyPath.name f) IndexError ∈ log st'.
Proof.
  intros Hex Hscan Hnothing. unfold process_directory. rewrite Hex, Hscan. simpl.
  rewrite !process_files_run, !batch_app. simpl.
  destruct (batch self before [] ProcessingStats_new) as [[evs1 acc1] s1].
  destruct (file_step_nothing self f acc1 s1 Hnothing) as (evs & -> & Hlog).
  rewrite batch_bump.
  destruct (batch self after acc1 s1) as [[evs2 acc2] s2].
  rewrite finalize_bump.
  eexists _, _, _, _, _. split; [done|]. split; [done|]. simpl.
  repeat split; try done.
  repeat (rewrite ?elem_of_app, ?elem_of_cons). tauto.
Qed.


(** *** The directory scan *)

Lemma elem_of_scan (directory p : Path) :
  p ∈ scan directory
  ↔ ∃ n ext, n ∈ scandir directory ∧ ext ∈ supported_extensions
             ∧ (∃ stem, n = stem +:+ ext) ∧ p = PyPath.child directory n.
Proof.
  unfold scan, glob_suffix. rewrite list_elem_of_bind. split.
  - intros (ext & Hp & Hext).
    apply list_elem_of_fmap in Hp as (n & -> & Hn).
    apply list_elem_of_filter in Hn as [Hends Hn].
    apply endswith_spec in Hends. by exists n, ext.
  - intros (n & ext & Hn & Hext & Hends & ->).
    exists ext. split; [|done].
    apply list_elem_of_fmap. exists n. split; [done|].
    apply list_elem_of_filter. split; [|done]. by apply endswith_spec.
Qed.

Lemma scanned_dispatch (directory p : Path) :
  p ∈ scan directory →
  is_Some (choose_loader (PyStr.lower (PyPath.suffix p)))
  ∨ (PyPath.name p ∈ supported_extensions ∧ PyPath.suffix p = "").
Proof.
  rewrite elem_of_scan. intros (n & ext & _ & Hext & [stem ->] & ->).
  unfold supported_extensions in Hext.
  rewrite name_child.
  repeat (apply elem_of_cons in Hext as [-> | Hext]);
    [ | | | by apply elem_of_nil in Hext ];
    (rewrite suffix_child by done;
     destruct stem as [|c stem];
     [ right; split; [set_solver | done] | left; by eexists ]).
Qed.

Lemma file_step_unsupported self f acc s ext :
  UnsupportedFileType ext ∈ (file_step self f acc s).1.1 →
  choose_loader (PyStr.lower (PyPath.suffix f)) = None
  ∧ ext = PyStr.lower (PyPath.suffix f).
Proof.
  unfold file_step, load_outcome.
  destruct (choose_loader _) as [loader|]; simpl.
  - destruct (loader_load _ _) as [e|documents]; simpl; [log_cases|].
    destruct documents as [|d documents]; simpl; [log_cases|].
    destruct (split_documents _ _) as [e|raw]; simpl; [log_cases|].
    destruct (enrich_metadata raw f) as [|first chunks]; simpl; [log_cases|].
    destruct (metadata first !! "doc_type"); simpl; log_cases.
  - log_cases.
Qed.

Lemma batch_unsupported self files acc s ext :
  UnsupportedFileType ext ∈ (batch self files acc s).1.1 →
  ∃ f, f ∈ files
       ∧ choose_loader (PyStr.lower (PyPath.suffix f)) = None
       ∧ ext = PyStr.lower (PyPath.suffix f).
Proof.
  revert acc s. induction files as [|f files IH]; intros acc s; simpl.
  - by rewrite elem_of_nil.
  - pose proof (file_step_unsupported self f acc s ext) as Hstep.
    destruct (file_step self f acc s) as [[evs1 acc1] s1].
    specialize (IH acc1 s1).
    destruct (batch self files acc1 s1) as [[evs2 acc2] s2]. simpl in *.
    rewrite elem_of_app. intros [Hin | Hin].
    + exists f. split; [by left | by apply Hstep].
    + destruct (IH Hin) as (f' & ? & ?). exists f'. split; [by right | done].
Qed.

Lemma choose_loader_supported (extension : string) :
  is_Some (choose_loader extension) ↔ extension ∈ supported_extensions.
Proof.
  unfold choose_loader, supported_extensions.
  rewrite !elem_of_cons, elem_of_nil.
  destruct (String.eqb_spec extension ".docx") as [->|?]; [by split; eauto|].
  destruct (String.eqb_spec extension ".pdf") as [->|?]; [by split; eauto|].
  destruct (String.eqb_spec extension ".txt") as [->|?]; [by split; eauto|].
  split; [by intros [? ?] | tauto].
Qed.

(** C8 (as amended).  An entry of the directory whose name ends in
    .docx, .pdf or .txt is scanned.  Whatever is scanned is an entry of
    the directory whose extension is one of the three, letter case
    aside (or whose whole name is one of them, letter case aside): a
    file of any other extension is left out by the scan.  [load_document] lower-cases the
    extension of the path it is given: it has a loader exactly for
    .docx, .pdf and .txt in any letter case, and for any other extension
    it logs a WARNING and returns the empty list without raising.  A
    file left out by the scan leaves no record: the only "unsupported
    file type" record a batch can add is for an empty extension. *)
Theorem scan_and_load_extensions self (directory : Path) st :
  (∀ n ext, n ∈ scandir directory → ext ∈ supported_extensions →
            (∃ stem, n = stem +:+ ext) →
            PyPath.child directory n ∈ scan directory)
  ∧ (∀ p, p ∈ scan directory →
          (∃ n, n ∈ scandir directory ∧ p = PyPath.child directory n)
          ∧ (PyStr.lower (PyPath.suffix p) ∈ supported_extensions
             ∨ PyStr.lower (PyPath.name p) ∈ supported_extensions))
  ∧ (∀ p, is_Some (choose_loader (PyStr.lower (PyPath.suffix p)))
          ↔ PyStr.lower (PyPath.suffix p) ∈ supported_extensions)
  ∧ (∀ p, PyStr.lower (PyPath.suffix p) ∉ supported_extensions →
          load_document self p st
          = (inr [], add_log [UnsupportedFileType (PyStr.lower (PyPath.suffix p))] st)
          ∧ level_of (UnsupportedFileType (PyStr.lower (PyPath.suffix p))) = WARNING)
  ∧ (∀ ext result st',
       process_directory self directory st = (result, st') →
       UnsupportedFileType ext ∈ log st' →
       UnsupportedFileType ext ∈ log st ∨ ext = "").
Proof.
  split.
  { intros n ext Hn Hext Hends. apply elem_of_scan. by exists n, ext. }
  split.
  { intros p Hp. split.
    - apply elem_of_scan in Hp as (n & ext & Hn & _ & _ & ->). by exists n.
    - destruct (scanned_dispatch _ _ Hp) as [Hsome | [Hname _]];
        [left; by apply choose_loader_supported | right].
      unfold supported_extensions in Hname.
      repeat (apply elem_of_cons in Hname as [-> | Hname]);
        [ | | | by apply elem_of_nil in Hname];
        apply (bool_decide_unpack _); by vm_compute. }
  split; [intros p; apply choose_loader_supported|].
  split.
  - intros p Hp. split; [|done]. rewrite load_document_run. unfold load_outcome.
    destruct (choose_loader _) as [loader|] eqn:E; [|done].
    exfalso. apply Hp, choose_loader_supported. by rewrite E.
  - intros ext result st'. unfold process_directory.
    destruct (path_exists directory); simpl.
    + rewrite process_files_run.
      pose proof (batch_unsupported self (scan directory) [] ProcessingStats_new ext) as Hb.
      destruct (batch self (scan directory) [] ProcessingStats_new) as [[evs acc] s].
      intros [= <- <-]. simpl in *.
      assert (UnsupportedFileType ext ∈ evs → ext = "") as Hevs.
      { intros Hin. destruct (Hb Hin) as (f & Hf & Hnone & ->).
        destruct (scanned_dispatch _ _ Hf) as [[? Hsome] | [_ ->]];
          [congruence | done]. }
      clear Hb. log_cases.
    + unfold raise. intros [= <- <-]. by left.
Qed.

Lemma init_run (size overlap : Z) st :
  __init__ size overlap st
  = match new_splitter size overlap separators with
    | inl e => (inl e, st)
    | inr splitter =>
        (inr (mkProcessor _ size overlap splitter),
         add_log [Initialized size overlap] st)
    end.
Proof.
  unfold __init__. run.
  by destruct (new_splitter size overlap separators) as [e|splitter].
Qed.

End Runs.

(** ** The segmentation step *)

Section Segmenter.
Import SpecSplitter.

Lemma cat_app (l k : list string) : cat (l ++ k) = cat l +:+ cat k.
Proof.
  induction l as [|x l IH]; simpl; [done|]. by rewrite IH, append_assoc.
Qed.

Lemma cat_snoc (l : list string) (x : string) : cat (l ++ [x]) = cat l +:+ x.
Proof. rewrite cat_app. simpl. by rewrite append_nil_r. Qed.

Lemma cat_length_le (l : list string) (c : string) :
  c ∈ l → (String.length c ≤ String.length (cat l))%nat.
Proof.
  induction 1 as [c l | c x l _ IH]; simpl; rewrite length_append; lia.
Qed.

Lemma str_drop_length (n : nat) (s : string) :
  String.length (str_drop n s) = (String.length s - n)%nat.
Proof.
  revert s. induction n as [|n IH]; intros [|c s]; simpl; try lia.
  rewrite IH. lia.
Qed.

Lemma str_drop_suffix (n : nat) (s : string) : ∃ front, s = front +:+ str_drop n s.
Proof.
  revert s. induction n as [|n IH]; intros s.
  - by exists "".
  - destruct s as [|c s]; [by exists ""|].
    destruct (IH s) as [front Hs]. exists (String c front).
    simpl. rewrite append_cons. by rewrite <- Hs.
Qed.

Lemma str_drop_all (s : string) : str_drop (String.length s) s = "".
Proof. induction s as [|c s IH]; simpl; done. Qed.

Lemma tail_chars_length (k : nat) (s : string) :
  (String.length (tail_chars k s) ≤ k)%nat.
Proof. unfold tail_chars. rewrite str_drop_length. lia. Qed.

Lemma startswith_drop (sep text : string) :
  PyStr.startswith sep text = true →
  sep +:+ str_drop (String.length sep) text = text.
Proof.
  intros [post ->]%startswith_spec. f_equal.
  induction sep as [|c sep IH]; [done|]. rewrite append_cons. simpl. apply IH.
Qed.

Lemma cat_chars (s : string) : cat (chars s) = s.
Proof. induction s as [|c s IH]; simpl; [done|]. by rewrite IH. Qed.


Lemma cat_split_keep_go (fuel : nat) (sep cur text : string) :
  cat (split_keep_go fuel sep cur text) = cur +:+ text.
Proof.
  revert cur text. induction fuel as [|fuel IH]; intros cur text; simpl.
  - by rewrite append_nil_r.
  - destruct text as [|c text].
    + simpl. by rewrite !append_nil_r.
    + destruct (PyStr.startswith sep (String c text)) eqn:Hsep.
      * simpl. rewrite IH, append_nil_l, append_assoc.
        by rewrite startswith_drop.
      * rewrite IH. by rewrite append_assoc.
Qed.

(** the fuel of [raw_segments] is enough: more of it changes nothing *)
Lemma split_keep_go_fuel (fuel1 fuel2 : nat) (sep cur text : string) :
  sep ≠ "" →
  (String.length text ≤ fuel1)%nat → (String.length text ≤ fuel2)%nat →
  split_keep_go fuel1 sep cur text = split_keep_go fuel2 sep cur text.
Proof.
  intros Hsep. revert fuel2 cur text.
  induction fuel1 as [|fuel1 IH]; intros fuel2 cur text H1 H2.
  - destruct text; [|simpl in H1; lia].
    destruct fuel2; simpl; by rewrite ?append_nil_r.
  - destruct text as [|c text].
    { destruct fuel2; simpl; by rewrite ?append_nil_r. }
    destruct fuel2 as [|fuel2]; [simpl in H2; lia|].
    simpl in H1, H2. simpl.
    destruct (PyStr.startswith sep (String c text)).
    + f_equal. apply IH.
      * pose proof (str_drop_length (String.length sep) (String c text)) as Hd.
        destruct sep; [done|]. simpl in *. lia.
      * pose proof (str_drop_length (String.length sep) (String c text)) as Hd.
        destruct sep; [done|]. simpl in *. lia.
    + apply IH; lia.
Qed.

Lemma cat_raw_segments (sep text : string) : cat (raw_segments sep text) = text.
Proof.
  unfold raw_segments. destruct (String.eqb sep "").
  - apply cat_chars.
  - by rewrite cat_split_keep_go.
Qed.

(** *** Packing *)

Lemma flush_nil_or_snoc (out : list string) (buf : string) :
  (buf = "" ∧ flush out buf = out) ∨ (buf ≠ "" ∧ flush out buf = (out ++ [buf])%list).
Proof.
  unfold flush. destruct (String.eqb_spec buf ""); [by left | by right].
Qed.

Lemma cat_flush (out : list string) (buf : string) :
  cat (flush out buf) = cat out +:+ buf.
Proof.
  destruct (flush_nil_or_snoc out buf) as [[-> ->] | [_ ->]].
  - by rewrite append_nil_r.
  - apply cat_snoc.
Qed.

Section Invariant.
Context (bound : Z) (R : string → Prop).






End Invariant.

Lemma read_place (bound : Z) (st : packing) (piece : string) :
  read (place bound st piece) = read st +:+ piece.
Proof.
  destruct st as [out buf]. unfold place, read.
  destruct (fits bound (buf +:+ piece)); simpl.
  - by rewrite append_assoc.
  - by rewrite cat_flush.
Qed.

Lemma read_foldl_place (bound : Z) (st : packing) (pieces : list string) :
  read (foldl (place bound) st pieces) = read st +:+ cat pieces.
Proof.
  revert st. induction pieces as [|p pieces IH]; intros st; simpl.
  - by rewrite append_nil_r.
  - by rewrite IH, read_place, append_assoc.
Qed.

Lemma read_pack_step (bound : Z) (sub : string → list string)
    (st : packing) (seg : string) :
  cat (sub seg) = seg →
  read (pack_step bound sub st seg) = read st +:+ seg.
Proof.
  intros Hsub. destruct st as [out buf]. unfold pack_step.
  destruct (fits bound (buf +:+ seg)).
  - unfold read. simpl. by rewrite append_assoc.
  - destruct (String.eqb_spec buf "") as [-> | Hbuf].
    + rewrite read_foldl_place, Hsub. done.
    + unfold read. simpl. by rewrite cat_snoc.
Qed.

Lemma cat_pack (bound : Z) (sub : string → list string) (segments : list string) :
  (∀ seg, cat (sub seg) = seg) →
  cat (pack bound sub segments) = cat segments.
Proof.
  intros Hsub. unfold pack.
  assert (∀ st, read (foldl (pack_step bound sub) st segments)
                = read st +:+ cat segments) as Hread.
  { induction segments as [|seg segments IH]; intros st; simpl.
    - by rewrite append_nil_r.
    - by rewrite IH, read_pack_step, append_assoc. }
  specialize (Hread ([], "")).
  destruct (foldl _ _ _) as [out buf]. by rewrite cat_flush.
Qed.

(** *** The segmenter *)

(** no character is lost or repeated *)
Lemma cat_segment (bound : Z) (seps : list string) (text : string) :
  cat (segment bound seps text) = text.
Proof.
  revert text. induction seps as [|s seps IH]; intros text; simpl.
  - destruct (String.eqb_spec text ""); [done|]. simpl. apply append_nil_r.
  - by rewrite cat_pack, cat_raw_segments.
Qed.










(** *** The first chunk *)










(** *** The overlap window *)

Lemma overlap_prefix_length (bound overlap : Z) (prev cur : string) :
  Z.of_nat (String.length (overlap_prefix bound overlap prev cur))
  ≤ Z.max 0 (Z.min overlap (bound - Z.of_nat (String.length cur))).
Proof.
  unfold overlap_prefix.
  pose proof (tail_chars_length
    (Z.to_nat (Z.min overlap (bound - Z.of_nat (String.length cur)))) prev).
  lia.
Qed.

Lemma overlap_prefix_suffix (bound overlap : Z) (prev cur : string) :
  ∃ front, prev = front +:+ overlap_prefix bound overlap prev cur.
Proof. apply str_drop_suffix. Qed.

(** the window puts nothing before a chunk that is not within the bound *)
Lemma overlap_prefix_oversized (bound overlap : Z) (prev cur : string) :
  fits bound cur = false → overlap_prefix bound overlap prev cur = "".
Proof.
  intros Hover%Z.leb_gt. unfold overlap_prefix.
  replace (Z.to_nat _) with 0%nat by lia.
  unfold tail_chars. rewrite Nat.sub_0_r. apply str_drop_all.
Qed.

Lemma overlap_prefix_fits (bound overlap : Z) (prev cur : string) :
  fits bound cur = true →
  fits bound (overlap_prefix bound overlap prev cur +:+ cur) = true.
Proof.
  pose proof (overlap_prefix_length bound overlap prev cur) as Hlen.
  unfold fits in *. rewrite length_append. intros Hfit%Z.leb_le.
  apply Z.leb_le. lia.
Qed.

(** a chunk of the result is within the bound, or it is a chunk of the
    segmenter as it was *)
Lemma apply_overlap_fits_or_same (bound overlap : Z) (chunks : list string) (a : string) :
  a ∈ apply_overlap bound overlap chunks → fits bound a = true ∨ a ∈ chunks.
Proof.
  destruct chunks as [|first rest]; simpl; [by intros ?%elem_of_nil|].
  intros [-> | Hin]%elem_of_cons; [right; by left|].
  assert (fits bound a = true ∨ a ∈ rest) as [? | ?]; [|by left | right; by right].
  revert first Hin. induction rest as [|cur rest IH]; intros first Hin; simpl in Hin.
  { by apply elem_of_nil in Hin. }
  apply elem_of_cons in Hin as [-> | Hin].
  - destruct (fits bound cur) eqn:Hcur.
    + left. by apply overlap_prefix_fits.
    + right. rewrite overlap_prefix_oversized by done. rewrite append_nil_l. by left.
  - destruct (IH cur Hin) as [? | ?]; [by left | right; by right].
Qed.


Lemma overlap_from_length (bound overlap : Z) (prev : string) (rest : list string) :
  length (overlap_from bound overlap prev rest) = length rest.
Proof.
  revert prev. induction rest as [|cur rest IH]; intros prev; simpl; [done|].
  by rewrite IH.
Qed.

Lemma apply_overlap_length (bound overlap : Z) (chunks : list string) :
  length (apply_overlap bound overlap chunks) = length chunks.
Proof.
  destruct chunks as [|first rest]; simpl; [done|]. by rewrite overlap_from_length.
Qed.

(** chunk i+1 of the result is chunk i+1 as segmented, behind the prefix
    taken from chunk i as segmented *)
Lemma apply_overlap_lookup (bound overlap : Z) (chunks : list string)
    (i : nat) (prev cur : string) :
  chunks !! i = Some prev → chunks !! S i = Some cur →
  apply_overlap bound overlap chunks !! S i
  = Some (overlap_prefix bound overlap prev cur +:+ cur).
Proof.
  destruct chunks as [|first rest]; [done|]. simpl.
  revert first i. induction rest as [|c rest IH]; intros first i; [done|].
  destruct i as [|i]; simpl.
  - by intros [= ->] [= ->].
  - intros Hprev Hcur. by apply IH.
Qed.

(** every chunk of the result ends with the chunk as segmented *)
Lemma apply_overlap_ends (bound overlap : Z) (chunks : list string)
    (i : nat) (a : string) :
  apply_overlap bound overlap chunks !! i = Some a →
  ∃ orig lead, chunks !! i = Some orig ∧ a = lead +:+ orig.
Proof.
  destruct chunks as [|first rest]; [done|]. destruct i as [|i]; simpl.
  - intros [= <-]. by exists first, "".
  - revert first i. induction rest as [|c rest IH]; intros first i; [done|].
    destruct i as [|i]; simpl.
    + intros [= <-]. by eexists _, _.
    + apply IH.
Qed.

(** *** What two chunks share *)

Lemma shared_span_whole (a post : string) :
  SpecSplitter.shared_span a (a +:+ post) = String.length a.
Proof.
  destruct a as [|c a]; [by destruct post|]. cbn [shared_span].
  assert (PyStr.startswith (String c a) (String c a +:+ post) = true) as ->; [|done].
  apply startswith_spec. by exists post.
Qed.

Lemma shared_span_le (a b : string) :
  (SpecSplitter.shared_span a b ≤ String.length a)%nat.
Proof.
  induction a as [|c a IH]; cbn [shared_span].
  - by destruct (PyStr.startswith "" b).
  - destruct (PyStr.startswith (String c a) b); simpl; lia.
Qed.

(** a text that ends [a] and starts [b] is no longer than their shared
    span *)
Lemma shared_span_least (a b front copied rest : string) :
  a = front +:+ copied → b = copied +:+ rest →
  (String.length copied ≤ SpecSplitter.shared_span a b)%nat.
Proof.
  intros -> ->. induction front as [|c front IH].
  - rewrite append_nil_l, shared_span_whole. lia.
  - rewrite append_cons. cbn [shared_span].
    destruct (PyStr.startswith _ _); [|done].
    simpl. rewrite length_append. lia.
Qed.

(** ** [chunk_documents] with this splitter *)

Section WithSplitter.
Context (check : Z → Z → option exn)
  (load : loader_kind → string → exn + list Document)
  (exists_ : Path → bool) (ls : Path → list string).

Abbreviation spec_env := (externals check load exists_ ls).

Lemma init_spec_splitter (size overlap : Z)
    (self : @DocumentProcessor spec_env) (st0 st1 : state) :
  __init__ size overlap st0 = (inr self, st1) →
  chunk_size self = size ∧ chunk_overlap self = overlap
  ∧ text_splitter self = (size, overlap).
Proof.
  rewrite (init_run (Ext:=spec_env)). simpl.
  destruct (check size overlap); [done|]. by intros [= <- _].
Qed.

Lemma chunk_documents_spec_splitter (self : @DocumentProcessor spec_env)
    (documents : list Document) (st : state) :
  chunk_documents self documents st
  = (inr (split_all (text_splitter self).1 (text_splitter self).2 documents),
     add_log [SplitInto (length documents)
                (length (split_all (text_splitter self).1 (text_splitter self).2
                           documents))] st).
Proof. done. Qed.

End WithSplitter.


End Segmenter.


(** C2 (as amended).  On a processor built by [__init__],
    [chunk_documents] with the splitter of the specification returns the
    chunks of each document in order; for every text the chunks are as
    many as the segments, the first chunk is the first segment as it is,
    and of two adjacent chunks the second is its segment behind a span
    copied from the end of the first, of at most chunk_overlap
    characters and of none when chunk_overlap is below 1.  What the two
    chunks have in common is at least that span. *)
Theorem chunk_overlap_bound (check : Z → Z → option exn)
    (load : loader_kind → string → exn + list Document)
    (exists_ : Path → bool) (ls : Path → list string)
    (size overlap : Z)
    (self : @DocumentProcessor (SpecSplitter.externals check load exists_ ls))
    (st0 st1 st : state) (documents : list Document) :
  __init__ size overlap st0 = (inr self, st1) →
  ∃ st',
    chunk_documents self documents st
    = (inr (documents ≫= λ d,
              (λ t, mkDocument t (metadata d))
                <$> SpecSplitter.split_text (chunk_size self) (chunk_overlap self)
                      (page_content d)),
       st')
    ∧ ∀ text : string,
        let raw := SpecSplitter.segment (chunk_size self) separators text in
        let out := SpecSplitter.split_text (chunk_size self) (chunk_overlap self) text in
        length out = length raw
        ∧ head out = head raw
        ∧ ∀ (i : nat) (a b : string),
            out !! i = Some a → out !! S i = Some b →
            ∃ front copied r : string,
              raw !! S i = Some r
              ∧ b = copied +:+ r
              ∧ a = front +:+ copied
              ∧ Z.of_nat (String.length copied) ≤ Z.max 0 (chunk_overlap self)
              ∧ (String.length copied ≤ SpecSplitter.shared_span a b)%nat.
Proof.
  intros (Hsize & Hoverlap & Hsp)%init_spec_splitter.
  rewrite chunk_documents_spec_splitter, Hsp, Hsize, Hoverlap. cbn [fst snd].
  eexists. split; [done|]. intros text.
  unfold SpecSplitter.split_text.
  generalize (SpecSplitter.segment size separators text). intros raw.
  split; [apply apply_overlap_length|].
  split; [by destruct raw|].
  intros i a b Ha Hb.
  apply apply_overlap_ends in Ha as (orig & lead & Horig & ->).
  pose proof Hb as (r & _ & Hr & _)%apply_overlap_ends.
  rewrite (apply_overlap_lookup _ _ _ _ _ _ Horig Hr) in Hb. injection Hb as <-.
  destruct (overlap_prefix_suffix size overlap orig r) as [front Hfront].
  exists (lead +:+ front), (SpecSplitter.overlap_prefix size overlap orig r), r.
  split; [done|]. split; [done|]. split; [|split].
  - rewrite append_assoc. by rewrite <- Hfront.
  - pose proof (overlap_prefix_length size overlap orig r). lia.
  - apply (shared_span_least _ _ (lead +:+ front) _ r); [|done].
    rewrite append_assoc. by rewrite <- Hfront.
Qed.

(** ** The sample runs *)

Section SampleRuns.
Import Sample.

(** The batch of the claim: three documents, the second fails to load.
    The chunks are those of the first and the third, and two documents
    are counted. *)
Example three_documents_second_fails :
  match process_directory processor docs_dir st0 with
  | (inr (chunks, s), st') =>
      (λ c, metadata c !! "filename") <$> chunks
      = [Some (VStr "account_types.txt"); Some (VStr "security_policy.txt")]
      ∧ total_documents s = 2
      ∧ total_chunks s = 2
      ∧ map_to_list (document_types s)
        = [(VStr "security", 1); (VStr "account_info", 1)]
      ∧ log st'
        = [Found 3;
           Loaded 1 "account_types.txt"; SplitInto 1 1;
           Processed "account_types.txt" 1;
           ErrorLoading "fee_schedule.txt" (LibraryError "cannot decode");
           Loaded 1 "security_policy.txt"; SplitInto 1 1;
           Processed "security_policy.txt" 1;
           ProcessingComplete 2 2]
  | _ => False
  end.
Proof. vm_compute. repeat split; reflexivity. Qed.

Lemma empty_chunking_is_counted_witness :
  path_exists (Externals:=env) drafts_dir = true
  ∧ scan (Ext:=env) drafts_dir = ([notes_file] ++ empty_file :: [])%list
  ∧ chunks_to_nothing (Ext:=env) processor empty_file
  ∧ ∃ chunks s s0 st' st'',
      process_directory processor drafts_dir st0 = (inr (chunks, s), st')
      ∧ process_files processor ([notes_file] ++ []) st0 = (inr (chunks, s0), st'')
      ∧ total_documents s = total_documents s0 + 1
      ∧ total_chunks s = total_chunks s0
      ∧ document_types s = document_types s0
      ∧ avg_chunk_size s = avg_chunk_size s0
      ∧ FailedToProcess (PyPath.name empty_file) IndexError ∈ log st'.
Proof.
  assert (Hnothing : chunks_to_nothing (Ext:=env) processor empty_file).
  { exists TextLoader, [mkDocument "" {["source" := VStr "data/drafts/empty.txt"]}].
    split; [by vm_compute|]. split; [by vm_compute|]. split; [done | by vm_compute]. }
  split; [by vm_compute|]. split; [by vm_compute|]. split; [exact Hnothing|].
  apply (empty_chunking_is_counted (Ext:=env) processor drafts_dir
           [notes_file] [] empty_file st0);
    [by vm_compute | by vm_compute | exact Hnothing].
Defined.

(** The run of the claim: the empty file is counted as a document. *)
Example empty_file_is_counted :
  match process_directory processor drafts_dir st0 with
  | (inr (chunks, s), st') =>
      length chunks = 1%nat
      ∧ total_documents s = 2
      ∧ total_chunks s = 1
      ∧ map_to_list (document_types s) = [(VStr "general", 1)]
      ∧ log st'
        = [Found 2;
           Loaded 1 "notes.txt"; SplitInto 1 1; Processed "notes.txt" 1;
           Loaded 1 "empty.txt"; SplitInto 1 0;
           FailedToProcess "empty.txt" IndexError;
           ProcessingComplete 1 2]
  | _ => False
  end.
Proof. vm_compute. repeat split; reflexivity. Qed.

(** A directory that does not exist: the exception, and the state as it
    was. *)
Example missing_directory_raises :
  process_directory processor (mkPath true ["nowhere"]) st0
  = (inl (FileNotFoundError (mkPath true ["nowhere"])), st0).
Proof. vm_compute. reflexivity. Qed.

(** C8, where the claim fails: readme.md has another extension; the
    scan leaves it out, and the run emits no warning: every record of
    its log is an INFO record. *)
Lemma other_extension_is_skipped_silently :
  "readme.md" ∈ scandir (Externals:=env) inbox_dir
  ∧ PyStr.lower (PyPath.suffix (PyPath.child inbox_dir "readme.md")) = ".md"
  ∧ (PyPath.child inbox_dir "readme.md" ∉ scan (Ext:=env) inbox_dir)
  ∧ match process_directory processor inbox_dir st0 with
    | (inr _, st') => Forall (λ ev, level_of ev = INFO) (log st')
    | _ => False
    end.
Proof.
  split; [apply (bool_decide_unpack _); by vm_compute|].
  split; [by vm_compute|].
  split; [apply (bool_decide_unpack _); by vm_compute|].
  vm_compute. by repeat constructor.
Qed.

(** On the POSIX flavour the patterns of the scan are matched as
    written: NOTES.TXT is not scanned, while [load_document], given its
    path, has a loader for it. *)
Example upper_case_extension_on_posix :
  PyStr.lower (PyPath.suffix (PyPath.child inbox_dir "NOTES.TXT")) = ".txt"
  ∧ scandir (Externals:=env) inbox_dir = ["NOTES.TXT"; "readme.md"]
  ∧ scan (Ext:=env) inbox_dir = [].
Proof. repeat split; by vm_compute. Qed.


Lemma scan_and_load_extensions_witness :
  (PyStr.lower (PyPath.suffix (PyPath.child inbox_dir "readme.md"))
     ∉ supported_extensions)
  ∧ load_document (Ext:=env) processor (PyPath.child inbox_dir "readme.md") st0
    = (inr [], add_log [UnsupportedFileType ".md"] st0)
  ∧ is_Some (choose_loader (PyStr.lower (PyPath.suffix (PyPath.child inbox_dir "NOTES.TXT")))).
Proof.
  destruct (scan_and_load_extensions (Ext:=env) processor inbox_dir st0)
    as (_ & _ & Hcase & Hwarn & _).
  assert (Hmd : PyStr.lower (PyPath.suffix (PyPath.child inbox_dir "readme.md"))
                ∉ supported_extensions).
  { apply (bool_decide_unpack _). by vm_compute. }
  split; [exact Hmd|]. split.
  - exact (proj1 (Hwarn (PyPath.child inbox_dir "readme.md") Hmd)).
  - apply (proj2 (Hcase (PyPath.child inbox_dir "NOTES.TXT"))).
    apply (bool_decide_unpack _). by vm_compute.
Defined.

End SampleRuns.

Section SplitterSamples.
Import Sample.




Lemma chunk_overlap_bound_witness :
  __init__ (Ext:=env) 10 3 st0 = (inr small_processor, add_log [Initialized 10 3] st0)
  ∧ SpecSplitter.segment 10 separators "hello world. this is a test"
    = ["hello "; "world. "; "this is a test"]
  ∧ SpecSplitter.split_text 10 3 "hello world. this is a test"
    = ["hello "; "lo world. "; "this is a test"]
  ∧ ∃ front copied r : string,
      SpecSplitter.segment 10 separators "hello world. this is a test" !! 1%nat = Some r
      ∧ "lo world. " = copied +:+ r
      ∧ "hello " = front +:+ copied
      ∧ Z.of_nat (String.length copied) ≤ Z.max 0 3
      ∧ (String.length copied ≤ SpecSplitter.shared_span "hello " "lo world. ")%nat.
Proof.
  assert (Hinit : __init__ (Ext:=env) 10 3 st0
                  = (inr small_processor, add_log [Initialized 10 3] st0))
    by (by vm_compute).
  split; [exact Hinit|].
  split; [by vm_compute|]. split; [by vm_compute|].
  destruct (chunk_overlap_bound splitter_check load exists_ ls 10 3 small_processor
              st0 _ st0 [greeting] Hinit) as (st' & _ & Hall).
  exact (proj2 (proj2 (Hall "hello world. this is a test"))
           0%nat "hello " "lo world. " eq_refl eq_refl).
Defined.

(** C2, where the claim fails: a text that repeats itself.  The window
    has no room to copy anything before the second chunk, and yet the
    first two chunks are the same ten characters, above the chunk_overlap
    of 3. *)
Lemma repeated_text_shares_more :
  match chunk_documents small_processor
          [mkDocument "abcdefghi abcdefghi abcdefghi" ∅] st0 with
  | (inr [a; b; c], _) =>
      page_content a = "abcdefghi " ∧ page_content b = "abcdefghi "
      ∧ page_content c = " abcdefghi"
      ∧ SpecSplitter.shared_span (page_content a) (page_content b) = 10%nat
      ∧ ¬ (Z.of_nat (SpecSplitter.shared_span (page_content a) (page_content b))
           ≤ chunk_overlap small_processor)
  | _ => False
  end.
Proof. vm_compute. repeat split; try reflexivity. intros H. by apply H. Qed.

(** Under a bound below 1 the chunks are the single characters. *)
Example zero_bound_chunks : SpecSplitter.split_text 0 0 "abc" = ["a"; "b"; "c"].
Proof. by vm_compute. Qed.

End SplitterSamples.

Lemma infer_document_type_range (filename : string) :
  _infer_document_type filename ∈ categories.
Proof.
  unfold _infer_document_type, categories.
  repeat (destruct (_ || _); [set_solver|]). set_solver.
Qed.

Lemma contains_append (needle pre s post : string) :
  PyStr.contains needle s = true →
  PyStr.contains needle (pre +:+ s +:+ post) = true.
Proof.
  rewrite !contains_spec. intros (a & b & ->).
  exists (pre +:+ a), (b +:+ post). by rewrite !append_assoc.
Qed.

Section MoreRuns.
Context {Ext : Externals}.
Implicit Types (self : DocumentProcessor) (st : state) (f : Path).

Lemma enrich_metadata_head (raw : list Document) f first rest :
  enrich_metadata raw f = first :: rest →
  metadata first !! "doc_type" = Some (VStr (_infer_document_type (PyPath.name f))).
Proof.
  intros Heq. apply (enrich_metadata_doc_type raw f 0). by rewrite Heq.
Qed.

(** what one iteration does to the chunks and to the three counters *)
Lemma file_step_effect self f acc s :
  ∃ evs s',
    file_step self f acc s = (evs, (acc ++ file_chunks self f)%list, s')
    ∧ total_chunks s' = total_chunks s + Z.of_nat (length (file_chunks self f))
    ∧ total_documents s'
      = total_documents s + (if counted self f then 1 else 0)
    ∧ avg_chunk_size s' = avg_chunk_size s
    ∧ document_types s'
      = match file_chunks self f with
        | [] => document_types s
        | _ :: _ =>
            let k := VStr (_infer_document_type (PyPath.name f)) in
            <[k := default 0 (document_types s !! k) + 1]> (document_types s)
        end.
Proof.
  unfold file_step, file_chunks, counted.
  destruct (load_outcome f) as [documents evs]. simpl.
  destruct documents as [|d documents].
  { eexists _, _. split; [by rewrite app_nil_r|]. repeat split; simpl; try done; lia. }
  destruct (split_documents _ _) as [e|raw].
  { eexists _, _. split; [by rewrite app_nil_r|]. repeat split; simpl; try done; lia. }
  destruct (enrich_metadata raw f) as [|first chunks] eqn:Hen.
  { eexists _, _. split; [done|]. simpl. repeat split; simpl; try done; lia. }
  rewrite (enrich_metadata_head _ _ _ _ Hen).
  eexists _, _. split; [done|]. by simpl.
Qed.


Lemma typed_cons self (k : value) f (files : list Path) :
  length (typed self k (f :: files))
  = ((if bool_decide (file_chunks self f ≠ []
                      ∧ VStr (_infer_document_type (PyPath.name f)) = k)
      then 1 else 0) + length (typed self k files))%nat.
Proof.
  unfold typed. rewrite filter_cons. case_decide as Hf.
  - by rewrite bool_decide_true.
  - by rewrite bool_decide_false.
Qed.

(** what the loop does to the chunks and to the counters *)
Lemma batch_effect self (files : list Path) acc s :
  ∃ evs s',
    batch self files acc s = (evs, (acc ++ (files ≫= file_chunks self))%list, s')
    ∧ total_chunks s'
      = total_chunks s + Z.of_nat (length (files ≫= file_chunks self))
    ∧ total_documents s'
      = total_documents s
        + Z.of_nat (length (filter (λ f, counted self f = true) files))
    ∧ avg_chunk_size s' = avg_chunk_size s
    ∧ (∀ k, default 0 (document_types s' !! k)
            = default 0 (document_types s !! k)
              + Z.of_nat (length (typed self k files)))
    ∧ (∀ k, is_Some (document_types s' !! k)
            → is_Some (document_types s !! k) ∨ typed self k files ≠ []).
Proof.
  revert acc s. induction files as [|f files IH]; intros acc s.
  - simpl. eexists _, _. split; [by rewrite app_nil_r|].
    split; [simpl; lia|]. split; [simpl; lia|]. split; [done|].
    split; [intros k; unfold typed; simpl; lia | by left].
  - cbn [batch]. rewrite bind_cons.
    destruct (file_step_effect self f acc s)
      as (evs1 & s1 & -> & Hc1 & Hd1 & Ha1 & Ht1).
    destruct (IH (acc ++ file_chunks self f)%list s1)
      as (evs2 & s2 & -> & Hc2 & Hd2 & Ha2 & Ht2 & Hk2).
    eexists _, _. split; [by rewrite app_assoc|].
    split; [rewrite Hc2, Hc1, length_app; lia|].
    split.
    { rewrite Hd2, Hd1, filter_cons.
      destruct (counted self f); simpl; lia. }
    split; [congruence|].
    assert (∀ k, default 0 (document_types s1 !! k)
                 = default 0 (document_types s !! k)
                   + (if bool_decide (file_chunks self f ≠ []
                                      ∧ VStr (_infer_document_type (PyPath.name f)) = k)
                      then 1 else 0)) as Hstep.
    { intros k. rewrite Ht1. destruct (file_chunks self f) as [|c cs].
      - rewrite bool_decide_false by (by intros [? _]). lia.
      - simpl. rewrite lookup_insert. case_decide as Hk.
        + subst k. rewrite bool_decide_true by done. simpl. lia.
        + rewrite bool_decide_false by (by intros [_ ?]). lia. }
    split.
    + intros k. rewrite Ht2, Hstep, typed_cons.
      destruct (bool_decide _); lia.
    + intros k Hsome. destruct (Hk2 k Hsome) as [Hs1 | Hrest].
      * rewrite Ht1 in Hs1. unfold typed. rewrite filter_cons.
        destruct (file_chunks self f) as [|c cs]; [by left|].
        simpl in Hs1. rewrite lookup_insert in Hs1. case_decide as Hk.
        -- right. by rewrite decide_True.
        -- by left.
      * right. unfold typed in *. rewrite filter_cons. by case_decide.
Qed.

Lemma process_directory_summary self (directory : Path) st :
  path_exists directory = true →
  ∃ evs s0 st',
    batch self (scan directory) [] ProcessingStats_new
    = (evs, scan directory ≫= file_chunks self, s0)
    ∧ process_directory self directory st
      = (inr (scan directory ≫= file_chunks self,
              finalize (scan directory ≫= file_chunks self) s0), st').
Proof.
  intros Hex. unfold process_directory. rewrite Hex. simpl.
  rewrite process_files_run.
  destruct (batch_effect self (scan directory) [] ProcessingStats_new)
    as (evs & s0 & Hb & _). rewrite Hb. simpl.
  by eexists _, _, _.
Qed.

Lemma finalize_fields acc s :
  total_documents (finalize acc s) = total_documents s
  ∧ total_chunks (finalize acc s) = total_chunks s
  ∧ document_types (finalize acc s) = document_types s.
Proof. by destruct acc. Qed.

(** C3.  When one file of the batch fails to load or to segment,
    [process_directory] still returns.  The chunks are those of the other
    files, each loaded, split and enriched as it is on its own, in scan
    order; total_documents, total_chunks and document_types count the
    other files only, so that total_documents is their number when each
    of them loads and splits; the result is that of the batch without the
    file; and the log holds an ERROR record naming the file. *)
Theorem batch_isolation self (directory : Path) (before after : list Path) f st :
  path_exists directory = true →
  scan directory = (before ++ f :: after)%list →
  fails_to_load f ∨ fails_to_segment self f →
  ∃ chunks s st' st'' e,
    process_directory self directory st = (inr (chunks, s), st')
    ∧ chunks = (before ++ after)%list ≫= file_chunks self
    ∧ total_documents s
      = Z.of_nat (length (filter (λ g, counted self g = true) (before ++ after)%list))
    ∧ total_chunks s = Z.of_nat (length chunks)
    ∧ (∀ k, default 0 (document_types s !! k)
            = Z.of_nat (length (typed self k (before ++ after)%list)))
    ∧ (Forall (λ g, counted self g = true) (before ++ after)%list →
       total_documents s = Z.of_nat (length before + length after))
    ∧ process_files self (before ++ after) st = (inr (chunks, s), st'')
    ∧ (ErrorLoading (PyPath.name f) e ∈ log st'
       ∨ FailedToProcess (PyPath.name f) e ∈ log st').
Proof.
  intros Hex Hscan Hfail. unfold process_directory. rewrite Hex, Hscan. simpl.
  rewrite !process_files_run, !batch_app. simpl.
  destruct (batch_effect self (before ++ after) [] ProcessingStats_new)
    as (evs0 & s0 & Hb & Hc & Hd & _ & Ht & _).
  rewrite batch_app in Hb.
  destruct (batch self before [] ProcessingStats_new) as [[evs1 acc1] s1].
  destruct (file_step_failure self f acc1 s1 Hfail) as (evs & e & -> & Hlog).
  destruct (batch self after acc1 s1) as [[evs2 acc2] s2].
  injection Hb as _ -> ->.
  destruct (finalize_fields ((before ++ after)%list ≫= file_chunks self) s0)
    as (Hfd & Hfc & Hft).
  eexists _, _, _, _, e. split; [done|]. split; [done|].
  rewrite Hfd, Hfc, Hft, Hc, Hd. simpl.
  split; [lia|]. split; [lia|].
  split. { intros k. rewrite Ht. simpl. rewrite lookup_empty. simpl. lia. }
  split.
  { assert (∀ files : list Path,
              Forall (λ g, counted self g = true) files →
              filter (λ g, counted self g = true) files = files) as Hfilter.
    { intros files Hall. induction Hall as [|g files Hg _ IH]; [done|].
      rewrite filter_cons_True by done. by rewrite IH. }
    intros Hall. rewrite (Hfilter _ Hall), length_app. simpl. lia. }
  split; [done|].
  repeat (rewrite ?elem_of_app, ?elem_of_cons).
  destruct Hlog; [left | right]; tauto.
Qed.

(** X1.  The chunks [process_directory] returns are, for the scanned
    files in scan order, the enriched chunks of each file that loaded and
    split; what one file yields does not depend on the others. *)
Theorem process_directory_chunks self (directory : Path) st :
  path_exists directory = true →
  ∃ s st',
    process_directory self directory st
    = (inr (scan directory ≫= file_chunks self, s), st').
Proof.
  intros Hex.
  destruct (process_directory_summary self directory st Hex)
    as (evs & s0 & st' & _ & ->). by eexists _, _.
Qed.

(** X2.  In the statistics returned, total_chunks is the length of the
    chunk list returned, and total_documents is the number of scanned
    files whose documents loaded and went through the splitter, which is
    at most the number of files scanned. *)
Theorem process_directory_totals self (directory : Path) st :
  path_exists directory = true →
  ∃ chunks s st',
    process_directory self directory st = (inr (chunks, s), st')
    ∧ total_chunks s = Z.of_nat (length chunks)
    ∧ total_documents s
      = Z.of_nat (length (filter (λ f, counted self f = true) (scan directory)))
    ∧ 0 ≤ total_documents s ≤ Z.of_nat (length (scan directory)).
Proof.
  intros Hex.
  destruct (process_directory_summary self directory st Hex)
    as (evs & s0 & st' & Hb & ->).
  destruct (batch_effect self (scan directory) [] ProcessingStats_new)
    as (evs' & s0' & Hb' & Hc & Hd & _).
  rewrite Hb in Hb'. injection Hb' as _ <-.
  destruct (finalize_fields (scan directory ≫= file_chunks self) s0)
    as (Hfd & Hfc & _).
  eexists _, _, _. split; [done|]. rewrite Hfd, Hfc, Hc, Hd. simpl.
  split; [lia|]. split; [lia|].
  pose proof (length_filter (λ f, counted self f = true) (scan directory)). lia.
Qed.

(** X3.  document_types counts, under each category, the scanned files
    that produced at least one chunk and whose name infers that category;
    every key is one of the six categories and every count is at least
    one. *)
Theorem process_directory_document_types self (directory : Path) st :
  path_exists directory = true →
  ∃ chunks s st',
    process_directory self directory st = (inr (chunks, s), st')
    ∧ (∀ k, default 0 (document_types s !! k)
            = Z.of_nat (length (typed self k (scan directory))))
    ∧ (∀ k v, document_types s !! k = Some v →
              1 ≤ v ∧ ∃ c, c ∈ categories ∧ k = VStr c).
Proof.
  intros Hex.
  destruct (process_directory_summary self directory st Hex)
    as (evs & s0 & st' & Hb & ->).
  destruct (batch_effect self (scan directory) [] ProcessingStats_new)
    as (evs' & s0' & Hb' & _ & _ & _ & Ht & Hk).
  rewrite Hb in Hb'. injection Hb' as _ <-.
  destruct (finalize_fields (scan directory ≫= file_chunks self) s0)
    as (_ & _ & Hft).
  eexists _, _, _. split; [done|]. rewrite Hft.
  assert (∀ k, default 0 (document_types s0 !! k)
               = Z.of_nat (length (typed self k (scan directory)))) as Hcount.
  { intros k. rewrite Ht. simpl. rewrite lookup_empty. simpl. lia. }
  split; [done|]. intros k v Hv.
  destruct (Hk k) as [Hempty | Hne]; [by rewrite Hv | |].
  { simpl in Hempty. rewrite lookup_empty in Hempty. by destruct Hempty. }
  specialize (Hcount k). rewrite Hv in Hcount. simpl in Hcount.
  destruct (typed self k (scan directory)) as [|f fs] eqn:Htyped; [done|].
  split; [simpl in Hcount; lia|].
  assert (f ∈ typed self k (scan directory)) as Hf by (rewrite Htyped; by left).
  unfold typed in Hf. apply list_elem_of_filter in Hf as [[_ <-] _].
  eexists. split; [apply infer_document_type_range | done].
Qed.


(** X4.  Every chunk [process_directory] returns carries the six fields
    of one scanned file: its path and name, the category inferred from
    the name, a chunk_index below total_chunks, and as chunk_size the
    length of the chunk's own content. *)
Theorem process_directory_chunk_metadata self (directory : Path) st :
  path_exists directory = true →
  ∃ chunks s st',
    process_directory self directory st = (inr (chunks, s), st')
    ∧ ∀ c, c ∈ chunks →
        ∃ f (i n : nat),
          f ∈ scan directory ∧ (i < n)%nat
          ∧ metadata c !! "source" = Some (VStr (PyPath.str f))
          ∧ metadata c !! "filename" = Some (VStr (PyPath.name f))
          ∧ metadata c !! "doc_type"
            = Some (VStr (_infer_document_type (PyPath.name f)))
          ∧ metadata c !! "chunk_index" = Some (VInt (Z.of_nat i))
          ∧ metadata c !! "total_chunks" = Some (VInt (Z.of_nat n))
          ∧ metadata c !! "chunk_size" = Some (VInt (content_len c)).
Proof.
  intros Hex.
  destruct (process_directory_summary self directory st Hex)
    as (evs & s & st' & _ & ->).
  eexists _, _, _. split; [done|]. intros c Hc.
  apply list_elem_of_bind in Hc as (f & Hc & Hf).
  unfold file_chunks in Hc.
  destruct (load_outcome f).1 as [|d documents]; [by apply elem_of_nil in Hc|].
  destruct (split_documents _ _) as [e|raw]; [by apply elem_of_nil in Hc|].
  apply list_elem_of_lookup in Hc as [i Hi].
  pose proof (lookup_lt_Some _ _ _ Hi) as Hlt.
  rewrite enrich_metadata_length in Hlt.
  pose proof (enrich_metadata_doc_type _ _ _ _ Hi) as Hty.
  destruct (enrich_metadata_lookup _ _ _ _ Hi) as (c0 & Hc0 & _ & Hidx & Htot & Hsz).
  exists f, i, (length raw). split; [done|]. split; [done|].
  unfold enrich_metadata in Hi. rewrite list_lookup_imap, Hc0 in Hi.
  injection Hi as <-. simpl.
  split; [by apply lookup_union_Some_l|]. split; [by apply lookup_union_Some_l|].
  done.
Qed.

(** X5.  The average is computed only when there is a chunk: with no
    chunk avg_chunk_size stays 0.0, and otherwise it is the float
    nearest to the summed length of the contents of the returned chunks
    divided by their number, the quotient of the two ints rounded once;
    it is 0.0 when every chunk is empty. *)
Theorem process_directory_average self (directory : Path) st :
  path_exists directory = true →
  ∃ chunks s st',
    process_directory self directory st = (inr (chunks, s), st')
    ∧ total_chunks s = Z.of_nat (length chunks)
    ∧ (chunks = [] → avg_chunk_size s = PyFloat.zero)
    ∧ (chunks ≠ [] →
       avg_chunk_size s
       = PyFloat.truediv (foldr (λ c acc, content_len c + acc) 0 chunks)
                         (total_chunks s))
    ∧ (chunks ≠ [] → Forall (λ c, page_content c = "") chunks →
       avg_chunk_size s = PyFloat.zero).
Proof.
  intros Hex.
  destruct (process_directory_summary self directory st Hex)
    as (evs & s0 & st' & Hb & ->).
  destruct (batch_effect self (scan directory) [] ProcessingStats_new)
    as (evs' & s0' & Hb' & Hn & _ & Ha & _).
  rewrite Hb in Hb'. injection Hb' as _ <-.
  eexists _, _, _. split; [done|].
  assert (total_chunks (finalize (scan directory ≫= file_chunks self) s0)
          = Z.of_nat (length (scan directory ≫= file_chunks self))) as Hlen.
  { by destruct (scan directory ≫= file_chunks self); simpl; rewrite Hn. }
  split; [done|]. rewrite Hlen.
  destruct (scan directory ≫= file_chunks self) as [|c chunks].
  - split; [by intros _|]. split; intros; done.
  - split; [done|]. split; [done|].
    intros _ Hempty. cbn [finalize avg_chunk_size]. unfold average.
    assert (total_len (c :: chunks) = 0) as ->.
    { clear -Hempty. induction Hempty as [|d l Hd _ IH]; [done|].
      cbn [total_len foldr] in *. unfold content_len at 1. rewrite Hd. simpl.
      exact IH. }
    done.
Qed.

(** X6.  [load_document] never raises.  It returns a list and logs one
    record; the list is non-empty only when the extension, lower-cased,
    has a loader and that loader returned it, and a WARNING or ERROR
    record comes with the empty list. *)
Theorem load_document_never_raises self f st :
  ∃ documents ev,
    load_document self f st = (inr documents, add_log [ev] st)
    ∧ (documents ≠ [] →
       ∃ loader,
         choose_loader (PyStr.lower (PyPath.suffix f)) = Some loader
         ∧ loader_load loader (PyPath.str f) = inr documents)
    ∧ (level_of ev ≠ INFO → documents = []).
Proof.
  rewrite load_document_run. unfold load_outcome.
  destruct (choose_loader _) as [loader|] eqn:Hl.
  - destruct (loader_load _ _) as [e|documents] eqn:Hload.
    + eexists _, _. split; [done|]. by split.
    + eexists _, _. split; [done|]. split; [by eauto | done].
  - eexists _, _. split; [done|]. by split.
Qed.

(** X27.  [process_banking_documents] builds a processor for 1000 and
    200 and processes the directory with it.  It raises in two cases
    only: the exception of the splitter's constructor, before anything
    is logged, and FileNotFoundError for a directory that does not
    exist, after the record of the initialisation.  Otherwise it returns
    the chunks of the scanned files. *)
Theorem process_banking_documents_outcome (docs_dir : Path) st :
  match new_splitter 1000 200 separators with
  | inl e => process_banking_documents docs_dir st = (inl e, st)
  | inr splitter =>
      if path_exists docs_dir
      then ∃ s st',
             process_banking_documents docs_dir st
             = (inr (scan docs_dir ≫= file_chunks (mkProcessor _ 1000 200 splitter), s),
                st')
      else process_banking_documents docs_dir st
           = (inl (FileNotFoundError docs_dir), add_log [Initialized 1000 200] st)
  end.
Proof.
  unfold process_banking_documents, mbind, M_bind. rewrite init_run.
  destruct (new_splitter 1000 200 separators) as [e|splitter]; [done|].
  destruct (path_exists docs_dir) eqn:Hex.
  - destruct (process_directory_summary (mkProcessor _ 1000 200 splitter) docs_dir
                (add_log [Initialized 1000 200] st) Hex)
      as (evs & s & st' & _ & ->).
    by eexists _, _.
  - unfold process_directory. by rewrite Hex.
Qed.

End MoreRuns.

Lemma lower_char_idempotent (c : ascii) :
  PyStr.lower_char (PyStr.lower_char c) = PyStr.lower_char c.
Proof. by destruct c as [[] [] [] [] [] [] [] []]. Qed.

Lemma lower_idempotent (s : string) : PyStr.lower (PyStr.lower s) = PyStr.lower s.
Proof.
  induction s as [|c s IH]; [done|]. simpl. by rewrite lower_char_idempotent, IH.
Qed.

(** X7.  [_infer_document_type] returns one of the six categories and
    nothing else; the letter case of the name does not matter; and a name
    classified account_info stays so whatever is written before or after
    it. *)
Theorem infer_document_type_categories (filename pre post : string) :
  _infer_document_type filename ∈ categories
  ∧ _infer_document_type (PyStr.lower filename) = _infer_document_type filename
  ∧ (_infer_document_type filename = "account_info" →
     _infer_document_type (pre +:+ filename +:+ post) = "account_info").
Proof.
  split; [apply infer_document_type_range|]. split.
  { unfold _infer_document_type. by rewrite lower_idempotent. }
  unfold _infer_document_type. rewrite !lower_append.
  destruct (PyStr.contains "account" (PyStr.lower filename)) eqn:Ha.
  { intros _. by rewrite (contains_append _ _ _ _ Ha). }
  destruct (PyStr.contains "product" (PyStr.lower filename)) eqn:Hp.
  { intros _. rewrite (contains_append _ _ _ _ Hp). by rewrite orb_true_r. }
  simpl. by repeat (destruct (_ || _); [done|]).
Qed.


(** X9.  On the store, [enrich_metadata] writes only to the dictionaries
    of the chunks it is given: a dictionary at any other address is left
    as it was. *)
Theorem enrich_metadata_frame (chunks : list Heap.DocumentRef) (source_file : Path)
    (σ : gmap Heap.loc (gmap string value)) (l : Heap.loc) :
  l ∉ Heap.ref_metadata <$> chunks →
  (Heap.enrich_metadata chunks source_file σ).2 !! l = σ !! l.
Proof.
  intros Hl. unfold Heap.enrich_metadata. simpl.
  by rewrite loop_lookup, last_write_not_in.
Qed.

Section MoreSampleRuns.
Import Sample.

(** The batch of the claim: three documents, the second fails to load;
    the other two load and split, and two documents are counted. *)
Lemma batch_isolation_witness :
  path_exists (Externals:=env) docs_dir = true
  ∧ scan (Ext:=env) docs_dir = ([account_types] ++ fee_schedule :: [security_policy])%list
  ∧ fails_to_load (Ext:=env) fee_schedule
  ∧ ∃ chunks s st' e,
      process_directory processor docs_dir st0 = (inr (chunks, s), st')
      ∧ chunks = (file_chunks processor account_types
                  ++ file_chunks processor security_policy)%list
      ∧ total_documents s = 2
      ∧ total_chunks s = Z.of_nat (length chunks)
      ∧ (ErrorLoading (PyPath.name fee_schedule) e ∈ log st'
         ∨ FailedToProcess (PyPath.name fee_schedule) e ∈ log st').
Proof.
  assert (Hex : path_exists (Externals:=env) docs_dir = true) by (by vm_compute).
  assert (Hscan : scan (Ext:=env) docs_dir
                  = ([account_types] ++ fee_schedule :: [security_policy])%list)
    by (by vm_compute).
  assert (Hfail : fails_to_load (Ext:=env) fee_schedule).
  { exists TextLoader, (LibraryError "cannot decode"). split; by vm_compute. }
  assert (Hall : Forall (λ g, counted processor g = true)
                   ([account_types] ++ [security_policy])%list).
  { repeat constructor; by vm_compute. }
  split; [exact Hex|]. split; [exact Hscan|]. split; [exact Hfail|].
  destruct (batch_isolation (Ext:=env) processor docs_dir
              [account_types] [security_policy] fee_schedule st0 Hex Hscan
              (or_introl Hfail))
    as (chunks & s & st' & st'' & e & Hrun & Hchunks & _ & Htotal & _ & Hcount & _ & Hlog).
  exists chunks, s, st', e. split; [exact Hrun|]. split.
  { rewrite Hchunks. cbn [app]. rewrite !bind_cons. cbn [mbind list_bind].
    by rewrite app_nil_r. }
  split; [exact (Hcount Hall)|]. split; [exact Htotal | exact Hlog].
Defined.

Lemma process_directory_chunks_witness :
  path_exists (Externals:=env) docs_dir = true
  ∧ ∃ s st',
      process_directory processor docs_dir st0
      = (inr (scan (Ext:=env) docs_dir ≫= file_chunks processor, s), st').
Proof.
  assert (Hex : path_exists (Externals:=env) docs_dir = true) by (by vm_compute).
  split; [exact Hex|].
  exact (process_directory_chunks (Ext:=env) processor docs_dir st0 Hex).
Defined.

Lemma process_directory_totals_witness :
  path_exists (Externals:=env) drafts_dir = true
  ∧ ∃ chunks s st',
      process_directory processor drafts_dir st0 = (inr (chunks, s), st')
      ∧ total_chunks s = Z.of_nat (length chunks)
      ∧ total_documents s
        = Z.of_nat (length (filter (λ f, counted processor f = true) (scan (Ext:=env) drafts_dir)))
      ∧ 0 ≤ total_documents s ≤ Z.of_nat (length (scan (Ext:=env) drafts_dir)).
Proof.
  assert (Hex : path_exists (Externals:=env) drafts_dir = true) by (by vm_compute).
  split; [exact Hex|].
  exact (process_directory_totals (Ext:=env) processor drafts_dir st0 Hex).
Defined.

Lemma process_directory_document_types_witness :
  path_exists (Externals:=env) docs_dir = true
  ∧ ∃ chunks s st',
      process_directory processor docs_dir st0 = (inr (chunks, s), st')
      ∧ (∀ k, default 0 (document_types s !! k)
              = Z.of_nat (length (typed processor k (scan (Ext:=env) docs_dir))))
      ∧ (∀ k v, document_types s !! k = Some v →
                1 ≤ v ∧ ∃ c, c ∈ categories ∧ k = VStr c).
Proof.
  assert (Hex : path_exists (Externals:=env) docs_dir = true) by (by vm_compute).
  split; [exact Hex|].
  exact (process_directory_document_types (Ext:=env) processor docs_dir st0 Hex).
Defined.

Lemma process_directory_chunk_metadata_witness :
  path_exists (Externals:=env) docs_dir = true
  ∧ ∃ chunks s st',
      process_directory processor docs_dir st0 = (inr (chunks, s), st')
      ∧ ∀ c, c ∈ chunks →
          ∃ f (i n : nat),
            f ∈ scan (Ext:=env) docs_dir ∧ (i < n)%nat
            ∧ metadata c !! "source" = Some (VStr (PyPath.str f))
            ∧ metadata c !! "filename" = Some (VStr (PyPath.name f))
            ∧ metadata c !! "doc_type"
              = Some (VStr (_infer_document_type (PyPath.name f)))
            ∧ metadata c !! "chunk_index" = Some (VInt (Z.of_nat i))
            ∧ metadata c !! "total_chunks" = Some (VInt (Z.of_nat n))
            ∧ metadata c !! "chunk_size" = Some (VInt (content_len c)).
Proof.
  assert (Hex : path_exists (Externals:=env) docs_dir = true) by (by vm_compute).
  split; [exact Hex|].
  exact (process_directory_chunk_metadata (Ext:=env) processor docs_dir st0 Hex).
Defined.

Lemma process_directory_average_witness :
  path_exists (Externals:=env) docs_dir = true
  ∧ ∃ chunks s st',
      process_directory processor docs_dir st0 = (inr (chunks, s), st')
      ∧ total_chunks s = Z.of_nat (length chunks)
      ∧ (chunks = [] → avg_chunk_size s = PyFloat.zero)
      ∧ (chunks ≠ [] →
         avg_chunk_size s
         = PyFloat.truediv (foldr (λ c acc, content_len c + acc) 0 chunks)
                           (total_chunks s))
      ∧ (chunks ≠ [] → Forall (λ c, page_content c = "") chunks →
         avg_chunk_size s = PyFloat.zero).
Proof.
  assert (Hex : path_exists (Externals:=env) docs_dir = true) by (by vm_compute).
  split; [exact Hex|].
  exact (process_directory_average (Ext:=env) processor docs_dir st0 Hex).
Defined.

(** two chunks of 57 characters average to 57.0, which is 57 * 2^47 * 2^-47;
    8 / 3 is 0x1.5555555555555p+1 and (2^60 + 1) / 1 is rounded to 2^60 *)
Example average_sample :
  match process_directory processor docs_dir st0 with
  | (inr (chunks, s), _) => (map content_len chunks, avg_chunk_size s)
  | _ => ([], PyFloat.zero)
  end = ([57; 57], SpecFloat.S754_finite false 8022036836253696 (-47))
  ∧ PyFloat.truediv 8 3 = SpecFloat.S754_finite false 6004799503160661 (-51)
  ∧ PyFloat.truediv (2 ^ 60 + 1) 1 = SpecFloat.S754_finite false 4503599627370496 8.
Proof. repeat split; by vm_compute. Qed.

Lemma infer_document_type_categories_witness :
  _infer_document_type "accounts.txt" = "account_info"
  ∧ _infer_document_type "old_accounts.txt.bak" = "account_info".
Proof.
  assert (H : _infer_document_type "accounts.txt" = "account_info") by reflexivity.
  split; [exact H|].
  exact (proj2 (proj2 (infer_document_type_categories "accounts.txt" "old_" ".bak")) H).
Defined.


Lemma enrich_metadata_frame_witness :
  (3%positive ∉ Heap.ref_metadata <$> two_chunks)
  ∧ (Heap.enrich_metadata two_chunks fees_txt ∅).2 !! 3%positive
    = (∅ : gmap Heap.loc (gmap string value)) !! 3%positive.
Proof.
  assert (H : 3%positive ∉ Heap.ref_metadata <$> two_chunks).
  { apply (bool_decide_unpack _). by vm_compute. }
  split; [exact H|].
  exact (enrich_metadata_frame two_chunks fees_txt ∅ 3%positive H).
Defined.

End MoreSampleRuns.

(** ** Configuration *)

Section Strip.
Import PyText.

Lemma rstrip_append_space (s ws : string) :
  blank ws → rstrip (s +:+ ws) = rstrip s.
Proof.
  intros Hws. assert (rstrip ws = "") as Hr.
  { unfold blank in Hws. induction ws as [|c ws IH]; [done|].
    simpl in *. destruct (is_space c); [|done]. by rewrite (IH Hws). }
  induction s as [|c s IH]; [by rewrite append_nil_l|].
  rewrite append_cons. simpl. by rewrite IH.
Qed.

Lemma lstrip_append_space (ws s : string) :
  blank ws → lstrip (ws +:+ s) = lstrip s.
Proof.
  unfold blank. induction ws as [|c ws IH]; [done|].
  rewrite append_cons. simpl. destruct (is_space c); [apply IH | done].
Qed.

Lemma lstrip_idempotent s : lstrip (lstrip s) = lstrip s.
Proof.
  induction s as [|c s IH]; [done|]. simpl.
  destruct (is_space c) eqn:Hc; [done|]. simpl. by rewrite Hc.
Qed.

Lemma rstrip_idempotent s : rstrip (rstrip s) = rstrip s.
Proof.
  induction s as [|c s IH]; [done|]. simpl.
  destruct (rstrip s) as [|c' r] eqn:Hr.
  - destruct (is_space c) eqn:Hc; [done|]. simpl. by rewrite Hc.
  - simpl in *. by rewrite IH.
Qed.

(** what [rstrip] returns starts as its argument does *)
Lemma rstrip_head c s c' r : rstrip (String c s) = String c' r → c' = c.
Proof. simpl. destruct (rstrip s); [destruct (is_space c)|]; congruence. Qed.

Lemma lstrip_rstrip s : lstrip s = s → lstrip (rstrip s) = rstrip s.
Proof.
  destruct s as [|c s]; [done|]. simpl lstrip at 1.
  destruct (is_space c) eqn:Hc.
  - intros Heq. exfalso.
    assert (String.length (lstrip s) ≤ String.length s)%nat as Hle.
    { clear. induction s as [|c s IH]; simpl; [lia|].
      destruct (is_space c); simpl; lia. }
    rewrite Heq in Hle. simpl in Hle. lia.
  - intros _. destruct (rstrip (String c s)) as [|c' r] eqn:Hr; [done|].
    apply rstrip_head in Hr as Hc'. subst c'. simpl. by rewrite Hc.
Qed.

Lemma strip_idempotent s : strip (strip s) = strip s.
Proof.
  unfold strip. rewrite (lstrip_rstrip (lstrip s)) by apply lstrip_idempotent.
  apply rstrip_idempotent.
Qed.

End Strip.

(** X10.  [validate_api_key] rejects exactly the placeholder as written
    and the strings that are blank after stripping; any other value is
    accepted and returned stripped, so an accepted key is never empty
    and has no white space at either end. *)
Theorem validate_api_key_outcome (v : string) :
  match GeminiConfig.validate_api_key v with
  | inl _ => v = GeminiConfig.placeholder ∨ PyText.strip v = ""
  | inr key =>
      v ≠ GeminiConfig.placeholder
      ∧ key = PyText.strip v ∧ key ≠ "" ∧ PyText.strip key = key
  end.
Proof.
  unfold GeminiConfig.validate_api_key.
  destruct (String.eqb_spec v GeminiConfig.placeholder); [by left|].
  destruct (String.eqb_spec (PyText.strip v) ""); [by right|].
  repeat split; try done. apply strip_idempotent.
Qed.

(** X11.  The placeholder between white space passes [validate_api_key],
    which then returns the placeholder itself: the check for it comes
    before the strip. *)
Theorem validate_api_key_padded_placeholder (before after : string) :
  PyText.blank before → PyText.blank after →
  before +:+ after ≠ "" →
  GeminiConfig.validate_api_key (before +:+ GeminiConfig.placeholder +:+ after)
  = inr GeminiConfig.placeholder
  ∧ ∃ e, GeminiConfig.validate_api_key GeminiConfig.placeholder = inl e.
Proof.
  intros Hb Ha Hne. split; [|by eexists].
  unfold GeminiConfig.validate_api_key.
  assert (PyText.strip (before +:+ GeminiConfig.placeholder +:+ after)
          = GeminiConfig.placeholder) as Hstrip.
  { unfold PyText.strip. rewrite lstrip_append_space by done.
    replace (PyText.lstrip (GeminiConfig.placeholder +:+ after))
      with (GeminiConfig.placeholder +:+ after) by done.
    by rewrite rstrip_append_space. }
  rewrite Hstrip.
  destruct (String.eqb_spec (before +:+ GeminiConfig.placeholder +:+ after)
              GeminiConfig.placeholder) as [Heq|_]; [|done].
  exfalso. apply (f_equal String.length) in Heq.
  rewrite !length_append in Heq.
  destruct before, after; simpl in *; try done; lia.
Qed.

(** a key made of a no-break space and a next-line control is blank *)
Example no_break_space_key_is_blank :
  GeminiConfig.validate_api_key
    (String (ascii_of_nat 160) (String (ascii_of_nat 133) ""))
  = inl (ValueError "API key cannot be empty")
  ∧ GeminiConfig.validate_api_key
      (String (ascii_of_nat 160) ("key" +:+ String (ascii_of_nat 133) ""))
    = inr "key".
Proof. split; by vm_compute. Qed.

Lemma validate_api_key_padded_placeholder_witness :
  PyText.blank " " ∧ PyText.blank ""
  ∧ GeminiConfig.validate_api_key " your_gemini_api_key_here"
    = inr "your_gemini_api_key_here".
Proof.
  assert (H1 : PyText.blank " ") by reflexivity.
  assert (H2 : PyText.blank "") by reflexivity.
  split; [exact H1|]. split; [exact H2|].
  exact (proj1 (validate_api_key_padded_placeholder " " "" H1 H2 ltac:(done))).
Defined.

(** ** The Gemini client *)

Lemma contains_upper_OK (s : string) :
  PyStr.contains "OK" s = true → PyStr.contains "ok" (PyStr.lower s) = true.
Proof.
  rewrite !contains_spec. intros (pre & post & ->).
  exists (PyStr.lower pre), (PyStr.lower post). by rewrite !lower_append.
Qed.

Lemma startswith_cons (a b : ascii) (p s : string) :
  PyStr.startswith (String a p) (String b s) = Ascii.eqb a b && PyStr.startswith p s.
Proof. reflexivity. Qed.

Lemma contains_cons (p : string) (c : ascii) (s : string) :
  PyStr.contains p (String c s) = PyStr.startswith p (String c s) || PyStr.contains p s.
Proof. reflexivity. Qed.

Lemma endswith_cons (p : string) (c : ascii) (s : string) :
  PyStr.endswith p (String c s) = String.eqb p (String c s) || PyStr.endswith p s.
Proof. reflexivity. Qed.

Lemma contains_ok_after (p s : string) :
  PyStr.contains "ok" p = false → PyStr.endswith "o" p = false →
  PyStr.contains "ok" (p +:+ s) = PyStr.contains "ok" s.
Proof.
  induction p as [|c p IH]; intros Hc He; [by rewrite append_nil_l|].
  rewrite append_cons, contains_cons.
  rewrite contains_cons in Hc. rewrite endswith_cons in He.
  apply orb_false_iff in Hc as [Hst Hc]. apply orb_false_iff in He as [Heq He].
  rewrite (IH Hc He).
  replace (PyStr.startswith "ok" (String c (p +:+ s))) with false; [done|].
  rewrite startswith_cons in *.
  destruct (Ascii.eqb_spec "o" c) as [<-|]; [|done].
  destruct p as [|d p]; [done|].
  rewrite append_cons. rewrite startswith_cons in *.
  by rewrite andb_true_l in Hst.
Qed.

Lemma contains_ok_before (s : string) :
  PyStr.contains "ok" (s +:+ ")") = PyStr.contains "ok" s.
Proof.
  induction s as [|c s IH]; [done|].
  rewrite append_cons, !contains_cons, IH. f_equal.
  rewrite !startswith_cons. f_equal.
  destruct s as [|d s]; [by rewrite append_nil_l | by rewrite append_cons].
Qed.

Ltac same_world :=
  unfold GeminiClient.add_log, GeminiClient.set_remote, GeminiClient.set_history,
    GeminiClient.set_client; simpl;
  rewrite <- ?app_assoc; reflexivity.

Section ClientRuns.
Import GeminiClient.
Context {G : GenAI}.

Lemma set_remote_same (w : world) : set_remote (remote w) w = w.
Proof. by destruct w. Qed.

Lemma remote_add_log (evs : list event) (w : world) :
  remote (add_log evs w) = remote w.
Proof. reflexivity. Qed.

Lemma add_log_nil (w : world) : add_log [] w = w.
Proof. destruct w. unfold add_log. simpl. by rewrite app_nil_r. Qed.

(** what [generate_response] does, case by case *)
Lemma generate_response_effect self prompt temperature max_tokens instruction w :
  ∃ reply evs r,
    generate_response self prompt temperature max_tokens instruction w
    = (inr reply, add_log evs (set_remote r w))
    ∧ (evs = [SendingRequest (String.length prompt);
              ReceivedResponse (String.length reply)]
       ∨ ∃ e, reply = apology_with e
              ∧ (evs = [ErrorGenerating (exn_str e)] ∧ r = remote w
                 ∨ evs = [SendingRequest (String.length prompt);
                          ErrorGenerating (exn_str e)])).
Proof.
  unfold generate_response, try_except, mbind, W_bind, call, raise, mret, W_ret,
    request, logger.
  destruct (new_generation_config _ _ _) as [e|generation_config].
  { exists (apology_with e), [ErrorGenerating (exn_str e)], (remote w).
    rewrite set_remote_same. split; [done|]. right. exists e. by split; [|left]. }
  simpl.
  destruct (generate_content _ _ _ _) as [[e|response] r] eqn:Hg; simpl.
  { exists (apology_with e), [SendingRequest (String.length prompt);
                              ErrorGenerating (exn_str e)], r.
    split; [same_world|]. right. exists e. by split; [|right]. }
  destruct (text response) as [e|response_text]; simpl.
  { exists (apology_with e), [SendingRequest (String.length prompt);
                              ErrorGenerating (exn_str e)], r.
    split; [same_world|]. right. exists e. by split; [|right]. }
  exists response_text, [SendingRequest (String.length prompt);
                         ReceivedResponse (String.length response_text)], r.
  split; [same_world | by left].
Qed.

(** X12.  [generate_response] never raises.  When the generation
    config is built, the request returns and the text of the response
    can be read, it returns that text, after a DEBUG record with the
    length of the prompt and an INFO record with the length of the text.
    When one of the three raises, it returns the apology that carries
    the text of the exception, after an ERROR record with that text.
    The request is made once, for the prompt under the system
    instruction, and only when the generation config was built.  The
    global client, the global config and the conversation history are
    left alone. *)
Theorem generate_response_never_raises self prompt temperature max_tokens
    instruction w :
  generate_response self prompt temperature max_tokens instruction w
  = match new_generation_config
            (or_float temperature
               (ModelConfig.temperature (AppConfig.model (config self))))
            (or_int max_tokens
               (ModelConfig.max_tokens (AppConfig.model (config self))))
            (ModelConfig.top_p (AppConfig.model (config self))) with
    | inl e => (inr (apology_with e), add_log [ErrorGenerating (exn_str e)] w)
    | inr generation_config =>
        match generate_content (model self)
                (with_system_instruction instruction prompt)
                generation_config (remote w) with
        | (inl e, r) =>
            (inr (apology_with e),
             add_log [SendingRequest (String.length prompt);
                      ErrorGenerating (exn_str e)] (set_remote r w))
        | (inr response, r) =>
            match text response with
            | inl e =>
                (inr (apology_with e),
                 add_log [SendingRequest (String.length prompt);
                          ErrorGenerating (exn_str e)] (set_remote r w))
            | inr reply =>
                (inr reply,
                 add_log [SendingRequest (String.length prompt);
                          ReceivedResponse (String.length reply)] (set_remote r w))
            end
        end
    end
  ∧ ∃ reply w',
      generate_response self prompt temperature max_tokens instruction w
      = (inr reply, w')
      ∧ _gemini_client w' = _gemini_client w
      ∧ conversation_history w' = conversation_history w
      ∧ global_config w' = global_config w.
Proof.
  split.
  - unfold generate_response, try_except, mbind, W_bind, call, raise, mret, W_ret,
      request, logger.
    destruct (new_generation_config _ _ _) as [e|generation_config]; [done|].
    simpl.
    destruct (generate_content _ _ _ _) as [[e|response] r]; simpl; [same_world|].
    destruct (text response) as [e|reply]; simpl; same_world.
  - destruct (generate_response_effect self prompt temperature max_tokens instruction w)
      as (reply & evs & r & -> & _).
    by eexists _, _.
Qed.

(** X13.  A temperature of zero, a max_tokens of zero and an empty
    system instruction are taken for absent: the configured temperature
    and max_tokens are used and the prompt is sent as it is. *)
Theorem zero_counts_as_absent self prompt messages (temperature : Q) w :
  (temperature == 0)%Q →
  generate_response self prompt (Some temperature) (Some 0) (Some "") w
  = generate_response self prompt None None None w
  ∧ generate_with_history self messages (Some temperature) (Some 0) w
    = generate_with_history self messages None None w.
Proof.
  intros Hz. unfold generate_response, generate_with_history, or_float, or_int.
  assert (Qnum temperature = 0) as -> by (unfold Qeq in Hz; simpl in Hz; lia).
  done.
Qed.

(** X14.  [test_connection] never raises and never takes its except
    branch: it returns whether the text [generate_response] returned
    contains ok in any letter case, and logs success or a warning
    accordingly. *)
Theorem test_connection_outcome self w :
  ∃ reply w1,
    generate_response self test_prompt None (Some 10) None w = (inr reply, w1)
    ∧ test_connection self w
      = (inr (PyStr.contains "ok" (PyStr.lower reply)),
         add_log [if PyStr.contains "ok" (PyStr.lower reply)
                  then ConnectionTestSuccess
                  else ConnectionTestUnexpected reply] w1).
Proof.
  destruct (generate_response_effect self test_prompt None (Some 10) None w)
    as (reply & evs & r & Hrun & _).
  exists reply, (add_log evs (set_remote r w)). split; [done|].
  unfold test_connection, try_except, mbind, W_bind. rewrite Hrun.
  destruct (PyStr.contains "ok" (PyStr.lower reply)) eqn:Hok.
  - by rewrite orb_true_r.
  - destruct (PyStr.contains "OK" reply) eqn:HOK; [|done].
    apply contains_upper_OK in HOK. congruence.
Qed.

Lemma apology_with_ok (e : exn) :
  PyStr.contains "ok" (PyStr.lower (apology_with e))
  = PyStr.contains "ok" (PyStr.lower (exn_str e)).
Proof.
  unfold apology_with. rewrite !lower_append.
  rewrite !contains_ok_after by (by vm_compute).
  apply contains_ok_before.
Qed.

(** X15.  When the request of [test_connection] raises, the function
    does not report a failure by itself: it returns True exactly when
    the text of the exception contains ok in some letter case. *)
Theorem test_connection_on_failure self w generation_config e r :
  new_generation_config
    (ModelConfig.temperature (AppConfig.model (config self))) 10
    (ModelConfig.top_p (AppConfig.model (config self))) = inr generation_config →
  generate_content (model self) test_prompt generation_config (remote w)
  = (inl e, r) →
  ∃ w', test_connection self w
        = (inr (PyStr.contains "ok" (PyStr.lower (exn_str e))), w').
Proof.
  intros Hc Hg.
  assert (generate_response self test_prompt None (Some 10) None w
          = (inr (apology_with e),
             add_log [SendingRequest (String.length test_prompt);
                      ErrorGenerating (exn_str e)] (set_remote r w))) as Hrun.
  { unfold generate_response, try_except, mbind, W_bind, call, raise, mret, W_ret,
      request, logger, or_float, or_int.
    cbn [Z.eqb]. rewrite Hc. cbn [with_system_instruction].
    rewrite remote_add_log, Hg. f_equal. same_world. }
  unfold test_connection, try_except, mbind, W_bind. rewrite Hrun.
  rewrite apology_with_ok.
  destruct (PyStr.contains "ok" (PyStr.lower (exn_str e))) eqn:Hok.
  - rewrite orb_true_r. by eexists.
  - destruct (PyStr.contains "OK" (apology_with e)) eqn:HOK; [|by eexists].
    apply contains_upper_OK in HOK. rewrite apology_with_ok in HOK. congruence.
Qed.

Lemma replay_run chat (msg : message) w :
  replay chat msg w
  = match getitem msg "role" with
    | inl e => (inl e, w)
    | inr role =>
        if String.eqb role "user"
        then match getitem msg "content" with
             | inl e => (inl e, w)
             | inr content =>
                 match send_message chat content None (remote w) with
                 | (inl e, r) => (inl e, set_remote r w)
                 | (inr _, r) => (inr tt, set_remote r w)
                 end
             end
        else (inr tt, w)
    end.
Proof.
  unfold replay, call, raise, request, mbind, W_bind, mret, W_ret.
  destruct (getitem msg "role") as [e|role]; [done|].
  destruct (String.eqb role "user"); [|done].
  destruct (getitem msg "content") as [e|content]; [done|].
  by destruct (send_message chat content None (remote w)) as [[e|response] r].
Qed.

(** the loop of [generate_with_history] only talks to the service *)
Lemma replay_frame chat (messages : list message) w :
  ∃ result r, for_each messages (replay chat) w = (result, set_remote r w).
Proof.
  revert w. induction messages as [|msg messages IH]; intros w.
  { exists (inr tt), (remote w). by rewrite set_remote_same. }
  cbn [for_each]. unfold mbind, W_bind. rewrite replay_run.
  destruct (getitem msg "role") as [e|role].
  { exists (inl e), (remote w). by rewrite set_remote_same. }
  destruct (String.eqb role "user"); [|apply IH].
  destruct (getitem msg "content") as [e|content].
  { exists (inl e), (remote w). by rewrite set_remote_same. }
  destruct (send_message chat content None (remote w)) as [[e|response] r].
  { by exists (inl e), r. }
  destruct (IH (set_remote r w)) as (result & r' & ->).
  by exists result, r'.
Qed.

Lemma generate_with_history_effect self messages temperature max_tokens w :
  ∃ reply evs r,
    generate_with_history self messages temperature max_tokens w
    = (inr reply, add_log evs (set_remote r w))
    ∧ (evs = [] ∨ ∃ e, reply = apology ∧ evs = [ErrorInChat (exn_str e)])
    ∧ (messages = [] →
       reply = apology ∧ r = (start_chat (model self) (remote w)).2).
Proof.
  unfold generate_with_history, try_except, mbind, W_bind.
  unfold request at 1.
  destruct (start_chat (model self) (remote w)) as [[e|chat] r0] eqn:Hs.
  { exists apology, [ErrorInChat (exn_str e)], r0. split; [done|].
    split; [right; by exists e | done]. }
  destruct (replay_frame chat (removelast messages) (set_remote r0 w))
    as (result & r1 & Hloop).
  assert (messages = [] → result = inr tt ∧ r1 = r0) as Hnil.
  { intros ->. cbn in Hloop. unfold mret, W_ret in Hloop.
    by injection Hloop as <- <-. }
  rewrite Hloop.
  assert (set_remote r1 (set_remote r0 w) = set_remote r1 w) as -> by done.
  destruct result as [e|[]].
  { exists apology, [ErrorInChat (exn_str e)], r1. split; [done|].
    split; [right; by exists e|]. intros Hm. by destruct (Hnil Hm). }
  unfold call, raise, mret, W_ret, request, logger.
  destruct (new_generation_config _ _ _) as [e|generation_config].
  { exists apology, [ErrorInChat (exn_str e)], r1. split; [done|].
    split; [right; by exists e|]. intros Hm. by destruct (Hnil Hm). }
  destruct (last_item messages) as [e|final] eqn:Hlast.
  { exists apology, [ErrorInChat (exn_str e)], r1. split; [done|].
    split; [right; by exists e|]. intros Hm. by destruct (Hnil Hm). }
  assert (messages ≠ []) as Hne by (by intros ->).
  destruct (getitem final "content") as [e|content].
  { exists apology, [ErrorInChat (exn_str e)], r1. split; [done|].
    split; [right; by exists e | done]. }
  simpl.
  destruct (send_message chat content (Some generation_config) r1)
    as [[e|response] r2].
  { exists apology, [ErrorInChat (exn_str e)], r2. split; [done|].
    split; [right; by exists e | done]. }
  destruct (text response) as [e|reply].
  { exists apology, [ErrorInChat (exn_str e)], r2. split; [done|].
    split; [right; by exists e | done]. }
  exists reply, [], r2. rewrite add_log_nil. split; [done|]. split; [by left | done].
Qed.

(** the loop of [generate_with_history] is its exchange with the service *)
Lemma replay_all_run chat (messages : list message) w :
  for_each messages (replay chat) w
  = ((replay_all chat messages (remote w)).1,
     set_remote (replay_all chat messages (remote w)).2 w).
Proof.
  revert w. induction messages as [|msg messages IH]; intros w.
  { cbn [for_each replay_all fst snd]. by rewrite set_remote_same. }
  cbn [for_each replay_all]. unfold mbind, W_bind. rewrite replay_run.
  destruct (getitem msg "role") as [e|role];
    [cbn [fst snd]; by rewrite set_remote_same|].
  destruct (String.eqb role "user"); [|apply IH].
  destruct (getitem msg "content") as [e|content];
    [cbn [fst snd]; by rewrite set_remote_same|].
  destruct (send_message chat content None (remote w)) as [[e|response] r]; [done|].
  by rewrite IH.
Qed.

(** X16.  [generate_with_history] never raises and touches neither the
    log, when it succeeds, nor the global client nor the conversation
    history of the agent.  It opens a chat, sends the earlier user
    messages, builds the generation config and sends the content of the
    last message: when all of this returns and the text of the response
    can be read, that text is returned; when any step raises, it logs
    one ERROR record with the text of the exception and returns the
    apology, without that text.  With an empty list of messages it opens
    a chat, sends nothing, and ends in the apology. *)
Theorem generate_with_history_never_raises self messages temperature max_tokens w :
  generate_with_history self messages temperature max_tokens w
  = match chat_outcome self messages temperature max_tokens (remote w) with
    | (inr reply, r) => (inr reply, set_remote r w)
    | (inl e, r) =>
        (inr apology, add_log [ErrorInChat (exn_str e)] (set_remote r w))
    end
  ∧ (∃ reply w',
       generate_with_history self messages temperature max_tokens w = (inr reply, w')
       ∧ _gemini_client w' = _gemini_client w
       ∧ conversation_history w' = conversation_history w)
  ∧ (∀ e r, start_chat (model self) (remote w) = (inl e, r) →
       chat_outcome self messages temperature max_tokens (remote w) = (inl e, r))
  ∧ (messages = [] →
     ∃ e, chat_outcome self messages temperature max_tokens (remote w)
          = (inl e, (start_chat (model self) (remote w)).2)).
Proof.
  assert (generate_with_history self messages temperature max_tokens w
          = match chat_outcome self messages temperature max_tokens (remote w) with
            | (inr reply, r) => (inr reply, set_remote r w)
            | (inl e, r) =>
                (inr apology, add_log [ErrorInChat (exn_str e)] (set_remote r w))
            end) as Hrun.
  { unfold generate_with_history, chat_outcome, try_except, mbind, W_bind.
    unfold request at 1.
    destruct (start_chat (model self) (remote w)) as [[e|chat] r0]; [done|].
    rewrite replay_all_run.
    change (remote (set_remote r0 w)) with r0.
    destruct (replay_all chat (removelast messages) r0) as [[e|[]] r1]; [done|].
    cbn [fst snd].
    assert (set_remote r1 (set_remote r0 w) = set_remote r1 w) as -> by done.
    unfold call, raise, mret, W_ret, request, logger.
    destruct (new_generation_config _ _ _) as [e|generation_config]; [done|].
    destruct (last_item messages) as [e|final]; [done|].
    destruct (getitem final "content") as [e|content]; [done|].
    simpl.
    destruct (send_message chat content (Some generation_config) r1)
      as [[e|response] r2]; [done|].
    by destruct (text response) as [e|reply]. }
  split; [exact Hrun|]. split.
  { rewrite Hrun.
    destruct (chat_outcome self messages temperature max_tokens (remote w))
      as [[e|reply] r]; by eexists _, _. }
  split.
  { intros e r Hs. unfold chat_outcome. by rewrite Hs. }
  intros ->. unfold chat_outcome.
  destruct (start_chat (model self) (remote w)) as [[e|chat] r0]; [by eexists|].
  cbn [removelast replay_all snd].
  destruct (new_generation_config _ _ _) as [e|generation_config]; by eexists.
Qed.

(** the messages of a list that [generate_with_history] replays *)
Lemma replay_user_only chat (messages : list message) w :
  Forall (λ msg, is_Some (msg !! "role")) messages →
  for_each (filter (λ msg, msg !! "role" = Some "user") messages) (replay chat) w
  = for_each messages (replay chat) w.
Proof.
  intros Hall. revert w. induction Hall as [|msg messages [role Hrole] _ IH]; intros w.
  { done. }
  destruct (decide (role = "user")) as [->|Hother].
  - rewrite filter_cons_True by done. cbn [for_each]. unfold mbind, W_bind.
    destruct (replay chat msg w) as [[e|[]] w']; [done | apply IH].
  - rewrite filter_cons_False by congruence. cbn [for_each].
    unfold mbind, W_bind. rewrite replay_run. unfold getitem. rewrite Hrole.
    destruct (String.eqb_spec role "user"); [done | apply IH].
Qed.

(** X17.  [generate_with_history] replays only the user messages that
    come before the last one: the messages of any other role among them
    can be left out without changing the result or the requests made. *)
Theorem generate_with_history_user_only self (earlier : list message)
    (final : message) temperature max_tokens w :
  Forall (λ msg, is_Some (msg !! "role")) earlier →
  generate_with_history self
    (filter (λ msg, msg !! "role" = Some "user") earlier ++ [final])%list
    temperature max_tokens w
  = generate_with_history self (earlier ++ [final])%list temperature max_tokens w.
Proof.
  intros Hall. unfold generate_with_history.
  rewrite !removelast_last. unfold last_item. rewrite !last_snoc.
  unfold try_except, mbind, W_bind.
  destruct (request (start_chat (model self)) w) as [[e|chat] w1]; [done|].
  by rewrite replay_user_only.
Qed.

Lemma get_gemini_client_unit w :
  match get_gemini_client w with
  | (inr client, w1) =>
      _gemini_client w1 = Some client
      ∧ global_config w1 = global_config w
      ∧ (∀ client0, _gemini_client w = Some client0 → client = client0 ∧ w1 = w)
  | (inl e, w1) => _gemini_client w = None
  end.
Proof.
  unfold get_gemini_client.
  destruct (_gemini_client w) as [client|] eqn:Hg.
  { split; [done|]. split; [done|]. by intros ? [= <-]. }
  unfold __init__, mbind, W_bind, get_config, request, logger, mret, W_ret.
  destruct (configure _ (remote w)) as [[e|[]] r]; [by simpl|].
  simpl. destruct (new_model _ r) as [[e|model] r']; [by simpl|].
  simpl. by repeat split.
Qed.

(** X18.  [get_gemini_client] builds the client at most once: after a
    call that returns, the global holds the client returned and every
    later call returns it and changes nothing, with no request and no
    log record; a call that raises leaves the global unset, so that the
    next call tries again. *)
Theorem get_gemini_client_singleton w :
  match get_gemini_client w with
  | (inr client, w1) =>
      _gemini_client w1 = Some client
      ∧ get_gemini_client w1 = (inr client, w1)
      ∧ (∀ client0, _gemini_client w = Some client0 → client = client0 ∧ w1 = w)
  | (inl e, w1) => _gemini_client w = None ∧ _gemini_client w1 = None
  end.
Proof.
  unfold get_gemini_client at 1.
  destruct (_gemini_client w) as [client|] eqn:Hg.
  { split; [done|]. split; [unfold get_gemini_client; by rewrite Hg|].
    intros ? [= <-]. done. }
  unfold __init__, mbind, W_bind, get_config, request, logger, mret, W_ret.
  destruct (configure _ (remote w)) as [[e|[]] r]; [by simpl|].
  simpl. destruct (new_model _ r) as [[e|model] r']; [by simpl|].
  simpl. split; [done|]. split; [done | by intros]. 
Qed.

End ClientRuns.

(** ** Agents *)

Section AgentRuns.
Import GeminiClient BaseAgent.
Context {G : GenAI} {A : Type} `{!Agent A}.

Lemma turns_cons (x : string * string) (exchanges : list (string * string)) :
  turns (x :: exchanges) = user_turn x.1 :: assistant_turn x.2 :: turns exchanges.
Proof. reflexivity. Qed.

Lemma turns_app (xs ys : list (string * string)) :
  turns (xs ++ ys) = (turns xs ++ turns ys)%list.
Proof. unfold turns. apply bind_app. Qed.

Lemma history_line_user (full_prompt content : string) :
  history_line full_prompt (user_turn content)
  = inr (full_prompt +:+ "User: " +:+ content +:+ PyText.nl).
Proof. reflexivity. Qed.

Lemma history_line_assistant (full_prompt content : string) :
  history_line full_prompt (assistant_turn content)
  = inr (full_prompt +:+ "Assistant: " +:+ content +:+ PyText.nl).
Proof. reflexivity. Qed.

Lemma history_lines_turns (full_prompt : string) (exchanges : list (string * string)) :
  history_lines full_prompt (turns exchanges)
  = inr (full_prompt +:+ transcript exchanges).
Proof.
  revert full_prompt. induction exchanges as [|x exchanges IH]; intros full_prompt.
  { simpl. by rewrite append_nil_r. }
  rewrite turns_cons. cbn [history_lines transcript].
  rewrite history_line_user, history_line_assistant, IH.
  by rewrite !append_assoc.
Qed.

(** a message without a role or a content stops the loop *)
Lemma history_lines_KeyError (full_prompt : string) (history : list message) :
  Exists (λ msg, msg !! "role" = None ∨ msg !! "content" = None) history →
  ∃ key, history_lines full_prompt history = inl (KeyError key).
Proof.
  intros Hbad. revert full_prompt.
  induction Hbad as [msg history Hmsg | msg history _ IH]; intros full_prompt.
  - cbn [history_lines]. unfold history_line, getitem.
    destruct (msg !! "role") as [role|]; [|by eexists].
    destruct Hmsg as [? | ->]; [done | by eexists].
  - cbn [history_lines]. unfold history_line, getitem.
    destruct (msg !! "role") as [role|]; [|by eexists].
    destruct (msg !! "content") as [content|]; [apply IH | by eexists].
Qed.

(** [_build_full_prompt] reads the state and leaves it as it is *)
Lemma build_full_prompt_frame (self : A) user_message w :
  ∃ result, _build_full_prompt self user_message w = (result, w).
Proof.
  unfold _build_full_prompt, mbind, W_bind, call, raise, mret, W_ret, get_history.
  destruct (get_system_prompt self) as [e|system_prompt]; [by eexists|].
  destruct (conversation_history w) as [|msg history]; [by eexists|].
  destruct (history_lines _ _) as [e|full_prompt]; by eexists.
Qed.

Lemma build_full_prompt_turns (self : A) user_message system_prompt exchanges w :
  get_system_prompt self = inr system_prompt →
  conversation_history w = turns exchanges →
  _build_full_prompt self user_message w
  = (inr (prompt_of system_prompt exchanges user_message), w).
Proof.
  intros Hsys Hturns.
  unfold _build_full_prompt, mbind, W_bind, call, raise, mret, W_ret, get_history.
  rewrite Hsys, Hturns. unfold prompt_of.
  destruct exchanges as [|x exchanges].
  { cbn [turns mbind list_bind]. by rewrite append_nil_l, !append_assoc. }
  rewrite history_lines_turns. rewrite turns_cons.
  by rewrite !append_assoc.
Qed.

(** what [process_message] does, in terms of its two calls *)
Lemma process_message_run (self : A) user_message add_to_history w :
  let w0 :=
    add_log [ProcessingMessage (agent_name (base self)) (PyText.take 50 user_message)] w in
  process_message self user_message add_to_history w
  = match (_build_full_prompt self user_message w0).1 with
    | inl e =>
        (inr fallback, add_log [ErrorProcessing (agent_name (base self)) (exn_str e)] w0)
    | inr full_prompt =>
        match generate_response (llm_client (base self)) full_prompt
                (Some (temperature (base self))) (Some (max_tokens (base self)))
                None w0 with
        | (inl e, w1) =>
            (inr fallback,
             add_log [ErrorProcessing (agent_name (base self)) (exn_str e)] w1)
        | (inr response, w1) =>
            (inr response,
             add_log [GeneratedResponse (agent_name (base self)) (String.length response)]
               (if add_to_history
                then set_history
                       (conversation_history w1
                        ++ [user_turn user_message; assistant_turn response])%list w1
                else w1))
        end
    end.
Proof.
  intros w0. unfold process_message, try_except, mbind, W_bind. unfold logger at 1.
  fold w0.
  destruct (build_full_prompt_frame self user_message w0) as [[e|full_prompt] ->];
    [done|].
  cbn [fst]. destruct (generate_response _ _ _ _ _ w0) as [[e|response] w1]; [done|].
  by destruct add_to_history.
Qed.

Lemma process_message_turns (self : A) user_message system_prompt exchanges w :
  get_system_prompt self = inr system_prompt →
  conversation_history w = turns exchanges →
  ∃ reply w1 w',
    generate_response (llm_client (base self))
      (prompt_of system_prompt exchanges user_message)
      (Some (temperature (base self))) (Some (max_tokens (base self))) None
      (add_log [ProcessingMessage (agent_name (base self))
                  (PyText.take 50 user_message)] w)
    = (inr reply, w1)
    ∧ process_message self user_message true w = (inr reply, w')
    ∧ conversation_history w' = turns (exchanges ++ [(user_message, reply)])
    ∧ remote w' = remote w1.
Proof.
  intros Hsys Hturns. rewrite process_message_run.
  rewrite (build_full_prompt_turns self user_message system_prompt exchanges) by done.
  cbn [fst].
  destruct (generate_response_effect (llm_client (base self))
              (prompt_of system_prompt exchanges user_message)
              (Some (temperature (base self))) (Some (max_tokens (base self))) None
              (add_log [ProcessingMessage (agent_name (base self))
                          (PyText.take 50 user_message)] w))
    as (reply & evs & r & -> & _).
  eexists _, _, _. split; [done|]. split; [done|]. split; [|done].
  cbn. by rewrite Hturns, turns_app.
Qed.

(** X19.  On a history of complete exchanges, [_build_full_prompt]
    returns the system prompt, a blank line, the exchanges as User and
    Assistant lines under the heading Previous conversation when there
    is one, then the new message and the cue for the assistant; it
    changes nothing. *)
Theorem build_full_prompt_transcript (self : A) user_message system_prompt
    exchanges w :
  get_system_prompt self = inr system_prompt →
  conversation_history w = turns exchanges →
  _build_full_prompt self user_message w
  = (inr (prompt_of system_prompt exchanges user_message), w)
  ∧ (exchanges = [] →
     prompt_of system_prompt exchanges user_message
     = system_prompt +:+ PyText.nl +:+ PyText.nl +:+ "User: " +:+ user_message
       +:+ PyText.nl +:+ PyText.nl +:+ "Assistant:").
Proof.
  intros Hsys Hturns. split; [by apply build_full_prompt_turns|].
  intros ->. unfold prompt_of. by rewrite append_nil_l.
Qed.

(** X20.  [process_message] never raises and leaves the global client
    alone.  When building the prompt raises, it returns the fallback
    text after an ERROR record and changes nothing else.  Otherwise its
    reply is what [generate_response] returned for the prompt built, the
    apology of the client included, and with add_to_history true the
    history grows by the user message and that reply, in this order;
    with add_to_history false the history is unchanged. *)
Theorem process_message_never_raises (self : A) user_message add_to_history w :
  let w0 :=
    add_log [ProcessingMessage (agent_name (base self)) (PyText.take 50 user_message)] w in
  (∃ reply w',
     process_message self user_message add_to_history w = (inr reply, w')
     ∧ _gemini_client w' = _gemini_client w
     ∧ (add_to_history = false → conversation_history w' = conversation_history w))
  ∧ match (_build_full_prompt self user_message w0).1 with
    | inl e =>
        process_message self user_message add_to_history w
        = (inr fallback,
           add_log [ErrorProcessing (agent_name (base self)) (exn_str e)] w0)
    | inr full_prompt =>
        ∃ reply w1,
          generate_response (llm_client (base self)) full_prompt
            (Some (temperature (base self))) (Some (max_tokens (base self))) None w0
          = (inr reply, w1)
          ∧ conversation_history w1 = conversation_history w
          ∧ process_message self user_message add_to_history w
            = (inr reply,
               add_log [GeneratedResponse (agent_name (base self)) (String.length reply)]
                 (if add_to_history
                  then set_history
                         (conversation_history w
                          ++ [user_turn user_message; assistant_turn reply])%list w1
                  else w1))
    end.
Proof.
  intros w0. rewrite process_message_run. fold w0.
  destruct (_build_full_prompt self user_message w0).1 as [e|full_prompt].
  { split; [|done]. by eexists _, _. }
  destruct (generate_response_effect (llm_client (base self)) full_prompt
              (Some (temperature (base self))) (Some (max_tokens (base self))) None w0)
    as (reply & evs & r & -> & _).
  split.
  - eexists _, _. split; [done|]. split; [by destruct add_to_history|].
    by intros ->.
  - by eexists _, _.
Qed.

(** X21.  On a history of complete exchanges and with a system prompt,
    [process_message] with add_to_history sends the prompt built from them and
    records whatever [generate_response] returned as the reply of the
    assistant, the apology for a failed request included; the history
    is again one of complete exchanges, and the next prompt shows that
    reply. *)
Theorem process_message_records (self : A) user_message system_prompt exchanges
    next_message w :
  get_system_prompt self = inr system_prompt →
  conversation_history w = turns exchanges →
  ∃ reply w1 w',
    generate_response (llm_client (base self))
      (prompt_of system_prompt exchanges user_message)
      (Some (temperature (base self))) (Some (max_tokens (base self))) None
      (add_log [ProcessingMessage (agent_name (base self))
                  (PyText.take 50 user_message)] w)
    = (inr reply, w1)
    ∧ process_message self user_message true w = (inr reply, w')
    ∧ conversation_history w' = turns (exchanges ++ [(user_message, reply)])
    ∧ remote w' = remote w1
    ∧ _build_full_prompt self next_message w'
      = (inr (prompt_of system_prompt (exchanges ++ [(user_message, reply)])
                next_message), w').
Proof.
  intros Hsys Hturns.
  destruct (process_message_turns self user_message system_prompt exchanges w Hsys Hturns)
    as (reply & w1 & w' & Hreply & Hrun & Hhistory & Hremote).
  exists reply, w1, w'. repeat (split; [done|]).
  by apply build_full_prompt_turns.
Qed.

(** X22.  When [get_system_prompt] raises, or a message of the history
    has no role or no content, [process_message] makes no request: it
    returns the fallback text, and only the log changes, by the INFO
    record of the call and one ERROR record. *)
Theorem process_message_fallback (self : A) user_message add_to_history w :
  (∃ e, get_system_prompt self = inl e)
  ∨ Exists (λ msg, msg !! "role" = None ∨ msg !! "content" = None)
      (conversation_history w) →
  ∃ e,
    process_message self user_message add_to_history w
    = (inr fallback,
       add_log [ProcessingMessage (agent_name (base self)) (PyText.take 50 user_message);
                ErrorProcessing (agent_name (base self)) (exn_str e)] w).
Proof.
  intros Hbad. rewrite process_message_run.
  assert (∃ e, (_build_full_prompt self user_message
                  (add_log [ProcessingMessage (agent_name (base self))
                              (PyText.take 50 user_message)] w)).1 = inl e)
    as [e ->].
  { unfold _build_full_prompt, mbind, W_bind, call, raise, mret, W_ret, get_history.
    destruct (get_system_prompt self) as [e|system_prompt] eqn:Hsys; [by exists e|].
    destruct Hbad as [[e He] | Hbad]; [done|].
    cbn [conversation_history add_log].
    destruct (conversation_history w) as [|msg history] eqn:Hh.
    { by apply Exists_nil in Hbad. }
    match goal with
    | |- context [history_lines ?p (msg :: history)] =>
        destruct (history_lines_KeyError p (msg :: history) Hbad) as [key Hkey]
    end.
    exists (KeyError key). by rewrite Hkey. }
  exists e. f_equal. same_world.
Qed.

(** X25.  After [clear_history] the agent has no history: the summary
    says so, and the next prompt is the system prompt followed by the
    message alone, whatever the history was. *)
Theorem clear_history_forgets (self : A) user_message system_prompt w :
  get_system_prompt self = inr system_prompt →
  ∃ w',
    clear_history self w = (inr tt, w')
    ∧ conversation_history w' = []
    ∧ remote w' = remote w ∧ _gemini_client w' = _gemini_client w
    ∧ get_conversation_summary self w' = (inr "No conversation history", w')
    ∧ _build_full_prompt self user_message w'
      = (inr (prompt_of system_prompt [] user_message), w').
Proof.
  intros Hsys. eexists. split; [reflexivity|]. split; [done|].
  split; [done|]. split; [done|]. split; [done|].
  by apply (build_full_prompt_turns self user_message system_prompt []).
Qed.

(** X28.  In a conversation that starts from a history of complete
    exchanges, every question gets a reply and the fallback branch is
    never taken: the history afterwards is the former one followed by
    the questions, each with its reply, in order. *)
Theorem conversation_invariant (self : A) system_prompt (questions : list string)
    exchanges w :
  get_system_prompt self = inr system_prompt →
  conversation_history w = turns exchanges →
  ∃ replies w',
    converse self questions w = (inr replies, w')
    ∧ length replies = length questions
    ∧ conversation_history w' = turns (exchanges ++ zip questions replies).
Proof.
  intros Hsys. revert exchanges w.
  induction questions as [|question questions IH]; intros exchanges w Hturns.
  { exists [], w. by rewrite app_nil_r. }
  destruct (process_message_turns self question system_prompt exchanges w Hsys Hturns)
    as (reply & w1 & w2 & _ & Hrun & Hhistory & _).
  destruct (IH _ w2 Hhistory) as (replies & w' & Hrest & Hlen & Hfinal).
  exists (reply :: replies), w'. cbn [converse]. unfold mbind, W_bind.
  rewrite Hrun, Hrest. split; [done|]. split; [by cbn [length]; rewrite Hlen|].
  by rewrite Hfinal, <- app_assoc.
Qed.

(** X29.  For an agent without history the prompt of [_build_full_prompt]
    is the text [generate_response] builds from the message and the
    system prompt given as system_instruction: the two modules format
    a first message alike. *)
Theorem first_prompt_is_system_instruction (self : A) user_message system_prompt w :
  get_system_prompt self = inr system_prompt →
  system_prompt ≠ "" →
  conversation_history w = [] →
  _build_full_prompt self user_message w
  = (inr (with_system_instruction (Some system_prompt) user_message), w).
Proof.
  intros Hsys Hne Hempty.
  rewrite (build_full_prompt_turns self user_message system_prompt []) by done.
  unfold prompt_of, with_system_instruction.
  destruct system_prompt as [|c system_prompt]; [done|].
  by rewrite append_nil_l.
Qed.

End AgentRuns.

(** ** The conversation summary *)

Lemma length_take (n : nat) (s : string) :
  String.length (PyText.take n s) = (n `min` String.length s)%nat.
Proof.
  unfold PyText.take. revert s. induction n as [|n IH]; intros [|c s]; simpl; try done.
  by rewrite IH.
Qed.

Section SummaryRuns.
Import GeminiClient BaseAgent.
Context {G : GenAI} {A : Type} `{!Agent A}.

Lemma summary_line_user (summary : string) (i : nat) (content : string) :
  summary_line summary i (user_turn content)
  = inr (summary +:+ pretty i +:+ ". " +:+ "USER" +:+ ": " +:+ shorten content
         +:+ PyText.nl).
Proof. reflexivity. Qed.

Lemma summary_line_assistant (summary : string) (i : nat) (content : string) :
  summary_line summary i (assistant_turn content)
  = inr (summary +:+ pretty i +:+ ". " +:+ "ASSISTANT" +:+ ": " +:+ shorten content
         +:+ PyText.nl).
Proof. reflexivity. Qed.

Lemma summary_lines_turns (summary : string) (i : nat)
    (exchanges : list (string * string)) :
  summary_lines summary i (turns exchanges)
  = inr (summary +:+ summary_text i exchanges).
Proof.
  revert summary i. induction exchanges as [|x exchanges IH]; intros summary i.
  { cbn [turns mbind list_bind summary_lines summary_text]. by rewrite append_nil_r. }
  rewrite turns_cons. cbn [summary_lines summary_text].
  rewrite summary_line_user, summary_line_assistant, IH.
  by rewrite !append_assoc.
Qed.

Lemma length_turns (exchanges : list (string * string)) :
  length (turns exchanges) = (2 * length exchanges)%nat.
Proof.
  induction exchanges as [|x exchanges IH]; [done|].
  rewrite turns_cons. cbn [length]. lia.
Qed.

Lemma take_split (n : nat) (s : string) :
  ∃ tail, s = PyText.take n s +:+ tail.
Proof.
  unfold PyText.take. revert s. induction n as [|n IH]; intros s.
  - exists s. by destruct s.
  - destruct s as [|c s]; [by exists ""|].
    destruct (IH s) as [tail Htail]. exists tail.
    cbn [substring]. rewrite append_cons. by f_equal.
Qed.

(** X26.  On a history of complete exchanges [get_conversation_summary]
    does not raise and changes nothing.  With no exchange it returns
    the text No conversation history; otherwise it returns a line
    naming the agent, a line with the number of messages, a blank line
    and one numbered line per message, from 1, with USER or ASSISTANT
    and the content.  A content of more than 100 characters is shown as
    its first 100 characters and three dots, a shorter one as it is. *)
Theorem conversation_summary_outcome (self : A) exchanges w :
  conversation_history w = turns exchanges →
  get_conversation_summary self w
  = (inr match exchanges with
         | [] => "No conversation history"
         | _ =>
             "Conversation with " +:+ agent_name (base self) +:+ ":" +:+ PyText.nl
             +:+ "Total messages: " +:+ pretty (2 * length exchanges)%nat
             +:+ PyText.nl +:+ PyText.nl
             +:+ summary_text 1 exchanges
         end, w)
  ∧ (∀ content, (String.length content ≤ 100)%nat → shorten content = content)
  ∧ (∀ content, (100 < String.length content)%nat →
       ∃ head tail,
         content = head +:+ tail ∧ String.length head = 100%nat
         ∧ shorten content = head +:+ "...").
Proof.
  intros Hturns. split; [|split].
  - unfold get_conversation_summary, mbind, W_bind, get_history, call, mret, W_ret.
    rewrite Hturns. destruct exchanges as [|x exchanges]; [done|].
    rewrite summary_lines_turns, length_turns. rewrite turns_cons.
    by rewrite !append_assoc.
  - intros content Hlen. unfold shorten.
    by destruct (Nat.ltb_spec 100 (String.length content)); [lia|].
  - intros content Hlen. unfold shorten.
    destruct (Nat.ltb_spec 100 (String.length content)); [|lia].
    destruct (take_split 100 content) as [tail Htail].
    exists (PyText.take 100 content), tail. split; [done|]. split; [|done].
    rewrite length_take. lia.
Qed.

End SummaryRuns.

(** ** The customer support agent *)

Section SupportRuns.
Import GeminiClient.
Context {G : GenAI}.

Lemma process_message_unrecorded (self : CustomerSupportAgent.t) user_message w :
  ∃ reply w',
    BaseAgent.process_message self user_message false w = (inr reply, w')
    ∧ conversation_history w' = conversation_history w
    ∧ _gemini_client w' = _gemini_client w.
Proof.
  rewrite process_message_run.
  destruct (BaseAgent._build_full_prompt self user_message _).1 as [e|full_prompt].
  { by eexists _, _. }
  match goal with
  | |- context [generate_response ?c ?p ?t ?m ?i ?w0] =>
      destruct (generate_response_effect c p t m i w0) as (reply & evs & r & -> & _)
  end.
  by eexists _, _.
Qed.

(** X23.  [handle_greeting] and [handle_farewell] never raise and leave
    the conversation history as it was: neither their instruction nor
    the reply is recorded, so they never show in a later prompt. *)
Theorem greeting_and_farewell_unrecorded (self : CustomerSupportAgent.t) w :
  (∃ reply w',
     CustomerSupportAgent.handle_greeting self w = (inr reply, w')
     ∧ conversation_history w' = conversation_history w)
  ∧ (∃ reply w',
       CustomerSupportAgent.handle_farewell self w = (inr reply, w')
       ∧ conversation_history w' = conversation_history w).
Proof.
  unfold CustomerSupportAgent.handle_greeting, CustomerSupportAgent.handle_farewell.
  split.
  - destruct (process_message_unrecorded self
                "Greet the customer warmly and ask how you can help them today." w)
      as (reply & w' & ? & ? & _). by exists reply, w'.
  - destruct (process_message_unrecorded self
                "Thank the customer and wish them well." w)
      as (reply & w' & ? & ? & _). by exists reply, w'.
Qed.

(** X24.  [CustomerSupportAgent.__init__] raises only when the global
    client cannot be built.  Otherwise the agent is named
    customer_support, has max_tokens 1500 whatever the configuration
    says, the bank name given (the configured one only for None), the
    temperature given unless it is zero, which selects the configured
    temperature, an empty history, and the global client, which is the
    existing one when there is one. *)
Theorem support_agent_init (bank_name : option string) (temperature : Q) w :
  match CustomerSupportAgent.__init__ bank_name temperature w with
  | (inr self, w') =>
      CustomerSupportAgent.bank_name self
      = default (AppConfig.bank_name (global_config w)) bank_name
      ∧ BaseAgent.agent_name (CustomerSupportAgent.super self) = "customer_support"
      ∧ BaseAgent.agent_role (CustomerSupportAgent.super self)
        = CustomerSupportAgent.bank_name self +:+ " Customer Support Representative"
      ∧ BaseAgent.max_tokens (CustomerSupportAgent.super self) = 1500
      ∧ BaseAgent.temperature (CustomerSupportAgent.super self)
        = (if Qnum temperature =? 0
           then ModelConfig.temperature (AppConfig.model (global_config w))
           else temperature)
      ∧ conversation_history w' = []
      ∧ _gemini_client w' = Some (BaseAgent.llm_client (CustomerSupportAgent.super self))
      ∧ (∀ client, _gemini_client w = Some client →
                   BaseAgent.llm_client (CustomerSupportAgent.super self) = client
                   ∧ remote w' = remote w)
  | (inl e, w') => _gemini_client w = None ∧ get_gemini_client w = (inl e, w')
  end.
Proof.
  unfold CustomerSupportAgent.__init__, BaseAgent.__init__.
  unfold mbind, W_bind, get_config, mret, W_ret, logger.
  pose proof (get_gemini_client_unit w) as Hclient.
  destruct bank_name as [name|]; simpl.
  all: destruct (get_gemini_client w) as [[e|client] w1]; simpl; [done|].
  all: destruct Hclient as (Hset & Hcfg & Hsame); rewrite ?Hcfg.
  all: repeat (split; [done|]).
  all: intros c Hc; by destruct (Hsame c Hc) as [-> ->].
Qed.

End SupportRuns.

(** ** Sample conversations *)

Section AgentSamples.
Import GeminiClient SampleAgent.

Lemma zero_counts_as_absent_witness :
  (0 == 0)%Q
  ∧ generate_response online "Hello" (Some 0%Q) (Some 0) (Some "") (w0 "gemini-1.5-flash")
    = generate_response online "Hello" None None None (w0 "gemini-1.5-flash").
Proof.
  assert (H : (0 == 0)%Q) by reflexivity.
  split; [exact H|].
  exact (proj1 (zero_counts_as_absent (G:=genai) online "Hello" [] 0%Q
                  (w0 "gemini-1.5-flash") H)).
Defined.

Lemma test_connection_on_failure_witness :
  generate_content (GenAI:=genai) (model offline) test_prompt (7 # 10, 10, 9 # 10)
    (remote (w0 "offline"))
  = (inl (LibraryError "Invalid token"), 1%nat)
  ∧ ∃ w', test_connection offline (w0 "offline") = (inr true, w').
Proof.
  split; [reflexivity|].
  exact (test_connection_on_failure (G:=genai) offline (w0 "offline")
           (7 # 10, 10, 9 # 10) (LibraryError "Invalid token") 1%nat eq_refl eq_refl).
Defined.

Lemma generate_with_history_user_only_witness :
  generate_with_history online
    [BaseAgent.user_turn "Hello"; BaseAgent.user_turn "And the fees?"]
    None None (w0 "gemini-1.5-flash")
  = generate_with_history online
      [BaseAgent.user_turn "Hello"; BaseAgent.assistant_turn answer;
       BaseAgent.user_turn "And the fees?"]
      None None (w0 "gemini-1.5-flash").
Proof.
  assert (H : Forall (λ msg : message, is_Some (msg !! "role"))
                [BaseAgent.user_turn "Hello"; BaseAgent.assistant_turn answer]).
  { repeat constructor; eexists; reflexivity. }
  exact (generate_with_history_user_only (G:=genai) online
           [BaseAgent.user_turn "Hello"; BaseAgent.assistant_turn answer]
           (BaseAgent.user_turn "And the fees?") None None (w0 "gemini-1.5-flash") H).
Defined.

(** the state after one exchange *)
Lemma build_full_prompt_transcript_witness :
  BaseAgent._build_full_prompt (support online) "And the fees?"
    (set_history (BaseAgent.turns [("Hello", answer)]) (w0 "gemini-1.5-flash"))
  = (inr (BaseAgent.prompt_of (CustomerSupportAgent.system_prompt "DemoBank")
            [("Hello", answer)] "And the fees?"),
     set_history (BaseAgent.turns [("Hello", answer)]) (w0 "gemini-1.5-flash")).
Proof.
  exact (proj1 (build_full_prompt_transcript (G:=genai) (support online) "And the fees?"
                  (CustomerSupportAgent.system_prompt "DemoBank") [("Hello", answer)]
                  (set_history (BaseAgent.turns [("Hello", answer)])
                     (w0 "gemini-1.5-flash"))
                  eq_refl eq_refl)).
Defined.

Lemma process_message_records_witness :
  ∃ w',
    BaseAgent.process_message (support offline) "And the fees?" true
      (set_history (BaseAgent.turns [("Hello", answer)]) (w0 "offline"))
    = (inr (apology_with (LibraryError "Invalid token")), w')
    ∧ conversation_history w'
      = BaseAgent.turns [("Hello", answer);
                         ("And the fees?", apology_with (LibraryError "Invalid token"))].
Proof.
  assert (Hsys : BaseAgent.get_system_prompt (G:=genai) (support offline)
                 = inr (CustomerSupportAgent.system_prompt "DemoBank")) by reflexivity.
  destruct (process_message_records (G:=genai) (support offline) "And the fees?"
              (CustomerSupportAgent.system_prompt "DemoBank") [("Hello", answer)]
              "Thanks"
              (set_history (BaseAgent.turns [("Hello", answer)]) (w0 "offline"))
              Hsys eq_refl)
    as (reply & w1 & w' & Hreply & Hrun & Hhistory & _).
  assert (reply = apology_with (LibraryError "Invalid token")) as ->.
  { vm_compute in Hreply. by injection Hreply as <- _. }
  by exists w'.
Defined.

Lemma process_message_fallback_witness :
  ∃ e,
    BaseAgent.process_message (support online) "Hello" true
      (set_history [∅] (w0 "gemini-1.5-flash"))
    = (inr BaseAgent.fallback,
       add_log [ProcessingMessage "customer_support" "Hello";
                ErrorProcessing "customer_support" (exn_str e)]
         (set_history [∅] (w0 "gemini-1.5-flash"))).
Proof.
  assert (H : (∃ e, BaseAgent.get_system_prompt (G:=genai) (support online) = inl e)
              ∨ Exists (λ msg : message, msg !! "role" = None ∨ msg !! "content" = None)
                  (conversation_history (set_history [∅] (w0 "gemini-1.5-flash")))).
  { right. apply Exists_cons_hd. left. reflexivity. }
  exact (process_message_fallback (G:=genai) (support online) "Hello" true
           (set_history [∅] (w0 "gemini-1.5-flash")) H).
Defined.

Lemma clear_history_forgets_witness :
  ∃ w',
    BaseAgent.clear_history (support online)
      (set_history (BaseAgent.turns [("Hello", answer)]) (w0 "gemini-1.5-flash"))
    = (inr tt, w')
    ∧ conversation_history w' = [].
Proof.
  assert (Hsys : BaseAgent.get_system_prompt (G:=genai) (support online)
                 = inr (CustomerSupportAgent.system_prompt "DemoBank")) by reflexivity.
  destruct (clear_history_forgets (G:=genai) (support online) "Hello"
              (CustomerSupportAgent.system_prompt "DemoBank")
              (set_history (BaseAgent.turns [("Hello", answer)]) (w0 "gemini-1.5-flash"))
              Hsys)
    as (w' & Hrun & Hhistory & _).
  by exists w'.
Defined.

Lemma conversation_summary_outcome_witness :
  conversation_history
    (set_history (BaseAgent.turns [("Hello", answer)]) (w0 "gemini-1.5-flash"))
  = BaseAgent.turns [("Hello", answer)]
  ∧ BaseAgent.get_conversation_summary (support online)
      (set_history (BaseAgent.turns [("Hello", answer)]) (w0 "gemini-1.5-flash"))
    = (inr ("Conversation with customer_support:" +:+ PyText.nl
            +:+ "Total messages: 2" +:+ PyText.nl +:+ PyText.nl
            +:+ "1. USER: Hello" +:+ PyText.nl
            +:+ "2. ASSISTANT: Hello! How can I help you today?" +:+ PyText.nl),
       set_history (BaseAgent.turns [("Hello", answer)]) (w0 "gemini-1.5-flash")).
Proof.
  split; [reflexivity|].
  rewrite (proj1 (conversation_summary_outcome (G:=genai) (support online)
                     [("Hello", answer)]
                     (set_history (BaseAgent.turns [("Hello", answer)])
                        (w0 "gemini-1.5-flash"))
                     eq_refl)).
  f_equal.
Defined.

(** a content of 101 characters is cut to 100 and three dots *)
Example shorten_long :
  BaseAgent.shorten
    ("0123456789012345678901234567890123456789012345678901234567890123456789"
     +:+ "0123456789012345678901234567890")
  = "0123456789012345678901234567890123456789012345678901234567890123456789"
    +:+ "012345678901234567890123456789" +:+ "...".
Proof. by vm_compute. Qed.

Lemma conversation_invariant_witness :
  ∃ replies w',
    BaseAgent.converse (support online) ["Hello"; "And the fees?"]
      (w0 "gemini-1.5-flash")
    = (inr replies, w')
    ∧ length replies = 2%nat
    ∧ conversation_history w' = BaseAgent.turns (zip ["Hello"; "And the fees?"] replies).
Proof.
  assert (Hsys : BaseAgent.get_system_prompt (G:=genai) (support online)
                 = inr (CustomerSupportAgent.system_prompt "DemoBank")) by reflexivity.
  exact (conversation_invariant (G:=genai) (support online)
           (CustomerSupportAgent.system_prompt "DemoBank") ["Hello"; "And the fees?"]
           [] (w0 "gemini-1.5-flash") Hsys eq_refl).
Defined.

Lemma first_prompt_is_system_instruction_witness :
  CustomerSupportAgent.system_prompt "DemoBank" ≠ ""
  ∧ BaseAgent._build_full_prompt (support online) "Hello" (w0 "gemini-1.5-flash")
    = (inr (with_system_instruction (Some (CustomerSupportAgent.system_prompt "DemoBank"))
              "Hello"),
       w0 "gemini-1.5-flash").
Proof.
  assert (Hsys : BaseAgent.get_system_prompt (G:=genai) (support online)
                 = inr (CustomerSupportAgent.system_prompt "DemoBank")) by reflexivity.
  assert (Hne : CustomerSupportAgent.system_prompt "DemoBank" ≠ "") by discriminate.
  split; [exact Hne|].
  exact (first_prompt_is_system_instruction (G:=genai) (support online) "Hello"
           (CustomerSupportAgent.system_prompt "DemoBank") (w0 "gemini-1.5-flash")
           Hsys Hne eq_refl).
Defined.

(** [generate_response] with the service up and down *)
Example generate_response_samples :
  generate_response online "Hi" None None None (w0 "gemini-1.5-flash")
  = (inr answer,
     add_log [SendingRequest 2; ReceivedResponse 32]
       (set_remote (G:=genai) 1%nat (w0 "gemini-1.5-flash")))
  ∧ generate_response offline "Hi" None None None (w0 "offline")
    = (inr (apology +:+ " (Error: Invalid token)"),
       add_log [SendingRequest 2; ErrorGenerating "Invalid token"]
         (set_remote (G:=genai) 1%nat (w0 "offline"))).
Proof. split; by vm_compute. Qed.

(** [generate_with_history] with the service up, with the service down
    and on an empty list of messages: one earlier user message is
    replayed, so that the service is asked twice *)
Example generate_with_history_samples :
  generate_with_history online
    [BaseAgent.user_turn "Hello"; BaseAgent.assistant_turn answer;
     BaseAgent.user_turn "And the fees?"] None None (w0 "gemini-1.5-flash")
  = (inr answer, set_remote (G:=genai) 2%nat (w0 "gemini-1.5-flash"))
  ∧ generate_with_history offline [BaseAgent.user_turn "Hello"] None None (w0 "offline")
    = (inr apology,
       add_log [ErrorInChat "Invalid token"] (set_remote (G:=genai) 1%nat (w0 "offline")))
  ∧ generate_with_history online [] None None (w0 "gemini-1.5-flash")
    = (inr apology,
       add_log [ErrorInChat "list index out of range"] (w0 "gemini-1.5-flash")).
Proof. repeat split; by vm_compute. Qed.

(** A conversation with the service down: the connection test reports
    success, and the apology with the text of the exception becomes
    part of the history. *)
Example offline_conversation :
  match test_connection offline (w0 "offline") with
  | (inr true, w1) =>
      match BaseAgent.process_message (support offline) "Hello" true w1 with
      | (inr reply, w2) =>
          reply = apology_with (LibraryError "Invalid token")
          ∧ conversation_history w2
            = [BaseAgent.user_turn "Hello"; BaseAgent.assistant_turn reply]
          ∧ map level_of (log w2) = [DEBUG; ERROR; INFO; INFO; DEBUG; ERROR; INFO]
      | _ => False
      end
  | _ => False
  end.
Proof. vm_compute. repeat split; reflexivity. Qed.

End AgentSamples.
